(** * HomeTom controller: the scene automation engine

    A shallow embedding of the scene engine of the controller
    (domain/scene_engine/{parser,conditions,scheduler,executor}.py,
    domain/entities/scene.py, infrastructure/state_manager.py and
    application/event_bus.py) together with the properties its design
    document states about it.

    Python objects are dynamically typed, so scene definitions are embedded
    as a universe [value] of JSON-like objects, and every Python exception
    is a [fault] value: a function that can raise returns a [result].
    Stateful code (the state store, the HAL, the wall clock, the scheduler's
    job store, the event loop) passes its state explicitly.  The objects the
    state store writes into, the cached [DeviceState] objects and their
    attribute dicts, live in a heap under references, so that an object
    cached twice is one object.  A task can be cancelled where it is
    suspended, in a delay or in a HAL call; the cancellation is a fault
    that does not derive from [Exception].

    JSON numbers are embedded as integers; [float] payloads are outside the
    universe.  Strings are byte strings, read as ASCII where the code looks
    inside them. *)

From stdpp Require Import gmap strings list fin_maps pretty.
From Stdlib Require Import ZArith Ascii.

Local Open Scope string_scope.
#[local] Set Warnings "-register-all".

(** ** Python values *)

Inductive value : Type :=
| VNone
| VBool (b : bool)
| VInt (z : Z)
| VStr (s : string)
| VList (xs : list value)
| VDict (kvs : list (string * value)).

(** A [Dict[str, Any]]: the bindings in insertion order.  A Python dict
    holds a key once; [dict_get] reads the first binding. *)
Abbreviation dict := (list (string * value)).

Fixpoint dict_get (k : string) (d : dict) : option value :=
  match d with
  | [] => None
  | (k', v) :: r => if String.eqb k k' then Some v else dict_get k r
  end.

(** [k in d] *)
Definition dict_has (k : string) (d : dict) : bool :=
  match dict_get k d with Some _ => true | None => false end.

(** [type(v).__name__] *)
Definition type_name (v : value) : string :=
  match v with
  | VNone => "NoneType"
  | VBool _ => "bool"
  | VInt _ => "int"
  | VStr _ => "str"
  | VList _ => "list"
  | VDict _ => "dict"
  end.

(** [bool(v)]: the truth value Python's [if v:] and [not v] test. *)
Definition truthy (v : value) : bool :=
  match v with
  | VNone => false
  | VBool b => b
  | VInt z => negb (Z.eqb z 0)
  | VStr s => negb (String.eqb s "")
  | VList xs => match xs with [] => false | _ => true end
  | VDict kvs => match kvs with [] => false | _ => true end
  end.

(** ** Exceptions *)

Inductive exc : Type :=
| ValueError
| KeyError
| TypeError
| AttributeError
| OverflowError
| ValidationError
| JobLookupError
| HALCommunicationError
| SceneExecutionError
| SceneDefinitionError
| OtherException
| CancelledError
| OtherBaseException.

(** [issubclass(c, Exception)].  [asyncio.CancelledError] derives from
    [BaseException] alone, so that [except Exception] lets a cancellation
    through, as it does [KeyboardInterrupt], [SystemExit] and the like
    ([OtherBaseException]); every other class here derives from
    [Exception]. *)
Definition is_Exception (c : exc) : bool :=
  match c with CancelledError | OtherBaseException => false | _ => true end.

Global Instance exc_eq_dec : EqDecision exc.
Proof. solve_decision. Defined.

(** A raised exception: its class and [str(e)]. *)
Record fault : Type := Fault { exc_class : exc; exc_msg : string }.

Global Instance fault_eq_dec : EqDecision fault.
Proof. solve_decision. Defined.

Inductive result (A : Type) : Type :=
| Ok (a : A)
| Raise (f : fault).
Arguments Ok {A} a.
Arguments Raise {A} f.

Definition is_ok {A} (r : result A) : bool :=
  match r with Ok _ => true | Raise _ => false end.

(** ** [repr] and [str] of values *)

Definition quote1 : ascii := ascii_of_nat 39.
Definition quote2 : ascii := ascii_of_nat 34.
Definition backslash : ascii := ascii_of_nat 92.

Fixpoint str_mem (c : ascii) (s : string) : bool :=
  match s with
  | EmptyString => false
  | String a r => if Ascii.eqb a c then true else str_mem c r
  end.

Definition hex_digit (n : nat) : ascii :=
  match String.get n "0123456789abcdef" with Some c => c | None => "0"%char end.

(** One character of [repr(s)] inside quotes [q]. *)
Definition repr_char (q c : ascii) : string :=
  let n := nat_of_ascii c in
  if Ascii.eqb c backslash then String backslash (String backslash "")
  else if Ascii.eqb c q then String backslash (String q "")
  else if Nat.eqb n 10 then String backslash "n"
  else if Nat.eqb n 13 then String backslash "r"
  else if Nat.eqb n 9 then String backslash "t"
  else if Nat.ltb n 32 || Nat.eqb n 127
       then String backslash
              (String "x"%char
                 (String (hex_digit (Nat.div n 16)) (String (hex_digit (Nat.modulo n 16)) "")))
  else String c "".

Fixpoint repr_chars (q : ascii) (s : string) : string :=
  match s with
  | EmptyString => ""
  | String c r => repr_char q c +:+ repr_chars q r
  end.

(** [repr(s)] of a string: single quotes, unless the string holds a single
    quote and no double quote. *)
Definition repr_str (s : string) : string :=
  let q := if str_mem quote1 s && negb (str_mem quote2 s) then quote2 else quote1 in
  String q (repr_chars q s +:+ String q "").

Fixpoint py_repr (v : value) : string :=
  match v with
  | VNone => "None"
  | VBool true => "True"
  | VBool false => "False"
  | VInt z => pretty z
  | VStr s => repr_str s
  | VList xs =>
      "[" +:+
      (fix items (xs : list value) : string :=
         match xs with
         | [] => ""
         | x :: r => match r with
                     | [] => py_repr x
                     | _ => py_repr x +:+ ", " +:+ items r
                     end
         end) xs +:+ "]"
  | VDict kvs =>
      "{" +:+
      (fix items (kvs : dict) : string :=
         match kvs with
         | [] => ""
         | (k, x) :: r => match r with
                          | [] => repr_str k +:+ ": " +:+ py_repr x
                          | _ => repr_str k +:+ ": " +:+ py_repr x +:+ ", " +:+ items r
                          end
         end) kvs +:+ "}"
  end.

(** [str(v)], what an f-string prints for [{v}]. *)
Definition py_str (v : value) : string :=
  match v with
  | VStr s => s
  | _ => py_repr v
  end.

(** ** Comparison of values *)

(** The number a [bool] or [int] stands for. *)
Definition num (v : value) : option Z :=
  match v with
  | VBool b => Some (Z.b2z b)
  | VInt z => Some z
  | _ => None
  end.

(** [a == b] *)
Fixpoint py_eq (a b : value) {struct a} : bool :=
  match a with
  | VNone => match b with VNone => true | _ => false end
  | VBool x => match num b with Some y => Z.eqb (Z.b2z x) y | None => false end
  | VInt x => match num b with Some y => Z.eqb x y | None => false end
  | VStr s => match b with VStr t => String.eqb s t | _ => false end
  | VList xs =>
      match b with
      | VList ys =>
          (fix all2 (xs ys : list value) : bool :=
             match xs, ys with
             | [], [] => true
             | x :: xs', y :: ys' => py_eq x y && all2 xs' ys'
             | _, _ => false
             end) xs ys
      | _ => false
      end
  | VDict kvs =>
      match b with
      | VDict kws =>
          Nat.eqb (length kvs) (length kws) &&
          (fix each (kvs : dict) : bool :=
             match kvs with
             | [] => true
             | (k, v) :: r =>
                 match dict_get k kws with
                 | Some w => py_eq v w
                 | None => false
                 end && each r
             end) kvs
      | _ => false
      end
  end.

(** The four ordering operators [>], [>=], [<], [<=]. *)
Inductive ordering : Type := OGt | OGe | OLt | OLe.

Definition ordering_symbol (o : ordering) : string :=
  match o with OGt => ">" | OGe => ">=" | OLt => "<" | OLe => "<=" end.

Definition ord_of_comparison (o : ordering) (c : comparison) : bool :=
  match o, c with
  | OGt, Gt => true
  | OGe, (Gt | Eq) => true
  | OLt, Lt => true
  | OLe, (Lt | Eq) => true
  | _, _ => false
  end.

Definition unorderable (o : ordering) (a b : value) : fault :=
  Fault TypeError
    ("'" +:+ ordering_symbol o +:+ "' not supported between instances of '"
     +:+ type_name a +:+ "' and '" +:+ type_name b +:+ "'").

(** [a o b] for an ordering operator: numbers by value, strings and lists
    lexicographically (a list at its first unequal position, else by
    length); every other pairing raises [TypeError]. *)
Fixpoint py_order (o : ordering) (a b : value) {struct a} : result bool :=
  match a with
  | VBool _ | VInt _ =>
      match num a, num b with
      | Some x, Some y => Ok (ord_of_comparison o (Z.compare x y))
      | _, _ => Raise (unorderable o a b)
      end
  | VStr s =>
      match b with
      | VStr t => Ok (ord_of_comparison o (String.compare s t))
      | _ => Raise (unorderable o a b)
      end
  | VList xs =>
      match b with
      | VList ys =>
          (fix first_diff (xs ys : list value) : result bool :=
             match xs, ys with
             | x :: xs', y :: ys' =>
                 if py_eq x y then first_diff xs' ys' else py_order o x y
             | _, _ => Ok (ord_of_comparison o (Nat.compare (length xs) (length ys)))
             end) xs ys
      | _ => Raise (unorderable o a b)
      end
  | _ => Raise (unorderable o a b)
  end.

(** [d.get(k)] for an arbitrary key object [k] on a dict with string keys:
    an unhashable key raises, a key that is no string is never found. *)
Definition unhashable (k : value) : fault :=
  Fault TypeError ("unhashable type: '" +:+ type_name k +:+ "'").

Definition hashable (k : value) : bool :=
  match k with VList _ | VDict _ => false | _ => true end.

(** [d.get(k)]: [None] when the key is missing. *)
Definition py_get (k : value) (d : dict) : result value :=
  match k with
  | VStr s => Ok (default VNone (dict_get s d))
  | VList _ | VDict _ => Raise (unhashable k)
  | _ => Ok VNone
  end.

(** [d[k]] for a string key: [KeyError] when the key is missing;
    [str(KeyError(k))] is [repr(k)]. *)
Definition subscript (d : dict) (k : string) : result value :=
  match dict_get k d with
  | Some v => Ok v
  | None => Raise (Fault KeyError (repr_str k))
  end.

Definition no_attribute (v : value) (name : string) : fault :=
  Fault AttributeError
    ("'" +:+ type_name v +:+ "' object has no attribute '" +:+ name +:+ "'").

(** The objects a [for] loop draws from a value: the items of a list, the
    keys of a dict, the characters of a string; other values do not
    iterate. *)
Fixpoint chars (s : string) : list value :=
  match s with
  | EmptyString => []
  | String c r => VStr (String c "") :: chars r
  end.

Definition py_iter (v : value) : result (list value) :=
  match v with
  | VList xs => Ok xs
  | VDict kvs => Ok (map (fun kv => VStr (fst kv)) kvs)
  | VStr s => Ok (chars s)
  | _ => Raise (Fault TypeError ("'" +:+ type_name v +:+ "' object is not iterable"))
  end.

(** [s.lower()] on ASCII letters. *)
Definition lower_char (c : ascii) : ascii :=
  let n := nat_of_ascii c in
  if Nat.leb 65 n && Nat.leb n 90 then ascii_of_nat (n + 32) else c.

Fixpoint lower (s : string) : string :=
  match s with
  | EmptyString => EmptyString
  | String c r => String (lower_char c) (lower r)
  end.

(** ** Clock-of-day values: [datetime.time] *)

Record time : Type := Time { hour : N; minute : N; second : N; microsecond : N }.

(** Python orders [time] objects as the tuples
    [(hour, minute, second, microsecond)]. *)
Definition time_compare (a b : time) : comparison :=
  match N.compare (hour a) (hour b) with
  | Eq => match N.compare (minute a) (minute b) with
          | Eq => match N.compare (second a) (second b) with
                  | Eq => N.compare (microsecond a) (microsecond b)
                  | c => c
                  end
          | c => c
          end
  | c => c
  end.

(** [a <= b] and [a >= b] on [time] objects. *)
Definition time_le (a b : time) : bool :=
  match time_compare a b with Gt => false | _ => true end.

Definition time_ge (a b : time) : bool :=
  match time_compare a b with Lt => false | _ => true end.

(** What the constructor of [datetime.time] enforces. *)
Definition valid_time (t : time) : Prop :=
  (hour t < 24 /\ minute t < 60 /\ second t < 60 /\ microsecond t < 1000000)%N.

(** Microseconds since midnight. *)
Definition day_micros (t : time) : N :=
  (((hour t * 60 + minute t) * 60 + second t) * 1000000 + microsecond t)%N.

(** *** [datetime.strptime(s, "%H:%M").time()]

    The format compiles to the regular expression
    [(2[0-3]|[0-1]\d|\d):([0-5]\d|\d)]; the match is anchored at the start
    and must end where the string ends. *)

Definition is_digit (c : ascii) : bool :=
  let n := nat_of_ascii c in Nat.leb 48 n && Nat.leb n 57.

Definition digit (c : ascii) : nat := nat_of_ascii c - 48.

(** The alternatives of the hour group, in the order the regular expression
    tries them, each with the rest of the input. *)
Definition hour_alts (s : list ascii) : list (nat * list ascii) :=
  match s with
  | a :: r =>
      (match r with
       | b :: r' =>
           if (Ascii.eqb a "2" && is_digit b && Nat.leb (digit b) 3)
              || ((Ascii.eqb a "0" || Ascii.eqb a "1") && is_digit b)
           then [(10 * digit a + digit b, r')] else []
       | [] => []
       end) ++ (if is_digit a then [(digit a, r)] else [])
  | [] => []
  end.

Definition minute_alts (s : list ascii) : list (nat * list ascii) :=
  match s with
  | a :: r =>
      (match r with
       | b :: r' =>
           if is_digit a && Nat.leb (digit a) 5 && is_digit b
           then [(10 * digit a + digit b, r')] else []
       | [] => []
       end) ++ (if is_digit a then [(digit a, r)] else [])
  | [] => []
  end.

(** The first way to match, backtracking over the alternatives: the hour,
    the minute and the unmatched rest. *)
Definition match_hm (s : list ascii) : option (nat * nat * list ascii) :=
  head
    (flat_map
       (fun h : nat * list ascii =>
          match snd h with
          | c :: r =>
              if Ascii.eqb c ":"
              then map (fun m : nat * list ascii => (fst h, fst m, snd m)) (minute_alts r)
              else []
          | [] => []
          end)
       (hour_alts s)).

Definition strptime_hm (s : value) : result time :=
  match s with
  | VStr str =>
      match match_hm (String.list_ascii_of_string str) with
      | Some (h, m, []) => Ok (Time (N.of_nat h) (N.of_nat m) 0 0)
      | Some (_, _, rest) =>
          Raise (Fault ValueError
                   ("unconverted data remains: " +:+ String.string_of_list_ascii rest))
      | None =>
          Raise (Fault ValueError
                   ("time data " +:+ repr_str str +:+ " does not match format '%H:%M'"))
      end
  | _ => Raise (Fault TypeError
                  ("strptime() argument 1 must be str, not "
                   +:+ match s with VNone => "None" | _ => type_name s end))
  end.

(** ** The world the engine runs in *)

(** [DeviceState] of domain/entities/device.py. *)
Record DeviceState : Type :=
  { state : string; attributes : dict; last_updated : nat }.

(** The effects an execution has outside the process: a command sent to
    the HAL and a suspension of the running task in [asyncio.sleep]. *)
Inductive effect : Type :=
| EControl (device_id command : value)
| ESleep (seconds : Z).

(** - [w_states]: what [StateManager.get_state] returns for each device
      id, as the object reads when the executor asks; the executor only
      reads the objects, with no suspension between [get_state] and the
      evaluation of the conditions, so here their values stand for them;
    - [w_clock], [w_tick]: the wall clock, as the sequence of readings
      successive calls of [datetime.now()] return, and how many were taken;
    - [w_hal]: the HAL behind [hal_client.control_device]: what the call
      does after a given history of effects, return a value or raise; the
      fault is [CancelledError] when the task is cancelled while it waits
      for the HAL;
    - [w_trace]: the effects so far, oldest first;
    - [w_cancel]: the rest of the event loop, which may cancel the task
      while it is suspended in [asyncio.sleep]: [Some msg] after the
      histories of effects at which [task.cancel(msg)] reaches it. *)
Record world : Type := World
  { w_states : gmap string DeviceState;
    w_clock : nat -> time;
    w_tick : nat;
    w_hal : list effect -> value -> value -> result value;
    w_trace : list effect;
    w_cancel : list effect -> option string }.

(** Computations that read and change the world and may raise. A raised
    exception keeps the changes made before it. *)
Definition M (A : Type) : Type := world -> result A * world.

Definition ret {A} (a : A) : M A := fun w => (Ok a, w).

Definition raise {A} (f : fault) : M A := fun w => (Raise f, w).

Definition bind {A B} (c : M A) (k : A -> M B) : M B :=
  fun w => match c w with
           | (Ok a, w') => k a w'
           | (Raise f, w') => (Raise f, w')
           end.

Definition lift {A} (r : result A) : M A := fun w => (r, w).

(** [try: c  except Exception as e: h e].  A fault whose class does not
    derive from [Exception] passes through. *)
Definition try_except {A} (c : M A) (h : fault -> M A) : M A :=
  fun w => match c w with
           | (Ok a, w') => (Ok a, w')
           | (Raise f, w') =>
               if is_Exception (exc_class f) then h f w' else (Raise f, w')
           end.

Notation "x <- c ;; k" := (bind c (fun x => k))
  (at level 100, c at next level, right associativity).
Notation "c ;;; k" := (bind c (fun _ => k))
  (at level 100, k at level 200, right associativity).

(** [for x in xs: body x], collecting what the bodies return. *)
Fixpoint for_each {A B} (body : A -> M B) (xs : list A) : M (list B) :=
  match xs with
  | [] => ret []
  | x :: r => b <- body x ;; bs <- for_each body r ;; ret (b :: bs)
  end.

(** [datetime.now()]: the next reading of the clock. *)
Definition datetime_now : M time :=
  fun w => (Ok (w_clock w (w_tick w)),
            World (w_states w) (w_clock w) (S (w_tick w)) (w_hal w) (w_trace w)
                  (w_cancel w)).

(** [await state_manager.get_state(device_id)] for a hashable id. *)
Definition get_state (device_id : value) : M (option DeviceState) :=
  fun w => (Ok (match device_id with
                | VStr s => w_states w !! s
                | _ => None
                end), w).

(** [await hal_client.control_device(device_id, command)] *)
Definition control_device (device_id command : value) : M value :=
  fun w => (w_hal w (w_trace w) device_id command,
            World (w_states w) (w_clock w) (w_tick w) (w_hal w)
                  (w_trace w ++ [EControl device_id command]) (w_cancel w)).

(** The least [int] that [float] cannot hold: conversion rounds to the
    nearest double, and from here on that is [2 ** 1024]. *)
Definition float_overflow : Z := 2 ^ 1024 - 2 ^ 970.

(** [await asyncio.sleep(seconds)] on asyncio's own event loop.  The delay
    is first tested with [delay <= 0], which raises [TypeError] for a value
    that is no number.  A positive delay is added to the loop's clock, a
    [float], which raises [OverflowError] for an [int] no [float] can hold.
    Then the task is suspended, for one turn of the loop when the delay is
    not positive; a task cancelled while it is suspended gets
    [CancelledError] there. *)
Definition asyncio_sleep (seconds : value) : M unit :=
  match num seconds with
  | Some z =>
      if Z.leb float_overflow z
      then raise (Fault OverflowError "int too large to convert to float")
      else
        fun w =>
          let trace := (w_trace w ++ [ESleep z])%list in
          (match w_cancel w trace with
           | Some msg => Raise (Fault CancelledError msg)
           | None => Ok tt
           end,
           World (w_states w) (w_clock w) (w_tick w) (w_hal w) trace (w_cancel w))
  | None =>
      raise (Fault TypeError
               ("'<=' not supported between instances of '" +:+ type_name seconds
                +:+ "' and 'int'"))
  end.

(** ** Conditions (domain/scene_engine/conditions.py) *)

(** The evaluation context [_prepare_context] builds. *)
Record EvaluationContext : Type :=
  { device_states : gmap string DeviceState;
    scene_id : string;
    current_time : time }.

(** [context.get("device_states", {}).get(k)] *)
Definition states_get (k : value) (m : gmap string DeviceState)
  : result (option DeviceState) :=
  match k with
  | VStr s => Ok (m !! s)
  | VList _ | VDict _ => Raise (unhashable k)
  | _ => Ok None
  end.

Module DeviceStateCondition.

Record t : Type :=
  { device_id : value; operator : value; attribute : value; value_ : value }.

(** [__init__(self, device_id, condition)] *)
Definition init (device_id condition : value) : result t :=
  match condition with
  | VDict c =>
      Ok {| device_id := device_id;
            operator := default (VStr "eq") (dict_get "operator" c);
            attribute := default (VStr "state") (dict_get "attribute" c);
            value_ := default VNone (dict_get "value" c) |}
  | _ => Raise (no_attribute condition "get")
  end.

Definition _compare (actual expected operator : value) : result bool :=
  if py_eq operator (VStr "eq") then Ok (py_eq actual expected)
  else if py_eq operator (VStr "ne") then Ok (negb (py_eq actual expected))
  else if py_eq operator (VStr "gt") then py_order OGt actual expected
  else if py_eq operator (VStr "ge") then py_order OGe actual expected
  else if py_eq operator (VStr "lt") then py_order OLt actual expected
  else if py_eq operator (VStr "le") then py_order OLe actual expected
  else Ok false.

(** The value the condition compares: the [state] field for the
    attribute ["state"], else [attributes.get(attribute)]. *)
Definition actual_value (self : t) (device_state : DeviceState) : result value :=
  if py_eq (attribute self) (VStr "state")
  then Ok (VStr (state device_state))
  else py_get (attribute self) (attributes device_state).

Definition evaluate_now (self : t) (context : EvaluationContext) : result bool :=
  match states_get (device_id self) (device_states context) with
  | Raise f => Raise f
  | Ok None => Ok false
  | Ok (Some device_state) =>
      match actual_value self device_state with
      | Raise f => Raise f
      | Ok VNone => Ok false
      | Ok actual => _compare actual (value_ self) (operator self)
      end
  end.

Definition evaluate (self : t) (context : EvaluationContext) : M bool :=
  lift (evaluate_now self context).

End DeviceStateCondition.

Module TimeRangeCondition.

Record t : Type := { start : time; end_ : time }.

(** [__init__(self, start, end)] *)
Definition init (start end_ : value) : result t :=
  match strptime_hm start with
  | Raise f => Raise f
  | Ok s => match strptime_hm end_ with
            | Raise f => Raise f
            | Ok e => Ok {| start := s; end_ := e |}
            end
  end.

(** The test on a reading [now] of the clock. *)
Definition holds_at (self : t) (now : time) : bool :=
  if time_le (start self) (end_ self)
  then time_le (start self) now && time_le now (end_ self)
  else time_ge now (start self) || time_le now (end_ self).

Definition evaluate (self : t) (context : EvaluationContext) : M bool :=
  now <- datetime_now ;; ret (holds_at self now).

End TimeRangeCondition.

(** The instances of the abstract class [Condition] the factory builds. *)
Inductive Condition : Type :=
| CDeviceState (c : DeviceStateCondition.t)
| CTimeRange (c : TimeRangeCondition.t).

Definition Condition_evaluate (c : Condition) (context : EvaluationContext) : M bool :=
  match c with
  | CDeviceState c => DeviceStateCondition.evaluate c context
  | CTimeRange c => TimeRangeCondition.evaluate c context
  end.

Module ConditionFactory.

(** The type tags of [_registry]. *)
Definition _registry : list string := ["device_state"; "time_range"].

Definition registered (cond_type : string) : bool :=
  bool_decide (cond_type ∈ _registry).

Definition create (condition_data : value) : result Condition :=
  match condition_data with
  | VDict d =>
      let cond_type := default VNone (dict_get "type" d) in
      if negb (hashable cond_type) then Raise (unhashable cond_type)
      else
        match cond_type with
        | VStr tag =>
            if registered tag then
              if String.eqb tag "device_state" then
                match subscript d "device_id" with
                | Raise f => Raise f
                | Ok device_id =>
                    match subscript d "condition" with
                    | Raise f => Raise f
                    | Ok condition =>
                        match DeviceStateCondition.init device_id condition with
                        | Raise f => Raise f
                        | Ok c => Ok (CDeviceState c)
                        end
                    end
                end
              else if String.eqb tag "time_range" then
                match subscript d "start" with
                | Raise f => Raise f
                | Ok start =>
                    match subscript d "end" with
                    | Raise f => Raise f
                    | Ok end_ =>
                        match TimeRangeCondition.init start end_ with
                        | Raise f => Raise f
                        | Ok c => Ok (CTimeRange c)
                        end
                    end
                end
              else Raise (Fault ValueError
                            ("Cannot create condition for type: " +:+ tag))
            else Raise (Fault ValueError ("Unknown condition type: " +:+ tag))
        | _ => Raise (Fault ValueError
                        ("Unknown condition type: " +:+ py_str cond_type))
        end
  | _ => Raise (no_attribute condition_data "get")
  end.

End ConditionFactory.

Module ConditionGroup.

Record t : Type := { operator : string; conditions : value }.

(** [__init__(self, operator, items)] *)
Definition init (operator items : value) : result t :=
  match operator with
  | VStr s => Ok {| operator := lower s; conditions := items |}
  | _ => Raise (no_attribute operator "lower")
  end.

(** One turn of the loop: build the child and evaluate it. *)
Definition evaluate_child (context : EvaluationContext) (cond_data : value) : M bool :=
  condition <- lift (ConditionFactory.create cond_data) ;;
  Condition_evaluate condition context.

(** [all(results)] and [any(results)] *)
Definition all (results : list bool) : bool := forallb id results.
Definition any (results : list bool) : bool := existsb id results.

Definition combine (operator : string) (results : list bool) : bool :=
  if String.eqb operator "and" then all results
  else if String.eqb operator "or" then any results
  else false.

Definition evaluate (self : t) (context : EvaluationContext) : M bool :=
  items <- lift (py_iter (conditions self)) ;;
  results <- for_each (evaluate_child context) items ;;
  ret (combine (operator self) results).

End ConditionGroup.

Module ConditionEvaluator.

(** [evaluate(self, condition_data, context)] on [None] or a dict. *)
Definition evaluate (condition_data : option dict) (context : EvaluationContext)
  : M bool :=
  match condition_data with
  | None | Some [] => ret true
  | Some d =>
      if dict_has "operator" d && dict_has "items" d then
        operator <- lift (subscript d "operator") ;;
        items <- lift (subscript d "items") ;;
        group <- lift (ConditionGroup.init operator items) ;;
        ConditionGroup.evaluate group context
      else
        condition <- lift (ConditionFactory.create (VDict d)) ;;
        Condition_evaluate condition context
  end.

End ConditionEvaluator.

(** ** Scene entities (domain/entities/scene.py)

    The pydantic models.  Validation is pydantic's (version 2, default
    configuration: keys a model does not declare are ignored, every
    violation is collected), embedded here for the field types the models
    declare: [List[Dict[str, Any]]], [Literal["and", "or"]] and
    [Optional[ConditionGroup]]. *)

Module scene.

(** [Literal["and", "or"]] *)
Inductive group_operator : Type := OpAnd | OpOr.

Definition operator_str (o : group_operator) : string :=
  match o with OpAnd => "and" | OpOr => "or" end.

Record ConditionGroup : Type :=
  { operator : group_operator; items : list dict }.

Record SceneDefinition : Type :=
  { triggers : list dict;
    conditions : option ConditionGroup;
    actions : list dict }.

Record Scene : Type :=
  { id : string;
    name : string;
    description : option string;
    definition : SceneDefinition;
    is_active : bool;
    created_at : nat }.

(** [ConditionGroup.model_dump()] *)
Definition model_dump (g : ConditionGroup) : dict :=
  [("operator", VStr (operator_str (operator g)));
   ("items", VList (map VDict (items g)))].

(** One line of a [ValidationError]: where, which rule, and the input
    the rule was applied to; for a missing field that is the whole dict
    the field is missing from. *)
Inductive error_type : Type :=
| missing | list_type | dict_type | literal_error | model_type.

Record ErrorDetails : Type :=
  { loc : list value; type_ : error_type; input : value }.

Definition validation (A : Type) : Type := (list ErrorDetails + A)%type.

(** [Dict[str, Any]] at position [i] of a list field. *)
Definition validate_dict (at_ : list value) (v : value) : validation dict :=
  match v with
  | VDict d => inr d
  | _ => inl [ {| loc := at_; type_ := dict_type; input := v |} ]
  end.

(** The items of a list field from position [i] on; the errors of all
    items are collected. *)
Fixpoint validate_items (at_ : list value) (i : nat) (xs : list value)
  : validation (list dict) :=
  match xs with
  | [] => inr []
  | x :: r =>
      match validate_dict (at_ ++ [VInt (Z.of_nat i)])%list x, validate_items at_ (S i) r with
      | inr d, inr ds => inr (d :: ds)
      | inl e, inr _ => inl e
      | inr _, inl es => inl es
      | inl e, inl es => inl (e ++ es)%list
      end
  end.

(** [List[Dict[str, Any]]] *)
Definition validate_dict_list (at_ : list value) (v : value) : validation (list dict) :=
  match v with
  | VList xs => validate_items at_ 0 xs
  | _ => inl [ {| loc := at_; type_ := list_type; input := v |} ]
  end.

(** [Literal["and", "or"]] *)
Definition validate_operator (at_ : list value) (v : value) : validation group_operator :=
  match v with
  | VStr s =>
      if String.eqb s "and" then inr OpAnd
      else if String.eqb s "or" then inr OpOr
      else inl [ {| loc := at_; type_ := literal_error; input := v |} ]
  | _ => inl [ {| loc := at_; type_ := literal_error; input := v |} ]
  end.

(** A required field of the model validated on [data]. *)
Definition required {A} (data : dict) (at_ : list value) (field : option value)
           (check : list value -> value -> validation A) : validation A :=
  match field with
  | Some v => check at_ v
  | None => inl [ {| loc := at_; type_ := missing; input := VDict data |} ]
  end.

Definition both {A B C} (f : A -> B -> C) (a : validation A) (b : validation B)
  : validation C :=
  match a, b with
  | inr x, inr y => inr (f x y)
  | inl e, inr _ => inl e
  | inr _, inl e => inl e
  | inl e, inl e' => inl (e ++ e')%list
  end.

(** The model [ConditionGroup]. *)
Definition validate_group (at_ : list value) (d : dict) : validation ConditionGroup :=
  both (fun o its => {| operator := o; items := its |})
       (required d (at_ ++ [VStr "operator"])%list (dict_get "operator" d)
                 validate_operator)
       (required d (at_ ++ [VStr "items"])%list (dict_get "items" d) validate_dict_list).

(** [Optional[ConditionGroup] = None] *)
Definition validate_conditions (at_ : list value) (field : option value)
  : validation (option ConditionGroup) :=
  match field with
  | None | Some VNone => inr None
  | Some (VDict d) =>
      match validate_group at_ d with
      | inr g => inr (Some g)
      | inl e => inl e
      end
  | Some v => inl [ {| loc := at_; type_ := model_type; input := v |} ]
  end.

(** The constructor of [SceneDefinition] on the keyword arguments [data]. *)
Definition SceneDefinition_validate (data : dict) : validation SceneDefinition :=
  both (fun tc a => {| triggers := fst tc; conditions := snd tc; actions := a |})
       (both pair
             (match dict_get "triggers" data with
              | Some v => validate_dict_list [VStr "triggers"] v
              | None => inr []
              end)
             (validate_conditions [VStr "conditions"] (dict_get "conditions" data)))
       (required data [VStr "actions"] (dict_get "actions" data) validate_dict_list).

End scene.

(** ** The definition parser (domain/scene_engine/parser.py) *)

Module SceneParser.

Section parse.

(** [str(e)] of pydantic's [ValidationError]: the library's report of
    the collected errors, which prints for each its place, its rule and
    the input it was found on. *)
Variable validation_text : list scene.ErrorDetails -> string.

(** The constructor call of [parse], which unpacks [definition_data]
    into keyword arguments: the unpacked object must be a mapping. *)
Definition construct (definition_data : value) : result scene.SceneDefinition :=
  match definition_data with
  | VDict d =>
      match scene.SceneDefinition_validate d with
      | inr def => Ok def
      | inl errors => Raise (Fault ValidationError (validation_text errors))
      end
  | _ => Raise (Fault TypeError
                  ("domain.entities.scene.SceneDefinition() argument after ** must be a mapping, not "
                   +:+ type_name definition_data))
  end.

Definition parse (definition_data : value) : result scene.SceneDefinition :=
  match construct definition_data with
  | Ok def => Ok def
  | Raise e =>
      if decide (exc_class e = ValidationError)
      then Raise (Fault SceneDefinitionError
                    ("Invalid scene definition: " +:+ exc_msg e))
      else Raise e
  end.

End parse.

Definition validate_trigger (trigger : dict) : bool :=
  match dict_get "type" trigger with
  | None => false
  | Some trigger_type =>
      if py_eq trigger_type (VStr "device_state")
      then dict_has "device_id" trigger && dict_has "condition" trigger
      else if py_eq trigger_type (VStr "time") then dict_has "cron" trigger
      else if py_eq trigger_type (VStr "manual") then true
      else false
  end.

Definition validate_action (action : dict) : bool :=
  match dict_get "type" action with
  | None => false
  | Some action_type =>
      if py_eq action_type (VStr "device_control")
      then dict_has "device_id" action && dict_has "command" action
      else if py_eq action_type (VStr "delay") then dict_has "seconds" action
      else false
  end.

End SceneParser.

(** ** The scheduler (domain/scene_engine/scheduler.py)

    [SceneScheduler] wraps APScheduler's [AsyncIOScheduler] with one
    in-memory job store.  The library is embedded as its documented
    behaviour: a job store keyed by job id; [add_job] with
    [replace_existing=True] queues the job while the scheduler is stopped
    and installs it, replacing a job of the same id, once it runs;
    [remove_job] raises [JobLookupError] for an id it does not hold;
    [start] installs the queued jobs in order; [shutdown] empties the
    in-memory store. *)

(** [s.split()]: the words between runs of whitespace. *)
Definition is_space (c : ascii) : bool :=
  let n := nat_of_ascii c in
  (Nat.leb 9 n && Nat.leb n 13) || (Nat.leb 28 n && Nat.leb n 32).

Fixpoint split_from (s word : string) : list string :=
  match s with
  | EmptyString => if String.eqb word "" then [] else [word]
  | String c r =>
      if is_space c
      then if String.eqb word "" then split_from r "" else word :: split_from r ""
      else split_from r (word +:+ String c "")
  end.

Definition split (s : string) : list string := split_from s "".

Module SceneScheduler.

Section scheduler.

(** The callables the service registers. *)
Context {Callback : Type}.

(** Whether [CronTrigger] accepts the five field expressions
    (APScheduler's field grammar); it raises [ValueError] otherwise. *)
Variable cron_fields_ok : list string -> bool.

(** A [CronTrigger] in the fixed timezone, by its five fields. *)
Record CronTrigger : Type :=
  { cron_minute : string; cron_hour : string; cron_day : string;
    cron_month : string; cron_day_of_week : string }.

Record Job : Type :=
  { job_id : string; job_func : Callback; job_trigger : CronTrigger;
    job_args : scene.Scene }.

(** - [running], [_pending_jobs], [jobstore]: the state of
      [self.scheduler];
    - [_job_map]: scene id to job id. *)
Record t : Type :=
  { running : bool;
    _pending_jobs : list Job;
    jobstore : gmap string Job;
    _job_map : gmap string string }.

(** [SceneScheduler()] *)
Definition init : t :=
  {| running := false; _pending_jobs := []; jobstore := ∅; _job_map := ∅ |}.

Definition install (store : gmap string Job) (j : Job) : gmap string Job :=
  <[job_id j := j]> store.

(** [scheduler.add_job(..., id=..., replace_existing=True)] *)
Definition add_job (j : Job) (self : t) : t :=
  if running self
  then {| running := true; _pending_jobs := _pending_jobs self;
          jobstore := install (jobstore self) j; _job_map := _job_map self |}
  else {| running := false; _pending_jobs := _pending_jobs self ++ [j];
          jobstore := jobstore self; _job_map := _job_map self |}.

(** The queue without its first job of the given id. *)
Fixpoint remove_pending (id : string) (js : list Job) : option (list Job) :=
  match js with
  | [] => None
  | j :: r =>
      if String.eqb (job_id j) id then Some r
      else match remove_pending id r with
           | Some r' => Some (j :: r')
           | None => None
           end
  end.

(** [scheduler.remove_job(job_id)] *)
Definition remove_job (id : string) (self : t) : result t :=
  let missing := Fault JobLookupError ("No job by the id of " +:+ id +:+ " was found") in
  if running self
  then match jobstore self !! id with
       | Some _ =>
           Ok {| running := true; _pending_jobs := _pending_jobs self;
                 jobstore := delete id (jobstore self); _job_map := _job_map self |}
       | None => Raise missing
       end
  else match remove_pending id (_pending_jobs self) with
       | Some js =>
           Ok {| running := false; _pending_jobs := js;
                 jobstore := jobstore self; _job_map := _job_map self |}
       | None => Raise missing
       end.

(** [start(self)] *)
Definition start (self : t) : t :=
  if running self then self
  else {| running := true; _pending_jobs := [];
          jobstore := foldl install (jobstore self) (_pending_jobs self);
          _job_map := _job_map self |}.

(** [shutdown(self)] *)
Definition shutdown (self : t) : t :=
  if running self
  then {| running := false; _pending_jobs := _pending_jobs self;
          jobstore := ∅; _job_map := _job_map self |}
  else self.

(** The schedules that fire: the job store of the running scheduler
    (for a stopped one, the store [start] will build). *)
Definition active_jobs (self : t) : gmap string Job := jobstore (start self).

(** [unregister_scene(self, scene_id)] *)
Definition unregister_scene (scene_id : string) (self : t) : t :=
  match _job_map self !! scene_id with
  | Some id =>
      if String.eqb id "" then self
      else match remove_job id self with
           | Ok self' =>
               {| running := running self'; _pending_jobs := _pending_jobs self';
                  jobstore := jobstore self';
                  _job_map := delete scene_id (_job_map self') |}
           | Raise _ => self
           end
  | None => self
  end.

(** [_add_cron_job(self, scene_id, cron_expr, callback, scene)]; every
    exception inside is caught and reported. *)
Definition _add_cron_job (scene_id : string) (cron_expr : value)
           (callback : Callback) (sc : scene.Scene) (self : t) : t :=
  match cron_expr with
  | VStr expr =>
      match split expr with
      | [minute; hour; day; month; day_of_week] =>
          if cron_fields_ok [minute; hour; day; month; day_of_week]
          then
            let job :=
              {| job_id := "scene_" +:+ scene_id;
                 job_func := callback;
                 job_trigger :=
                   {| cron_minute := minute; cron_hour := hour; cron_day := day;
                      cron_month := month; cron_day_of_week := day_of_week |};
                 job_args := sc |} in
            let self' := add_job job self in
            {| running := running self'; _pending_jobs := _pending_jobs self';
               jobstore := jobstore self';
               _job_map := <[scene_id := job_id job]> (_job_map self') |}
          else self
      | _ => self
      end
  | _ => self
  end.

(** The body of the loop of [register_scene] for one trigger. *)
Definition register_trigger (sc : scene.Scene) (callback : Callback)
           (self : t) (trigger : dict) : t :=
  if py_eq (default VNone (dict_get "type" trigger)) (VStr "time")
  then
    let cron_expr := default VNone (dict_get "cron" trigger) in
    if truthy cron_expr
    then _add_cron_job (scene.id sc) cron_expr callback sc self
    else self
  else self.

(** [register_scene(self, scene, callback)] *)
Definition register_scene (sc : scene.Scene) (callback : Callback) (self : t) : t :=
  foldl (register_trigger sc callback)
        (unregister_scene (scene.id sc) self)
        (scene.triggers (scene.definition sc)).

(** [get_scheduled_scenes(self)] *)
Definition get_scheduled_scenes (self : t) : list string :=
  map fst (map_to_list (_job_map self)).

(** The time triggers of a scene whose expression [_add_cron_job]
    schedules. *)
Definition valid_cron (cron_expr : value) : bool :=
  match cron_expr with
  | VStr expr => let parts := split expr in
                 Nat.eqb (length parts) 5 && cron_fields_ok parts
  | _ => false
  end.

Definition valid_time_triggers (sc : scene.Scene) : list dict :=
  filter (fun trigger : dict =>
            py_eq (default VNone (dict_get "type" trigger)) (VStr "time") = true /\
            valid_cron (default VNone (dict_get "cron" trigger)) = true)
         (scene.triggers (scene.definition sc)).

End scheduler.

End SceneScheduler.

(** ** The executor (domain/scene_engine/executor.py) *)

Module ExecutionResult.

Record t : Type :=
  { status : string; scene_id : string; message : option string;
    executed_at : time }.

(** [ExecutionResult(status, scene_id, message)]: [executed_at] is read
    from the clock. *)
Definition init (status scene_id : string) (message : option string) : M t :=
  now <- datetime_now ;;
  ret {| status := status; scene_id := scene_id; message := message;
         executed_at := now |}.

End ExecutionResult.

(** [SceneExecutionError(scene_id, reason)] *)
Definition scene_execution_error (scene_id reason : string) : fault :=
  Fault SceneExecutionError
    ("Scene execution failed: " +:+ scene_id +:+ ", reason: " +:+ reason).

Module SceneExecutor.

(** [device_ids.add(v)] on a set kept in insertion order. The order a
    Python set iterates in is unspecified; [_prepare_context] only reads
    the state store with it, so the context it builds does not depend on
    the order. *)
Definition set_add (v : value) (s : list value) : result (list value) :=
  if hashable v
  then Ok (if existsb (py_eq v) s then s else (s ++ [v])%list)
  else Raise (unhashable v).

(** One of the three loops of [_extract_device_ids]: the items of the
    given type tag contribute their ["device_id"]. *)
Fixpoint collect_ids (tag : string) (items : list dict) (ids : list value)
  : result (list value) :=
  match items with
  | [] => Ok ids
  | item :: r =>
      if py_eq (default VNone (dict_get "type" item)) (VStr tag)
      then match subscript item "device_id" with
           | Raise f => Raise f
           | Ok device_id =>
               match set_add device_id ids with
               | Raise f => Raise f
               | Ok ids' => collect_ids tag r ids'
               end
           end
      else collect_ids tag r ids
  end.

Definition _extract_device_ids (sc : scene.Scene) : result (list value) :=
  let def := scene.definition sc in
  match collect_ids "device_state" (scene.triggers def) [] with
  | Raise f => Raise f
  | Ok ids =>
      match match scene.conditions def with
            | Some g => collect_ids "device_state" (scene.items g) ids
            | None => Ok ids
            end with
      | Raise f => Raise f
      | Ok ids' => collect_ids "device_control" (scene.actions def) ids'
      end
  end.

(** The loop of [_prepare_context] over the device ids. *)
Fixpoint read_states (device_ids : list value) (states : gmap string DeviceState)
  : M (gmap string DeviceState) :=
  match device_ids with
  | [] => ret states
  | device_id :: r =>
      st <- get_state device_id ;;
      read_states r
        (match device_id, st with
         | VStr s, Some st => <[s := st]> states
         | _, _ => states
         end)
  end.

Definition _prepare_context (sc : scene.Scene) : M EvaluationContext :=
  device_ids <- lift (_extract_device_ids sc) ;;
  states <- read_states device_ids ∅ ;;
  now <- datetime_now ;;
  ret {| device_states := states; scene_id := scene.id sc; current_time := now |}.

Definition _execute_device_control (action : dict) : M unit :=
  device_id <- lift (subscript action "device_id") ;;
  command <- lift (subscript action "command") ;;
  try_except
    (control_device device_id command ;;; ret tt)
    (fun e => raise (scene_execution_error "device_control"
                       ("Failed to control device " +:+ py_str device_id
                        +:+ ": " +:+ exc_msg e))).

Definition _execute_delay (action : dict) : M unit :=
  asyncio_sleep (default (VInt 0) (dict_get "seconds" action)).

Definition _execute_action (action : dict) : M unit :=
  let action_type := default VNone (dict_get "type" action) in
  if py_eq action_type (VStr "device_control") then _execute_device_control action
  else if py_eq action_type (VStr "delay") then _execute_delay action
  else raise (scene_execution_error "unknown"
                ("Unknown action type: " +:+ py_str action_type)).

(** The body of the [try] block of [execute_scene]. *)
Definition run_scene (sc : scene.Scene) : M ExecutionResult.t :=
  context <- _prepare_context sc ;;
  condition_met <-
    ConditionEvaluator.evaluate
      (option_map scene.model_dump (scene.conditions (scene.definition sc)))
      context ;;
  if negb condition_met
  then ExecutionResult.init "skipped" (scene.id sc) (Some "Conditions not met")
  else
    for_each _execute_action (scene.actions (scene.definition sc)) ;;;
    ExecutionResult.init "success" (scene.id sc)
      (Some ("Executed "
             +:+ pretty (length (scene.actions (scene.definition sc)))
             +:+ " actions")).

Definition execute_scene (sc : scene.Scene) (triggered_by : string)
  : M ExecutionResult.t :=
  try_except (run_scene sc)
    (fun e => ExecutionResult.init "failed" (scene.id sc) (Some (exc_msg e))).

End SceneExecutor.

(** ** The event bus (application/event_bus.py)

    [publish] runs inside an asyncio event loop.  The loop is embedded as
    the queue of the tasks [asyncio.create_task] has scheduled and the
    record of the handler calls that have begun: a task starts only when
    the loop takes it from the queue. *)

Module EventBus.

Section bus.

(** The callables subscribed to the bus. *)
Context {Handler : Type} `{EqDecision Handler}.

(** [asyncio.iscoroutinefunction] *)
Variable iscoroutinefunction : Handler -> bool.

Record t : Type := { _handlers : gmap string (list Handler) }.

Definition init : t := {| _handlers := ∅ |}.

Definition subscribe (event_type : string) (handler : Handler) (self : t) : t :=
  {| _handlers :=
       <[event_type := (default [] (_handlers self !! event_type) ++ [handler])%list]>
         (_handlers self) |}.

(** [list.remove]: the list without the first occurrence. *)
Fixpoint list_remove (h : Handler) (hs : list Handler) : list Handler :=
  match hs with
  | [] => []
  | x :: r => if decide (x = h) then r else x :: list_remove h r
  end.

Definition unsubscribe (event_type : string) (handler : Handler) (self : t) : t :=
  match _handlers self !! event_type with
  | Some hs => {| _handlers := <[event_type := list_remove handler hs]> (_handlers self) |}
  | None => self
  end.

(** What a task runs: the coroutine [handler(data)], or
    [asyncio.to_thread(handler, data)] for a synchronous handler. *)
Inductive task : Type :=
| Coroutine (handler : Handler) (data : value)
| ToThread (handler : Handler) (data : value).

Definition task_handler (k : task) : Handler :=
  match k with Coroutine h _ | ToThread h _ => h end.

(** - [scheduled]: the tasks created and not yet started, oldest first;
    - [begun]: the handler calls that have started, oldest first. *)
Record event_loop : Type :=
  { scheduled : list task; begun : list (Handler * value) }.

(** [asyncio.create_task(k)] *)
Definition create_task (k : task) (lp : event_loop) : event_loop :=
  {| scheduled := (scheduled lp ++ [k])%list; begun := begun lp |}.

(** The task [publish] creates for one handler. *)
Definition task_for (data : value) (handler : Handler) : task :=
  if iscoroutinefunction handler then Coroutine handler data
  else ToThread handler data.

(** [publish(self, event_type, data)]; the body holds no [await]. *)
Definition publish (self : t) (event_type : string) (data : value)
           (lp : event_loop) : event_loop :=
  foldl (fun lp handler => create_task (task_for data handler) lp)
        lp (default [] (_handlers self !! event_type)).



Definition get_event_types (self : t) : list string :=
  map fst (map_to_list (_handlers self)).

Definition get_handler_count (self : t) (event_type : string) : nat :=
  length (default [] (_handlers self !! event_type)).

End bus.

End EventBus.

(** ** Sample data *)

(** A world with an empty state store, a HAL that accepts every command, a
    clock that reads [now] and no cancellation. *)
Definition world_at (now : time) : world :=
  World ∅ (fun _ => now) 0 (fun _ _ _ => Ok (VBool true)) [] (fun _ => None).

Definition sample_context : EvaluationContext :=
  {| device_states := ∅; scene_id := "scene_001"; current_time := Time 0 0 0 0 |}.

(** [TimeRangeCondition("22:00", "06:00")] *)
Definition night_range : TimeRangeCondition.t :=
  {| TimeRangeCondition.start := Time 22 0 0 0;
     TimeRangeCondition.end_ := Time 6 0 0 0 |}.

(** The operators [_compare] tests for. *)
Definition known_operators : list string := ["eq"; "ne"; "gt"; "ge"; "lt"; "le"].

(** The cached state [{state: "closed"}] of the door sensor [d1]. *)
Definition closed_door : DeviceState :=
  {| state := "closed"; attributes := []; last_updated := 0 |}.

Definition closed_door_context : EvaluationContext :=
  {| device_states := {["d1" := closed_door]}; scene_id := "scene_001";
     current_time := Time 0 0 0 0 |}.

(** Leaves on the device [d1]: state equal to ["open"]; brightness below
    50; state under an operator [_compare] does not know. *)
Definition door_is_open : DeviceStateCondition.t :=
  {| DeviceStateCondition.device_id := VStr "d1";
     DeviceStateCondition.operator := VStr "eq";
     DeviceStateCondition.attribute := VStr "state";
     DeviceStateCondition.value_ := VStr "open" |}.

Definition dim_light : DeviceStateCondition.t :=
  {| DeviceStateCondition.device_id := VStr "d1";
     DeviceStateCondition.operator := VStr "lt";
     DeviceStateCondition.attribute := VStr "brightness";
     DeviceStateCondition.value_ := VInt 50 |}.

Definition door_matches : DeviceStateCondition.t :=
  {| DeviceStateCondition.device_id := VStr "d1";
     DeviceStateCondition.operator := VStr "matches";
     DeviceStateCondition.attribute := VStr "state";
     DeviceStateCondition.value_ := VStr "open" |}.

(** ** Auxiliary predicates *)

(** Two worlds that differ at most in the number of clock readings taken:
    same state store, same HAL, same effects, same clock, same
    cancellations. *)
Definition only_clock_read (w w' : world) : Prop :=
  w_states w' = w_states w /\ w_trace w' = w_trace w /\
  w_hal w' = w_hal w /\ w_clock w' = w_clock w /\ w_cancel w' = w_cancel w.

(** A group holding a group: [{and, [{and, []}]}]. *)
Definition nested_group : ConditionGroup.t :=
  {| ConditionGroup.operator := "and";
     ConditionGroup.conditions :=
       VList [VDict [("operator", VStr "and"); ("items", VList [])]] |}.

(** The world after one more reading of the clock. *)
Definition ticked (w : world) : world :=
  World (w_states w) (w_clock w) (S (w_tick w)) (w_hal w) (w_trace w) (w_cancel w).

(** Two leaves: the door [d1] is open; the time is between 22:00 and
    06:00. *)
Definition two_leaves : list value :=
  [VDict [("type", VStr "device_state"); ("device_id", VStr "d1");
          ("condition", VDict [("operator", VStr "eq"); ("attribute", VStr "state");
                               ("value", VStr "open")])];
   VDict [("type", VStr "time_range"); ("start", VStr "22:00"); ("end", VStr "06:00")]].

(** A computation that only reads the clock. *)
Definition reads_clock {A} (c : M A) : Prop :=
  forall w, only_clock_read w (snd (c w)).

(** What [SceneDefinition] asks of its keyword arguments: [triggers], if
    given, and [actions] are lists of dicts; [conditions], if given and not
    [None], is a dict whose [operator] is ["and"] or ["or"] and whose
    [items] is a list of dicts. *)
Definition is_dict (v : value) : bool :=
  match v with VDict _ => true | _ => false end.

Definition is_dict_list (v : value) : bool :=
  match v with VList xs => forallb is_dict xs | _ => false end.

Definition is_group (v : value) : bool :=
  match v with
  | VNone => true
  | VDict d =>
      match dict_get "operator" d with
      | Some (VStr s) => String.eqb s "and" || String.eqb s "or"
      | _ => false
      end &&
      match dict_get "items" d with
      | Some its => is_dict_list its
      | None => false
      end
  | _ => false
  end.

Definition well_shaped (data : dict) : bool :=
  match dict_get "triggers" data with Some v => is_dict_list v | None => true end &&
  match dict_get "conditions" data with Some v => is_group v | None => true end &&
  match dict_get "actions" data with Some v => is_dict_list v | None => false end.

(** A definition whose only action is the empty dict. *)
Definition untagged_action : value := VDict [("actions", VList [VDict []])].

(** A definition none of whose items has a type tag: a trigger, a
    condition item and an action. *)
Definition untagged_items : value :=
  VDict [("triggers", VList [VDict []]);
         ("conditions", VDict [("operator", VStr "or"); ("items", VList [VDict []])]);
         ("actions", VList [VDict [("seconds", VInt 1)]])].

(** A definition whose only action is a delay of minus five seconds. *)
Definition negative_delay : value :=
  VDict [("actions", VList [VDict [("type", VStr "delay"); ("seconds", VInt (-5))]])].

(** A world that a later one extends: same state store, HAL, clock and
    cancellations, and the effects of the later one begin with those of
    the earlier one. *)
Definition extends (w w' : world) : Prop :=
  w_states w' = w_states w /\ w_hal w' = w_hal w /\ w_clock w' = w_clock w /\
  w_cancel w' = w_cancel w /\
  exists effects : list effect, w_trace w' = (w_trace w ++ effects)%list.

(** A computation that leaves the state store, the HAL and the clock as
    they are and only adds effects. *)
Definition adds_effects {A} (c : M A) : Prop :=
  forall w, extends w (snd (c w)).

(** A result, and a computation, whose faults all derive from
    [Exception]. *)
Definition exceptions_only {A} (r : result A) : Prop :=
  forall f, r = Raise f -> is_Exception (exc_class f) = true.

Definition raises_exceptions {A} (c : M A) : Prop :=
  forall w f w', c w = (Raise f, w') -> is_Exception (exc_class f) = true.

(** A world in which the task is never cancelled: no [cancel] reaches it
    while it sleeps, and what the HAL call raises derives from
    [Exception]. *)
Definition uncancelled (w : world) : Prop :=
  (forall history, w_cancel w history = None) /\
  (forall history device_id command e,
      w_hal w history device_id command = Raise e ->
      is_Exception (exc_class e) = true).

(** The scene of the design: when the door [d1] is open, switch three
    lights on, one after the other. *)
Definition light_on (device_id : string) : dict :=
  [("type", VStr "device_control"); ("device_id", VStr device_id);
   ("command", VDict [("state", VStr "on")])].

Definition door_scene : scene.Scene :=
  {| scene.id := "scene_001";
     scene.name := "welcome";
     scene.description := None;
     scene.definition :=
       {| scene.triggers := [];
          scene.conditions :=
            Some {| scene.operator := scene.OpAnd;
                    scene.items :=
                      [[("type", VStr "device_state"); ("device_id", VStr "d1");
                        ("condition",
                         VDict [("operator", VStr "eq"); ("attribute", VStr "state");
                                ("value", VStr "open")])]] |};
          scene.actions := [light_on "light_01"; light_on "light_02"; light_on "light_03"] |};
     scene.is_active := true;
     scene.created_at := 0 |}.

(** A HAL that cannot reach [light_02]. *)
Definition hal_without_light_02 (history : list effect) (device_id command : value)
  : result value :=
  if py_eq device_id (VStr "light_02")
  then Raise (Fault HALCommunicationError "Failed to connect to HAL: timed out")
  else Ok (VBool true).

(** The world in which the door [d1] is cached with the given state; the
    task is not cancelled. *)
Definition door_world (door_state : string) : world :=
  World {["d1" := {| state := door_state; attributes := []; last_updated := 0 |}]}
        (fun _ => Time 12 0 0 0) 0 hal_without_light_02 [] (fun _ => None).

(** A scene with one condition and no action. *)
Definition scene_with_condition (condition : dict) : scene.Scene :=
  {| scene.id := "scene_002";
     scene.name := "probe";
     scene.description := None;
     scene.definition :=
       {| scene.triggers := [];
          scene.conditions :=
            Some {| scene.operator := scene.OpAnd; scene.items := [condition] |};
          scene.actions := [] |};
     scene.is_active := true;
     scene.created_at := 0 |}.

(** A condition whose type tag is not registered, and one that compares
    the state of [d1], a string, with a number. *)
Definition unknown_condition : dict := [("type", VStr "weather")].

Definition incomparable_condition : dict :=
  [("type", VStr "device_state"); ("device_id", VStr "d1");
   ("condition", VDict [("operator", VStr "lt"); ("attribute", VStr "state");
                        ("value", VInt 50)])].

(** A scene with two time triggers, 08:00 and 18:00 every day. *)
Definition time_trigger (cron : string) : dict :=
  [("type", VStr "time"); ("cron", VStr cron)].

Definition two_alarm_scene : scene.Scene :=
  {| scene.id := "scene_003";
     scene.name := "alarms";
     scene.description := None;
     scene.definition :=
       {| scene.triggers := [time_trigger "0 8 * * *"; time_trigger "0 18 * * *"];
          scene.conditions := None;
          scene.actions := [] |};
     scene.is_active := true;
     scene.created_at := 0 |}.

(** A [CronTrigger] that accepts every field; callbacks by name. *)
Definition any_fields (fields : list string) : bool := true.

Definition new_scheduler : SceneScheduler.t (Callback := string) := SceneScheduler.init.

(** ** The jobs a registration leaves *)

Section scheduler_jobs.

Context {Callback : Type}.
Variable cron_fields_ok : list string -> bool.

#[local] Abbreviation sched := (SceneScheduler.t (Callback := Callback)).
#[local] Abbreviation job := (SceneScheduler.Job (Callback := Callback)).

(** The state after [_add_cron_job] has scheduled [j] for the scene. *)
Definition put (scene_id : string) (j : job) (s : sched) : sched :=
  {| SceneScheduler.running := true;
     SceneScheduler._pending_jobs := SceneScheduler._pending_jobs s;
     SceneScheduler.jobstore := <[SceneScheduler.job_id j := j]> (SceneScheduler.jobstore s);
     SceneScheduler._job_map :=
       <[scene_id := SceneScheduler.job_id j]> (SceneScheduler._job_map s) |}.

(** The job the loop of [register_scene] leaves for a trigger, if any. *)
Definition job_of (sc : scene.Scene) (callback : Callback) (trigger : dict)
  : option job :=
  if py_eq (default VNone (dict_get "type" trigger)) (VStr "time")
  then match default VNone (dict_get "cron" trigger) with
       | VStr expr =>
           match split expr with
           | [minute; hour; day; month; day_of_week] =>
               if cron_fields_ok [minute; hour; day; month; day_of_week]
               then Some {| SceneScheduler.job_id := "scene_" +:+ scene.id sc;
                            SceneScheduler.job_func := callback;
                            SceneScheduler.job_trigger :=
                              {| SceneScheduler.cron_minute := minute;
                                 SceneScheduler.cron_hour := hour;
                                 SceneScheduler.cron_day := day;
                                 SceneScheduler.cron_month := month;
                                 SceneScheduler.cron_day_of_week := day_of_week |};
                            SceneScheduler.job_args := sc |}
               else None
           | _ => None
           end
       | _ => None
       end
  else None.

(** The job of the last trigger that yields one, or [j0]. *)
Definition last_job_from sc callback (j0 : job) (triggers : list dict) : job :=
  foldl (fun acc trigger => default acc (job_of sc callback trigger)) j0 triggers.

Fixpoint last_job sc callback (triggers : list dict) : option job :=
  match triggers with
  | [] => None
  | trigger :: r =>
      match job_of sc callback trigger with
      | Some j => Some (last_job_from sc callback j r)
      | None => last_job sc callback r
      end
  end.

End scheduler_jobs.

(** ** Dict updates *)

(** [d[k] = v]: the value of an existing key is replaced in place, a new
    key goes to the end. *)
Fixpoint dict_set (k : string) (v : value) (d : dict) : dict :=
  match d with
  | [] => [(k, v)]
  | (k', v') :: r =>
      if String.eqb k k' then (k, v) :: r else (k', v') :: dict_set k v r
  end.

(** [d.update(other)] *)
Definition dict_update (d other : dict) : dict :=
  foldl (fun acc kv => dict_set (fst kv) (snd kv) acc) d other.

(** ** The state store (infrastructure/state_manager.py)

    [self._states], a dict from device id to the [DeviceState] object
    cached for it.  [set_state] and [update_state_attributes] write into
    the objects themselves, so the objects are embedded with their
    identity: a [DeviceState] object lives in the heap under a reference,
    and so does the dict object its [attributes] field refers to.  Two
    device ids may be cached with one object, and two objects may refer to
    one dict.  Every method runs under the lock of the store, which no
    method holds across a suspension, so its body is one step.  The
    methods that stamp a state take the reading [now] of [datetime.now()]
    they make. *)

Module StateManager.

(** The identity of an object. *)
Abbreviation ref := positive.

(** A [DeviceState] object: its fields, [attributes] as the reference of
    the dict object. *)
Record object : Type :=
  { o_state : string; o_attributes : ref; o_last_updated : nat }.

(** The [DeviceState] objects and the dict objects of the process. *)
Record heap : Type :=
  { objects : gmap ref object;
    dicts : gmap ref dict }.

(** [self._states] *)
Abbreviation t := (gmap string ref).

Inductive error : Type := StateManagerError (message : string).

(** What an object reads as: its fields, with the content of its
    attributes. *)
Definition read (h : heap) (o : ref) : option DeviceState :=
  match objects h !! o with
  | Some obj =>
      match dicts h !! o_attributes obj with
      | Some d => Some {| state := o_state obj; attributes := d;
                          last_updated := o_last_updated obj |}
      | None => None
      end
  | None => None
  end.

(** [StateManager()] *)
Definition init : t := ∅.

Definition get_state (device_id : string) (self : t) : option ref :=
  self !! device_id.

(** [state.last_updated = now] *)
Definition stamp (now : nat) (obj : object) : object :=
  {| o_state := o_state obj; o_attributes := o_attributes obj;
     o_last_updated := now |}.

(** [set_state(device_id, state)]: the object passed is stamped, then
    cached. *)
Definition set_state (now : nat) (device_id : string) (state_ : ref)
           (self : t) (h : heap) : t * heap :=
  (<[device_id := state_]> self,
   {| objects := alter (stamp now) state_ (objects h); dicts := dicts h |}).

(** [update_state_attributes(device_id, attributes)]: the dict of the
    cached object is updated in place and the object is stamped;
    [self._states] stays as it is. *)
Definition update_state_attributes (now : nat) (device_id : string)
           (attributes_ : dict) (self : t) (h : heap) : error + heap :=
  match self !! device_id with
  | Some o =>
      inr {| objects := alter (stamp now) o (objects h);
             dicts := match objects h !! o with
                      | Some obj =>
                          alter (fun d => dict_update d attributes_)
                                (o_attributes obj) (dicts h)
                      | None => dicts h
                      end |}
  | None => inl (StateManagerError ("Device state not found: " +:+ device_id))
  end.

Definition has_state (device_id : string) (self : t) : bool :=
  bool_decide (is_Some (self !! device_id)).

Definition remove_state (device_id : string) (self : t) : t :=
  match self !! device_id with
  | Some _ => delete device_id self
  | None => self
  end.

(** [get_all_states(self)]: a copy of the dict, with the same objects. *)
Definition get_all_states (self : t) : t := self.

Definition clear (self : t) : t := ∅.

Definition get_device_count (self : t) : nat := size self.

End StateManager.

(** ** What the actions of a scene do *)

(** The effect an action has when it runs: the command a [device_control]
    action sends, the suspension a [delay] takes; none for an action that
    raises before it acts. *)
Definition action_effect (action : dict) : option effect :=
  let action_type := default VNone (dict_get "type" action) in
  if py_eq action_type (VStr "device_control") then
    match dict_get "device_id" action, dict_get "command" action with
    | Some device_id, Some command => Some (EControl device_id command)
    | _, _ => None
    end
  else if py_eq action_type (VStr "delay") then
    match num (default (VInt 0) (dict_get "seconds" action)) with
    | Some z => if Z.leb float_overflow z then None else Some (ESleep z)
    | None => None
    end
  else None.

(** The items [_extract_device_ids] reads: the triggers and the top-level
    condition items of type [device_state], and the actions of type
    [device_control]. *)
Definition has_type (tag : string) (item : dict) : bool :=
  py_eq (default VNone (dict_get "type" item)) (VStr tag).

Definition device_items (sc : scene.Scene) : list dict :=
  let def := scene.definition sc in
  (List.filter (has_type "device_state") (scene.triggers def)
   ++ List.filter (has_type "device_state")
        (match scene.conditions def with Some g => scene.items g | None => [] end)
   ++ List.filter (has_type "device_control") (scene.actions def))%list.

(** ** Dumps of the scene models *)

(** [SceneDefinition.model_dump()] *)
Definition SceneDefinition_model_dump (def : scene.SceneDefinition) : dict :=
  [("triggers", VList (map VDict (scene.triggers def)));
   ("conditions", match scene.conditions def with
                  | Some g => VDict (scene.model_dump g)
                  | None => VNone
                  end);
   ("actions", VList (map VDict (scene.actions def)))].

(** ** Schedulers in step with their job map *)

Section scheduler_state.

Context {Callback : Type}.

(** A running scheduler whose job map and job store tell the same story:
    a listed scene maps to the job id ["scene_" + id], the scenes listed
    are those with a job in the store, and the store holds no other
    job. *)
Definition in_step (s : SceneScheduler.t (Callback := Callback)) : Prop :=
  SceneScheduler.running s = true /\
  (forall scene_id id,
      SceneScheduler._job_map s !! scene_id = Some id -> id = "scene_" +:+ scene_id) /\
  (forall scene_id,
      is_Some (SceneScheduler._job_map s !! scene_id) <->
      is_Some (SceneScheduler.jobstore s !! ("scene_" +:+ scene_id))) /\
  (forall id,
      is_Some (SceneScheduler.jobstore s !! id) ->
      exists scene_id, id = "scene_" +:+ scene_id).

End scheduler_state.

(** ** More sample data *)

(** A store with the closed door [d1] and the light [light_01], switched on
    in automatic mode at brightness 80: two objects, each with a dict of
    its own. *)
Definition two_devices : StateManager.t := {["d1" := 1%positive; "light_01" := 2%positive]}.

Definition two_objects : StateManager.heap :=
  {| StateManager.objects :=
       {[1%positive := {| StateManager.o_state := "closed";
                          StateManager.o_attributes := 3%positive;
                          StateManager.o_last_updated := 0 |};
         2%positive := {| StateManager.o_state := "on";
                          StateManager.o_attributes := 4%positive;
                          StateManager.o_last_updated := 0 |}]};
     StateManager.dicts :=
       {[3%positive := [];
         4%positive := [("brightness", VInt 80); ("mode", VStr "auto")]]} |}.

(** The same objects, the light cached a second time as [lamp]. *)
Definition light_cached_twice : StateManager.t := <["lamp" := 2%positive]> two_devices.

(** A bus, handlers by name: the scene events are logged and pushed to the
    clients; every handler but the logger is a coroutine function. *)
Definition sample_bus : EventBus.t (Handler := string) :=
  EventBus.subscribe "scene_triggered" "push_to_clients"
    (EventBus.subscribe "scene_triggered" "log_event" EventBus.init).

Definition is_coroutine (handler : string) : bool := negb (String.eqb handler "log_event").

Definition idle_loop : EventBus.event_loop (Handler := string) :=
  {| EventBus.scheduled := []; EventBus.begun := [] |}.

(** A scene that switches [light_01] on and then sends a command that
    names no device. *)
Definition unnamed_light_scene : scene.Scene :=
  {| scene.id := "scene_004";
     scene.name := "lights";
     scene.description := None;
     scene.definition :=
       {| scene.triggers := [];
          scene.conditions := None;
          scene.actions :=
            [light_on "light_01";
             [("type", VStr "device_control"); ("command", VDict [("state", VStr "on")])]] |};
     scene.is_active := true;
     scene.created_at := 0 |}.

(** A scene without conditions: switch [light_01] on, wait five seconds,
    switch [light_03] on. *)
Definition evening_scene : scene.Scene :=
  {| scene.id := "scene_005";
     scene.name := "evening";
     scene.description := None;
     scene.definition :=
       {| scene.triggers := [];
          scene.conditions := None;
          scene.actions :=
            [light_on "light_01";
             [("type", VStr "delay"); ("seconds", VInt 5)];
             light_on "light_03"] |};
     scene.is_active := true;
     scene.created_at := 0 |}.

(** The scheduler shuts down while the scene sleeps: the task is cancelled,
    without a message, in its first delay.  The rest is the world of
    [door_world "open"]. *)
Definition cancelled_while_asleep (history : list effect) : option string :=
  match last history with
  | Some (ESleep _) => Some ""
  | _ => None
  end.

Definition shutdown_world : world :=
  World (w_states (door_world "open")) (fun _ => Time 12 0 0 0) 0
        hal_without_light_02 [] cancelled_while_asleep.

(** * Properties *)

(** ** Values *)

Lemma py_eq_str (v : value) (s : string) : py_eq v (VStr s) = true <-> v = VStr s.
Proof.
  destruct v as [| b | z | t | xs | kvs]; simpl;
    try (split; [discriminate | congruence]).
  rewrite String.eqb_eq. split; congruence.
Qed.

Lemma py_eq_str_false (v : value) (s : string) : v <> VStr s -> py_eq v (VStr s) = false.
Proof.
  intros H. destruct (py_eq v (VStr s)) eqn:E; [|reflexivity].
  apply py_eq_str in E. contradiction.
Qed.

(** Induction on values, with the items of a list. *)
Lemma value_ind_list (P : value -> Prop) :
  P VNone -> (forall b, P (VBool b)) -> (forall z, P (VInt z)) -> (forall s, P (VStr s)) ->
  (forall xs, Forall P xs -> P (VList xs)) -> (forall kvs, P (VDict kvs)) ->
  forall v, P v.
Proof.
  intros HNone HBool HInt HStr HList HDict.
  refine (fix IH (v : value) : P v :=
            match v with
            | VNone => HNone
            | VBool b => HBool b
            | VInt z => HInt z
            | VStr s => HStr s
            | VList xs =>
                HList xs ((fix items (xs : list value) : Forall P xs :=
                             match xs with
                             | [] => ltac:(constructor)
                             | x :: r => ltac:(constructor; [exact (IH x) | exact (items r)])
                             end) xs)
            | VDict kvs => HDict kvs
            end).
Qed.

(** The four ordering operators read one comparison of the two values, or
    raise together. *)
Lemma py_order_uniform (a b : value) :
  (exists c : comparison, forall o, py_order o a b = Ok (ord_of_comparison o c)) \/
  (exists x y : value, forall o, py_order o a b = Raise (unorderable o x y)).
Proof.
  revert b. induction a as [| x | x | s | xs IH | kvs] using value_ind_list; intros b.
  - right. exists VNone, b. reflexivity.
  - destruct b as [| y | y | t | ys | kws]; simpl;
      try (right; eexists _, _; reflexivity); left; eexists; reflexivity.
  - destruct b as [| y | y | t | ys | kws]; simpl;
      try (right; eexists _, _; reflexivity); left; eexists; reflexivity.
  - destruct b as [| y | y | t | ys | kws]; simpl;
      try (right; eexists _, _; reflexivity); left; eexists; reflexivity.
  - destruct b as [| y | y | t | ys | kws];
      try (right; eexists _, _; reflexivity).
    simpl. revert ys. induction IH as [| x r Hx Hr IHr]; intros ys.
    + left. exists (Nat.compare (length (@nil value)) (length ys)). now destruct ys.
    + destruct ys as [| y ys'].
      * left. exists (Nat.compare (length (x :: r)) (length (@nil value))). reflexivity.
      * destruct (py_eq x y); [apply IHr | apply Hx].
  - right. exists (VDict kvs), b. reflexivity.
Qed.

(** A comparison raises nothing but [TypeError]. *)
Lemma py_order_raises (o : ordering) (a b : value) (f : fault) :
  py_order o a b = Raise f -> exc_class f = TypeError.
Proof.
  destruct (py_order_uniform a b) as [[c Hc] | (x & y & Hr)].
  - rewrite Hc. discriminate.
  - rewrite Hr. now intros [= <-].
Qed.

(** ** Clock-of-day order *)

Lemma time_compare_micros (a b : time) :
  valid_time a -> valid_time b ->
  time_compare a b = N.compare (day_micros a) (day_micros b).
Proof.
  destruct a as [h m s u], b as [h' m' s' u'].
  unfold valid_time, time_compare, day_micros; simpl.
  intros (Hh & Hm & Hs & Hu) (Hh' & Hm' & Hs' & Hu').
  symmetry.
  destruct (N.compare_spec h h') as [-> | Hlt | Hgt].
  - destruct (N.compare_spec m m') as [-> | Hlt | Hgt].
    + destruct (N.compare_spec s s') as [-> | Hlt | Hgt].
      * destruct (N.compare_spec u u') as [-> | Hlt | Hgt].
        -- apply N.compare_refl.
        -- apply N.compare_lt_iff. lia.
        -- apply N.compare_gt_iff. lia.
      * apply N.compare_lt_iff. nia.
      * apply N.compare_gt_iff. nia.
    + apply N.compare_lt_iff. nia.
    + apply N.compare_gt_iff. nia.
  - apply N.compare_lt_iff. nia.
  - apply N.compare_gt_iff. nia.
Qed.

Lemma time_le_micros (a b : time) :
  valid_time a -> valid_time b ->
  (time_le a b = true <-> (day_micros a <= day_micros b)%N).
Proof.
  intros Ha Hb. unfold time_le. rewrite (time_compare_micros a b Ha Hb).
  destruct (N.compare_spec (day_micros a) (day_micros b)); split; intros; (lia || congruence).
Qed.

Lemma time_ge_micros (a b : time) :
  valid_time a -> valid_time b ->
  (time_ge a b = true <-> (day_micros b <= day_micros a)%N).
Proof.
  intros Ha Hb. unfold time_ge. rewrite (time_compare_micros a b Ha Hb).
  destruct (N.compare_spec (day_micros a) (day_micros b)); split; intros; (lia || congruence).
Qed.

(** ** Parsing of clock-of-day strings *)

Lemma digit_bound (c : ascii) : is_digit c = true -> digit c <= 9.
Proof.
  unfold is_digit, digit. rewrite andb_true_iff, !Nat.leb_le. lia.
Qed.

Lemma hour_alts_bound (s : list ascii) (x : nat * list ascii) :
  In x (hour_alts s) -> fst x < 24.
Proof.
  destruct s as [| a r]; simpl; [tauto |].
  rewrite in_app_iff. intros [H | H].
  - destruct r as [| b r']; [destruct H |].
    destruct (_ || _) eqn:E in H; [| destruct H].
    destruct H as [<- | []]. simpl.
    apply orb_true_iff in E as [E | E].
    + apply andb_true_iff in E as [E E3]. apply andb_true_iff in E as [E2 _].
      apply Ascii.eqb_eq in E2. subst a. apply Nat.leb_le in E3.
      change (digit "2") with 2. lia.
    + apply andb_true_iff in E as [E Eb]. apply digit_bound in Eb.
      apply orb_true_iff in E as [E | E]; apply Ascii.eqb_eq in E; subst a.
      * change (digit "0") with 0. lia.
      * change (digit "1") with 1. lia.
  - destruct (is_digit a) eqn:E; [| destruct H].
    destruct H as [<- | []]. simpl. apply digit_bound in E. lia.
Qed.

Lemma minute_alts_bound (s : list ascii) (x : nat * list ascii) :
  In x (minute_alts s) -> fst x < 60.
Proof.
  destruct s as [| a r]; simpl; [tauto |].
  rewrite in_app_iff. intros [H | H].
  - destruct r as [| b r']; [destruct H |].
    destruct (_ && _) eqn:E in H; [| destruct H].
    destruct H as [<- | []]. simpl.
    apply andb_true_iff in E as [E Eb]. apply andb_true_iff in E as [_ E5].
    apply digit_bound in Eb. apply Nat.leb_le in E5. lia.
  - destruct (is_digit a) eqn:E; [| destruct H].
    destruct H as [<- | []]. simpl. apply digit_bound in E. lia.
Qed.

Lemma head_In {A} (l : list A) (x : A) : head l = Some x -> In x l.
Proof. destruct l; simpl; [discriminate | intros [= ->]; now left]. Qed.

Lemma match_hm_bound (s : list ascii) (h m : nat) (rest : list ascii) :
  match_hm s = Some (h, m, rest) -> h < 24 /\ m < 60.
Proof.
  unfold match_hm. intros H. apply head_In in H.
  apply in_flat_map in H as (x & Hx & H).
  destruct (snd x) as [| c r]; [destruct H |].
  destruct (Ascii.eqb c ":"); [| destruct H].
  apply in_map_iff in H as (y & [= <- <- _] & Hy).
  split; [eapply hour_alts_bound | eapply minute_alts_bound]; eassumption.
Qed.

Lemma strptime_hm_valid (s : value) (t : time) :
  strptime_hm s = Ok t -> valid_time t.
Proof.
  destruct s as [| | | str | |]; simpl; try discriminate.
  destruct (match_hm _) as [[[h m] rest] |] eqn:E; [| discriminate].
  destruct rest; [| discriminate]. intros [= <-].
  apply match_hm_bound in E as [Hh Hm].
  unfold valid_time; simpl. lia.
Qed.

Lemma TimeRangeCondition_init_valid (s e : value) (c : TimeRangeCondition.t) :
  TimeRangeCondition.init s e = Ok c ->
  valid_time (TimeRangeCondition.start c) /\ valid_time (TimeRangeCondition.end_ c).
Proof.
  unfold TimeRangeCondition.init.
  destruct (strptime_hm s) eqn:Es; [| discriminate].
  destruct (strptime_hm e) eqn:Ee; [| discriminate].
  intros [= <-]. simpl. split; eapply strptime_hm_valid; eassumption.
Qed.

(** ** Leaf conditions *)

(** C6. A [time_range] condition built from its two clock-of-day strings,
    evaluated when the clock reads [now]: if [start <= end] it holds exactly
    when [start <= now <= end], both ends included; if [start > end] the
    interval wraps midnight and it holds exactly when [now >= start] or
    [now <= end].  The order is that of the instants of the day. *)
Theorem time_range_interval (s e : value) (c : TimeRangeCondition.t)
        (context : EvaluationContext) (w : world) :
  TimeRangeCondition.init s e = Ok c ->
  valid_time (w_clock w (w_tick w)) ->
  let start := day_micros (TimeRangeCondition.start c) in
  let end_ := day_micros (TimeRangeCondition.end_ c) in
  let now := day_micros (w_clock w (w_tick w)) in
  exists b : bool,
    fst (TimeRangeCondition.evaluate c context w) = Ok b /\
    ((start <= end_)%N -> (b = true <-> (start <= now /\ now <= end_)%N)) /\
    ((end_ < start)%N -> (b = true <-> (start <= now \/ now <= end_)%N)).
Proof.
  intros Hc Hnow. apply TimeRangeCondition_init_valid in Hc as [Hs He].
  cbv zeta. exists (TimeRangeCondition.holds_at c (w_clock w (w_tick w))).
  split; [reflexivity |].
  unfold TimeRangeCondition.holds_at.
  pose proof (time_le_micros _ _ Hs He) as Hse.
  pose proof (time_le_micros _ _ Hs Hnow) as Hsn.
  pose proof (time_le_micros _ _ Hnow He) as Hne.
  pose proof (time_ge_micros _ _ Hnow Hs) as Hns.
  destruct (time_le (TimeRangeCondition.start c) (TimeRangeCondition.end_ c)) eqn:E.
  - split; [intros _ | intros Hlt; pose proof (proj1 Hse eq_refl); lia].
    rewrite andb_true_iff, Hsn, Hne. tauto.
  - split; [intros Hle; apply Hse in Hle; discriminate | intros _].
    rewrite orb_true_iff, Hns, Hne. tauto.
Qed.

(** The instance of the design: from 22:00 to 06:00 the condition holds at
    23:30 and not at 12:00. *)
Lemma time_range_interval_witness :
  (exists b : bool,
     fst (TimeRangeCondition.evaluate night_range sample_context (world_at (Time 23 30 0 0)))
     = Ok b /\ b = true) /\
  (exists b : bool,
     fst (TimeRangeCondition.evaluate night_range sample_context (world_at (Time 12 0 0 0)))
     = Ok b /\ b = false).
Proof.
  split.
  - destruct (time_range_interval (VStr "22:00") (VStr "06:00") night_range
                sample_context (world_at (Time 23 30 0 0)) eq_refl)
      as (b & Hb & _ & Hwrap).
    + vm_compute; repeat split.
    + exists b. split; [exact Hb |].
      apply Hwrap; [vm_compute; reflexivity | left; vm_compute; discriminate].
  - destruct (time_range_interval (VStr "22:00") (VStr "06:00") night_range
                sample_context (world_at (Time 12 0 0 0)) eq_refl)
      as (b & Hb & _ & Hwrap).
    + vm_compute; repeat split.
    + exists b. split; [exact Hb |].
      destruct b; [| reflexivity].
      assert (H : (day_micros (Time 22 0 0 0) <= day_micros (Time 12 0 0 0)
                   \/ day_micros (Time 12 0 0 0) <= day_micros (Time 6 0 0 0))%N)
        by (apply Hwrap; [vm_compute; reflexivity | reflexivity]).
      vm_compute in H. destruct H as [H | H]; exfalso; apply H; reflexivity.
Defined.

(** C5. Whatever the context, a group with operator [and] and no children
    evaluates to true, and a group with operator [or] and no children
    evaluates to false: the identities of [all] and [any]. *)
Theorem empty_group_identity (context : EvaluationContext) (w : world) :
  ConditionEvaluator.evaluate
    (Some [("operator", VStr "and"); ("items", VList [])]) context w = (Ok true, w) /\
  ConditionEvaluator.evaluate
    (Some [("operator", VStr "or"); ("items", VList [])]) context w = (Ok false, w) /\
  ConditionGroup.evaluate
    {| ConditionGroup.operator := "and"; ConditionGroup.conditions := VList [] |}
    context w = (Ok true, w) /\
  ConditionGroup.evaluate
    {| ConditionGroup.operator := "or"; ConditionGroup.conditions := VList [] |}
    context w = (Ok false, w).
Proof. repeat split. Qed.

(** The comparison operators [_compare] knows. *)
Lemma compare_unknown_operator (actual expected operator : value) :
  (forall s, In s known_operators -> operator <> VStr s) ->
  DeviceStateCondition._compare actual expected operator = Ok false.
Proof.
  intros H. unfold DeviceStateCondition._compare.
  rewrite !py_eq_str_false; [reflexivity | ..]; apply H; simpl; tauto.
Qed.

(** C4. A [device_state] leaf fails closed.  If its device id is absent
    from the device states of the context it evaluates to false; if the
    attribute it names (other than ["state"], which reads the state field)
    is no key of the device's attributes it evaluates to false; and with an
    operator that is none of [eq], [ne], [gt], [ge], [lt], [le] both
    [_compare] and the leaf evaluate to false.  None of these cases
    raises. *)
Theorem device_state_fail_closed (c : DeviceStateCondition.t)
        (context : EvaluationContext) (w : world) :
  (forall d : string,
      DeviceStateCondition.device_id c = VStr d ->
      device_states context !! d = None ->
      DeviceStateCondition.evaluate c context w = (Ok false, w)) /\
  (forall (d a : string) (st : DeviceState),
      DeviceStateCondition.device_id c = VStr d ->
      device_states context !! d = Some st ->
      DeviceStateCondition.attribute c = VStr a ->
      a <> "state" ->
      dict_get a (attributes st) = None ->
      DeviceStateCondition.evaluate c context w = (Ok false, w)) /\
  ((forall s, In s known_operators -> DeviceStateCondition.operator c <> VStr s) ->
   (forall actual expected : value,
       DeviceStateCondition._compare actual expected (DeviceStateCondition.operator c)
       = Ok false) /\
   (forall d a : string,
       DeviceStateCondition.device_id c = VStr d ->
       DeviceStateCondition.attribute c = VStr a ->
       DeviceStateCondition.evaluate c context w = (Ok false, w))).
Proof.
  unfold DeviceStateCondition.evaluate, lift, DeviceStateCondition.evaluate_now.
  split; [| split].
  - intros d Hd Habs. rewrite Hd. simpl. now rewrite Habs.
  - intros d a st Hd Hst Ha Hne Hmiss. rewrite Hd. simpl. rewrite Hst.
    unfold DeviceStateCondition.actual_value. rewrite Ha.
    rewrite py_eq_str_false by congruence. simpl. now rewrite Hmiss.
  - intros Hop. split.
    + intros actual expected. now apply compare_unknown_operator.
    + intros d a Hd Ha. rewrite Hd. simpl.
      destruct (device_states context !! d) as [st |]; [| reflexivity].
      destruct (DeviceStateCondition.actual_value c st) as [v | f] eqn:Ev.
      * destruct v; try reflexivity;
          now rewrite compare_unknown_operator.
      * exfalso. unfold DeviceStateCondition.actual_value in Ev. rewrite Ha in Ev.
        destruct (py_eq (VStr a) (VStr "state")); discriminate.
Qed.

Lemma device_state_fail_closed_witness :
  DeviceStateCondition.evaluate door_is_open sample_context (world_at (Time 12 0 0 0))
  = (Ok false, world_at (Time 12 0 0 0)) /\
  DeviceStateCondition.evaluate dim_light closed_door_context (world_at (Time 12 0 0 0))
  = (Ok false, world_at (Time 12 0 0 0)) /\
  DeviceStateCondition._compare (VStr "closed") (VStr "open") (VStr "matches") = Ok false /\
  DeviceStateCondition.evaluate door_matches closed_door_context (world_at (Time 12 0 0 0))
  = (Ok false, world_at (Time 12 0 0 0)).
Proof.
  assert (Hop : forall s, In s known_operators -> VStr "matches" <> VStr s).
  { intros s Hs [= <-]. simpl in Hs. intuition discriminate. }
  split; [| split; [| split]].
  - exact (proj1 (device_state_fail_closed door_is_open sample_context
                    (world_at (Time 12 0 0 0))) "d1" eq_refl eq_refl).
  - refine (proj1 (proj2 (device_state_fail_closed dim_light closed_door_context
                            (world_at (Time 12 0 0 0))))
                  "d1" "brightness" closed_door eq_refl eq_refl eq_refl _ eq_refl).
    discriminate.
  - exact (proj1 (proj2 (proj2 (device_state_fail_closed door_matches closed_door_context
                                  (world_at (Time 12 0 0 0)))) Hop)
                 (VStr "closed") (VStr "open")).
  - exact (proj2 (proj2 (proj2 (device_state_fail_closed door_matches closed_door_context
                                  (world_at (Time 12 0 0 0)))) Hop)
                 "d1" "state" eq_refl eq_refl).
Defined.

(** ** The monad *)

Lemma for_each_app {A B} (body : A -> M B) (xs ys : list A) (w : world) :
  for_each body (xs ++ ys)%list w =
  match for_each body xs w with
  | (Ok bs, w') =>
      match for_each body ys w' with
      | (Ok cs, w'') => (Ok (bs ++ cs)%list, w'')
      | (Raise f, w'') => (Raise f, w'')
      end
  | (Raise f, w') => (Raise f, w')
  end.
Proof.
  revert w. induction xs as [| x xs IH]; intros w; simpl.
  - unfold ret. destruct (for_each body ys w) as [[cs | f] w']; reflexivity.
  - unfold bind, ret. destruct (body x w) as [[b | f] w1]; [| reflexivity].
    rewrite IH.
    destruct (for_each body xs w1) as [[bs | f] w2]; [| reflexivity].
    destruct (for_each body ys w2) as [[cs | f] w3]; reflexivity.
Qed.

Lemma only_clock_read_refl (w : world) : only_clock_read w w.
Proof. repeat split. Qed.

Lemma only_clock_read_trans (w1 w2 w3 : world) :
  only_clock_read w1 w2 -> only_clock_read w2 w3 -> only_clock_read w1 w3.
Proof.
  unfold only_clock_read. intros (? & ? & ? & ? & ?) (? & ? & ? & ? & ?).
  repeat split; congruence.
Qed.

Lemma reads_clock_ret {A} (a : A) : reads_clock (ret a).
Proof. intros w. apply only_clock_read_refl. Qed.

Lemma reads_clock_lift {A} (r : result A) : reads_clock (lift r).
Proof. intros w. apply only_clock_read_refl. Qed.

Lemma reads_clock_bind {A B} (c : M A) (k : A -> M B) :
  reads_clock c -> (forall a, reads_clock (k a)) -> reads_clock (bind c k).
Proof.
  intros Hc Hk w. unfold bind. specialize (Hc w).
  destruct (c w) as [[a | f] w1]; simpl in *; [| exact Hc].
  eapply only_clock_read_trans; [exact Hc | apply Hk].
Qed.

Lemma reads_clock_datetime_now : reads_clock datetime_now.
Proof. intros w. repeat split. Qed.

Lemma reads_clock_get_state (device_id : value) : reads_clock (get_state device_id).
Proof. intros w. apply only_clock_read_refl. Qed.

Lemma reads_clock_for_each {A B} (body : A -> M B) (xs : list A) :
  (forall x, reads_clock (body x)) -> reads_clock (for_each body xs).
Proof.
  intros Hb. induction xs as [| x xs IH]; simpl.
  - apply reads_clock_ret.
  - apply reads_clock_bind; [apply Hb | intros b].
    apply reads_clock_bind; [exact IH | intros bs]. apply reads_clock_ret.
Qed.

Create HintDb frame.
#[local] Hint Resolve reads_clock_ret reads_clock_lift reads_clock_datetime_now
  reads_clock_get_state : frame.

Lemma reads_clock_condition (c : Condition) (context : EvaluationContext) :
  reads_clock (Condition_evaluate c context).
Proof.
  destruct c; simpl.
  - apply reads_clock_lift.
  - apply reads_clock_bind; auto with frame.
Qed.

Lemma reads_clock_child (context : EvaluationContext) (cond_data : value) :
  reads_clock (ConditionGroup.evaluate_child context cond_data).
Proof.
  apply reads_clock_bind; [auto with frame | intros c; apply reads_clock_condition].
Qed.

Lemma reads_clock_group (g : ConditionGroup.t) (context : EvaluationContext) :
  reads_clock (ConditionGroup.evaluate g context).
Proof.
  apply reads_clock_bind; [auto with frame | intros items].
  apply reads_clock_bind; [| auto with frame].
  apply reads_clock_for_each, reads_clock_child.
Qed.

Lemma reads_clock_evaluator (condition_data : option dict) (context : EvaluationContext) :
  reads_clock (ConditionEvaluator.evaluate condition_data context).
Proof.
  destruct condition_data as [[| kv d] |]; simpl; auto with frame.
  destruct (_ && _).
  - do 3 (apply reads_clock_bind; [auto with frame | intros ?]).
    apply reads_clock_group.
  - apply reads_clock_bind; [auto with frame | intros c; apply reads_clock_condition].
Qed.

(** ** Condition groups *)

Lemma all_true (results : list bool) :
  ConditionGroup.all results = true <-> Forall (fun b => b = true) results.
Proof.
  unfold ConditionGroup.all. rewrite forallb_forall, Forall_forall.
  split; intros H b Hb; apply H; [apply list_elem_of_In | apply list_elem_of_In in Hb]; assumption.
Qed.

Lemma any_true (results : list bool) :
  ConditionGroup.any results = true <-> Exists (fun b => b = true) results.
Proof.
  unfold ConditionGroup.any. rewrite existsb_exists, Exists_exists.
  split; intros (b & Hb & Hbt); exists b; split; try assumption;
    [apply list_elem_of_In | apply list_elem_of_In in Hb]; assumption.
Qed.

(** C3, as the code has it.  A group evaluates its children in order, each
    against the same context.  When every child evaluates without raising,
    the group is true exactly when its operator is [and] and every result
    is true, or its operator is [or] and some result is true; any other
    operator gives false.  A child without a type tag, as a group is,
    raises [ValueError] once the children before it are evaluated, and the
    group raises with it. *)
Theorem group_of_leaves (operator : string) (context : EvaluationContext)
        (w w' : world) (children : list value) (results : list bool) :
  for_each (ConditionGroup.evaluate_child context) children w = (Ok results, w') ->
  (exists b : bool,
      ConditionGroup.evaluate
        {| ConditionGroup.operator := operator;
           ConditionGroup.conditions := VList children |} context w = (Ok b, w') /\
      (b = true <->
       (operator = "and" /\ Forall (fun r => r = true) results) \/
       (operator = "or" /\ Exists (fun r => r = true) results))) /\
  (forall (group : dict) (after : list value),
      dict_get "type" group = None ->
      ConditionGroup.evaluate
        {| ConditionGroup.operator := operator;
           ConditionGroup.conditions := VList (children ++ VDict group :: after) |}
        context w
      = (Raise (Fault ValueError "Unknown condition type: None"), w')).
Proof.
  intros H. split.
  - exists (ConditionGroup.combine operator results). split.
    + unfold ConditionGroup.evaluate, bind, lift; simpl. now rewrite H.
    + unfold ConditionGroup.combine.
      destruct (String.eqb operator "and") eqn:Eand.
      * apply String.eqb_eq in Eand. subst operator. rewrite all_true.
        split; [intros Hall; left; split; [reflexivity | exact Hall] |].
        intros [[_ Hall] | [Hor _]]; [exact Hall | discriminate].
      * apply String.eqb_neq in Eand.
        destruct (String.eqb operator "or") eqn:Eor.
        -- apply String.eqb_eq in Eor. subst operator. rewrite any_true.
           split; [intros Hany; right; split; [reflexivity | exact Hany] |].
           intros [[Hand _] | [_ Hany]]; [discriminate | exact Hany].
        -- apply String.eqb_neq in Eor.
           split; [discriminate |]. intros [[Hand _] | [Hor _]]; contradiction.
  - intros group after Htype.
    unfold ConditionGroup.evaluate, bind at 1, lift; simpl.
    unfold bind at 1. rewrite for_each_app, H. simpl.
    unfold bind at 1, ConditionGroup.evaluate_child at 1, bind at 1, lift.
    unfold ConditionFactory.create. rewrite Htype. reflexivity.
Qed.

Lemma group_of_leaves_witness :
  (exists b : bool,
      ConditionGroup.evaluate
        {| ConditionGroup.operator := "or";
           ConditionGroup.conditions := VList two_leaves |}
        closed_door_context (world_at (Time 23 30 0 0))
      = (Ok b, ticked (world_at (Time 23 30 0 0))) /\ b = true) /\
  ConditionGroup.evaluate
    {| ConditionGroup.operator := "or";
       ConditionGroup.conditions :=
         VList (two_leaves ++ [VDict [("operator", VStr "and"); ("items", VList [])]]) |}
    closed_door_context (world_at (Time 23 30 0 0))
  = (Raise (Fault ValueError "Unknown condition type: None"),
     ticked (world_at (Time 23 30 0 0))).
Proof.
  pose proof (group_of_leaves "or" closed_door_context (world_at (Time 23 30 0 0))
                (ticked (world_at (Time 23 30 0 0))) two_leaves [false; true] eq_refl)
    as [(b & Hb & Hiff) Hnested].
  split.
  - exists b. split; [exact Hb |]. apply Hiff. right. split; [reflexivity |].
    apply Exists_cons_tl, Exists_cons_hd. reflexivity.
  - exact (Hnested [("operator", VStr "and"); ("items", VList [])] [] eq_refl).
Defined.

(** C3, as stated, fails on a group nested in a group: [{and, [{and, []}]}]
    does not evaluate to true, it raises, both as a [ConditionGroup] and
    through [ConditionEvaluator.evaluate] on the dict the data model
    admits. *)
Lemma nested_group_raises :
  fst (ConditionGroup.evaluate nested_group sample_context (world_at (Time 12 0 0 0)))
  = Raise (Fault ValueError "Unknown condition type: None") /\
  fst (ConditionEvaluator.evaluate
         (Some [("operator", VStr "and");
                ("items", VList [VDict [("operator", VStr "and"); ("items", VList [])]])])
         sample_context (world_at (Time 12 0 0 0)))
  = Raise (Fault ValueError "Unknown condition type: None").
Proof. split; reflexivity. Qed.

(** ** The definition parser *)

Lemma validate_items_shape (at_ : list value) (i : nat) (xs : list value) :
  match scene.validate_items at_ i xs with
  | inr ds => forallb is_dict xs = true /\ xs = map VDict ds
  | inl _ => forallb is_dict xs = false
  end.
Proof.
  revert i. induction xs as [| x xs IH]; intros i; simpl; [split; reflexivity |].
  specialize (IH (S i)).
  destruct (scene.validate_items at_ (S i) xs) as [es | ds];
    destruct x; simpl; try assumption; try reflexivity.
  destruct IH as [? ->]. split; [assumption | reflexivity].
Qed.

Lemma validate_dict_list_shape (at_ : list value) (v : value) :
  match scene.validate_dict_list at_ v with
  | inr ds => is_dict_list v = true /\ v = VList (map VDict ds)
  | inl _ => is_dict_list v = false
  end.
Proof.
  destruct v; simpl; try reflexivity.
  pose proof (validate_items_shape at_ 0 xs) as H.
  destruct (scene.validate_items at_ 0 xs); [assumption |].
  destruct H as [? ->]. split; [assumption | reflexivity].
Qed.

Lemma validate_operator_shape (at_ : list value) (o : value) :
  match scene.validate_operator at_ o with
  | inr op => o = VStr (scene.operator_str op)
  | inl _ => match o with
             | VStr s => String.eqb s "and" || String.eqb s "or"
             | _ => false
             end = false
  end.
Proof.
  destruct o as [| b | z | s | xs | kvs]; simpl; try reflexivity.
  destruct (String.eqb s "and") eqn:Ea; simpl.
  - apply String.eqb_eq in Ea. now subst s.
  - destruct (String.eqb s "or") eqn:Eo; simpl; [| reflexivity].
    apply String.eqb_eq in Eo. now subst s.
Qed.

Lemma validate_conditions_shape (at_ : list value) (field : option value) :
  match scene.validate_conditions at_ field with
  | inr c =>
      match field with Some v => is_group v | None => true end = true /\
      match field with
      | None | Some VNone => c = None
      | Some (VDict d) =>
          exists g : scene.ConditionGroup,
            c = Some g /\
            dict_get "operator" d = Some (VStr (scene.operator_str (scene.operator g))) /\
            dict_get "items" d = Some (VList (map VDict (scene.items g)))
      | Some _ => False
      end
  | inl _ => match field with Some v => is_group v | None => true end = false
  end.
Proof.
  destruct field as [v |]; [| split; reflexivity].
  destruct v as [| b | z | s | xs | d]; simpl; try reflexivity; [split; reflexivity |].
  unfold scene.validate_group, scene.required, scene.both.
  destruct (dict_get "operator" d) as [o |]; simpl.
  - pose proof (validate_operator_shape (at_ ++ [VStr "operator"])%list o) as Ho.
    destruct (dict_get "items" d) as [its |]; simpl.
    + pose proof (validate_dict_list_shape (at_ ++ [VStr "items"])%list its) as Hi.
      destruct (scene.validate_operator _ o) as [eo | op];
        destruct (scene.validate_dict_list _ its) as [ei | ds].
      * now rewrite Ho.
      * now rewrite Ho.
      * rewrite Hi. apply andb_false_r.
      * subst o. destruct Hi as [Hi ->]. split.
        -- rewrite Hi. now destruct op.
        -- eexists. split; [reflexivity |]. split; reflexivity.
    + rewrite andb_false_r. destruct (scene.validate_operator _ o); reflexivity.
  - destruct (dict_get "items" d) as [its |]; simpl; [| reflexivity].
    destruct (scene.validate_dict_list _ its); reflexivity.
Qed.

Lemma SceneDefinition_validate_shape (data : dict) :
  match scene.SceneDefinition_validate data with
  | inr def =>
      well_shaped data = true /\
      dict_get "actions" data = Some (VList (map VDict (scene.actions def))) /\
      match dict_get "triggers" data with
      | Some v => v = VList (map VDict (scene.triggers def))
      | None => scene.triggers def = []
      end /\
      match dict_get "conditions" data with
      | None | Some VNone => scene.conditions def = None
      | Some (VDict d) =>
          exists g : scene.ConditionGroup,
            scene.conditions def = Some g /\
            dict_get "operator" d = Some (VStr (scene.operator_str (scene.operator g))) /\
            dict_get "items" d = Some (VList (map VDict (scene.items g)))
      | Some _ => False
      end
  | inl _ => well_shaped data = false
  end.
Proof.
  unfold scene.SceneDefinition_validate, well_shaped, scene.both, scene.required.
  pose proof (validate_conditions_shape [VStr "conditions"] (dict_get "conditions" data)) as Hc.
  assert (Ht : match (match dict_get "triggers" data with
                      | Some v => scene.validate_dict_list [VStr "triggers"] v
                      | None => inr []
                      end) with
               | inr ts => match dict_get "triggers" data with
                           | Some v => is_dict_list v | None => true end = true /\
                           match dict_get "triggers" data with
                           | Some v => v = VList (map VDict ts)
                           | None => ts = []
                           end
               | inl _ => match dict_get "triggers" data with
                          | Some v => is_dict_list v | None => true end = false
               end).
  { destruct (dict_get "triggers" data) as [v |]; [| split; reflexivity].
    apply validate_dict_list_shape. }
  destruct (match dict_get "triggers" data with
            | Some v => scene.validate_dict_list [VStr "triggers"] v
            | None => inr []
            end) as [et | ts].
  - rewrite Ht. simpl.
    destruct (scene.validate_conditions _ _);
      destruct (dict_get "actions" data) as [a |]; simpl;
        try destruct (scene.validate_dict_list _ a); reflexivity.
  - destruct Ht as [Ht Hts]. rewrite Ht. simpl.
    destruct (scene.validate_conditions _ _) as [ec | c].
    + rewrite Hc. simpl.
      destruct (dict_get "actions" data) as [a |]; simpl;
        try destruct (scene.validate_dict_list _ a); reflexivity.
    + destruct Hc as [Hc Hcs]. rewrite Hc. simpl.
      destruct (dict_get "actions" data) as [a |]; simpl; [| reflexivity].
      pose proof (validate_dict_list_shape [VStr "actions"] a) as H.
      destruct (scene.validate_dict_list _ a) as [ea | acts]; [exact H |].
      destruct H as [H ->]. simpl. split; [exact H |]. split; [reflexivity |].
      split; [exact Hts | exact Hcs].
Qed.

(** C1, as the code has it.  On a dict, [parse] returns a [SceneDefinition]
    or raises [SceneDefinitionError] with the cause after the words
    ["Invalid scene definition: "], and nothing else.  It returns exactly
    when the dict is well shaped: [triggers], if given, and [actions] are
    lists of dicts, and [conditions], if given, is [None] or a group whose
    operator is ["and"] or ["or"] and whose items are a list of dicts.  The
    result keeps what was given: its actions and its triggers are the dicts
    given, whatever keys they hold (no trigger when none is given), and its
    conditions are the operator and the item dicts given (none for [None]
    or when none is given).  On a value that is no dict the unpacking of
    the keyword arguments raises [TypeError], which [parse] lets
    through. *)
Theorem parse_checks_shape (validation_text : list scene.ErrorDetails -> string)
        (definition_data : value) :
  match definition_data with
  | VDict data =>
      match SceneParser.parse validation_text definition_data with
      | Ok def =>
          well_shaped data = true /\
          dict_get "actions" data = Some (VList (map VDict (scene.actions def))) /\
          match dict_get "triggers" data with
          | Some v => v = VList (map VDict (scene.triggers def))
          | None => scene.triggers def = []
          end /\
          match dict_get "conditions" data with
          | None | Some VNone => scene.conditions def = None
          | Some (VDict d) =>
              exists g : scene.ConditionGroup,
                scene.conditions def = Some g /\
                dict_get "operator" d
                = Some (VStr (scene.operator_str (scene.operator g))) /\
                dict_get "items" d = Some (VList (map VDict (scene.items g)))
          | Some _ => False
          end
      | Raise e =>
          well_shaped data = false /\
          exc_class e = SceneDefinitionError /\
          exists cause : string, exc_msg e = "Invalid scene definition: " +:+ cause
      end
  | _ =>
      exists cause : string,
        SceneParser.parse validation_text definition_data = Raise (Fault TypeError cause)
  end.
Proof.
  destruct definition_data as [| b | z | t | xs | data];
    try (eexists; reflexivity).
  unfold SceneParser.parse, SceneParser.construct.
  pose proof (SceneDefinition_validate_shape data) as H.
  destruct (scene.SceneDefinition_validate data) as [errors | def]; simpl.
  - split; [exact H |]. split; [reflexivity |]. now exists (validation_text errors).
  - exact H.
Qed.

(** C1, as stated, fails on an action without a type tag and on a delay of
    a negative number of seconds: both definitions are parsed, and the
    actions come back as given, although [validate_action] rejects the
    first.  Nor is a tag asked of a trigger or of a condition item. *)
Lemma parse_accepts_untagged_action :
  SceneParser.parse (fun _ => "") untagged_action
  = Ok {| scene.triggers := []; scene.conditions := None; scene.actions := [[]] |} /\
  SceneParser.validate_action [] = false /\
  SceneParser.parse (fun _ => "") negative_delay
  = Ok {| scene.triggers := []; scene.conditions := None;
          scene.actions := [[("type", VStr "delay"); ("seconds", VInt (-5))]] |} /\
  SceneParser.parse (fun _ => "") untagged_items
  = Ok {| scene.triggers := [[]];
          scene.conditions := Some {| scene.operator := scene.OpOr; scene.items := [[]] |};
          scene.actions := [[("seconds", VInt 1)]] |}.
Proof. repeat split; reflexivity. Qed.

(** ** The executor *)

Lemma extends_refl (w : world) : extends w w.
Proof. repeat split. exists []. now rewrite app_nil_r. Qed.

Lemma extends_trans (w1 w2 w3 : world) : extends w1 w2 -> extends w2 w3 -> extends w1 w3.
Proof.
  unfold extends. intros (? & ? & ? & ? & e1 & E1) (? & ? & ? & ? & e2 & E2).
  repeat split; try congruence.
  exists (e1 ++ e2)%list. now rewrite E2, E1, app_assoc.
Qed.

Lemma only_clock_read_extends (w w' : world) : only_clock_read w w' -> extends w w'.
Proof.
  intros (? & Ht & ? & ? & ?). repeat split; try assumption.
  exists []. now rewrite app_nil_r.
Qed.

Lemma adds_effects_of_reads_clock {A} (c : M A) : reads_clock c -> adds_effects c.
Proof. intros H w. apply only_clock_read_extends, H. Qed.

Lemma adds_effects_bind {A B} (c : M A) (k : A -> M B) :
  adds_effects c -> (forall a, adds_effects (k a)) -> adds_effects (bind c k).
Proof.
  intros Hc Hk w. unfold bind. specialize (Hc w).
  destruct (c w) as [[a | f] w1]; simpl in *; [| exact Hc].
  eapply extends_trans; [exact Hc | apply Hk].
Qed.

Lemma adds_effects_try {A} (c : M A) (h : fault -> M A) :
  adds_effects c -> (forall f, adds_effects (h f)) -> adds_effects (try_except c h).
Proof.
  intros Hc Hh w. unfold try_except. specialize (Hc w).
  destruct (c w) as [[a | f] w1]; simpl in *; [exact Hc |].
  destruct (is_Exception (exc_class f)); [| exact Hc].
  eapply extends_trans; [exact Hc | apply Hh].
Qed.

Lemma adds_effects_for_each {A B} (body : A -> M B) (xs : list A) :
  (forall x, adds_effects (body x)) -> adds_effects (for_each body xs).
Proof.
  intros Hb. induction xs as [| x xs IH]; simpl.
  - intros w. apply extends_refl.
  - apply adds_effects_bind; [apply Hb | intros b].
    apply adds_effects_bind; [exact IH | intros bs w]. apply extends_refl.
Qed.

Lemma adds_effects_control_device (device_id command : value) :
  adds_effects (control_device device_id command).
Proof. intros w. repeat split. now exists [EControl device_id command]. Qed.

Lemma adds_effects_sleep (seconds : value) : adds_effects (asyncio_sleep seconds).
Proof.
  unfold asyncio_sleep. destruct (num seconds) as [z |]; [| intros w; apply extends_refl].
  destruct (Z.leb float_overflow z); intros w; [apply extends_refl |].
  repeat split. now exists [ESleep z].
Qed.

Lemma adds_effects_action (action : dict) :
  adds_effects (SceneExecutor._execute_action action).
Proof.
  unfold SceneExecutor._execute_action.
  destruct (py_eq _ (VStr "device_control")).
  - unfold SceneExecutor._execute_device_control.
    apply adds_effects_bind; [intros w; apply extends_refl | intros device_id].
    apply adds_effects_bind; [intros w; apply extends_refl | intros command].
    apply adds_effects_try.
    + apply adds_effects_bind; [apply adds_effects_control_device |].
      intros _ w. apply extends_refl.
    + intros f w. apply extends_refl.
  - destruct (py_eq _ (VStr "delay")).
    + apply adds_effects_sleep.
    + intros w. apply extends_refl.
Qed.

Lemma reads_clock_read_states (device_ids : list value) (states : gmap string DeviceState) :
  reads_clock (SceneExecutor.read_states device_ids states).
Proof.
  revert states. induction device_ids as [| device_id r IH]; intros states; simpl.
  - apply reads_clock_ret.
  - apply reads_clock_bind; [apply reads_clock_get_state | intros st; apply IH].
Qed.

Lemma reads_clock_prepare_context (sc : scene.Scene) :
  reads_clock (SceneExecutor._prepare_context sc).
Proof.
  unfold SceneExecutor._prepare_context.
  apply reads_clock_bind; [apply reads_clock_lift | intros ids].
  apply reads_clock_bind; [apply reads_clock_read_states | intros states].
  apply reads_clock_bind; [apply reads_clock_datetime_now | intros now].
  apply reads_clock_ret.
Qed.

Lemma reads_clock_result (status scene_id : string) (message : option string) :
  reads_clock (ExecutionResult.init status scene_id message).
Proof.
  apply reads_clock_bind; [apply reads_clock_datetime_now | intros now].
  apply reads_clock_ret.
Qed.

(** [ExecutionResult] is always built. *)
Lemma result_init (status scene_id : string) (message : option string) (w : world) :
  exists r w',
    ExecutionResult.init status scene_id message w = (Ok r, w') /\
    ExecutionResult.status r = status /\
    ExecutionResult.scene_id r = scene_id /\
    ExecutionResult.message r = message /\
    only_clock_read w w'.
Proof.
  eexists _, _. split; [reflexivity |]. repeat split.
Qed.

(** What [execute_scene] returns when the body of its [try] raises an
    [Exception]. *)
Lemma execute_scene_caught (sc : scene.Scene) (triggered_by : string)
      (w w1 : world) (f : fault) :
  SceneExecutor.run_scene sc w = (Raise f, w1) ->
  is_Exception (exc_class f) = true ->
  exists r w',
    SceneExecutor.execute_scene sc triggered_by w = (Ok r, w') /\
    ExecutionResult.status r = "failed" /\
    ExecutionResult.scene_id r = scene.id sc /\
    ExecutionResult.message r = Some (exc_msg f) /\
    only_clock_read w1 w'.
Proof.
  intros H Hf. unfold SceneExecutor.execute_scene, try_except. rewrite H, Hf.
  apply result_init.
Qed.

(** *** Where a cancellation can come from *)

Lemma raises_exceptions_ret {A} (a : A) : raises_exceptions (ret a).
Proof. intros w f w'. discriminate. Qed.

Lemma raises_exceptions_lift {A} (r : result A) :
  exceptions_only r -> raises_exceptions (lift r).
Proof. intros H w f w' [= -> _]. now apply H. Qed.

Lemma raises_exceptions_bind {A B} (c : M A) (k : A -> M B) :
  raises_exceptions c -> (forall a, raises_exceptions (k a)) -> raises_exceptions (bind c k).
Proof.
  intros Hc Hk w f w'. unfold bind. specialize (Hc w).
  destruct (c w) as [[a | f1] w1].
  - apply Hk.
  - intros [= <- <-]. now apply (Hc f1 w1).
Qed.

Lemma raises_exceptions_for_each {A B} (body : A -> M B) (xs : list A) :
  (forall x, raises_exceptions (body x)) -> raises_exceptions (for_each body xs).
Proof.
  intros Hb. induction xs as [| x xs IH]; simpl; [apply raises_exceptions_ret |].
  apply raises_exceptions_bind; [apply Hb | intros b].
  apply raises_exceptions_bind; [exact IH | intros bs]. apply raises_exceptions_ret.
Qed.

Lemma raises_exceptions_datetime_now : raises_exceptions datetime_now.
Proof. intros w f w'. discriminate. Qed.

Lemma raises_exceptions_get_state (device_id : value) :
  raises_exceptions (get_state device_id).
Proof. intros w f w'. discriminate. Qed.

Lemma exceptions_only_subscript (d : dict) (k : string) : exceptions_only (subscript d k).
Proof. unfold subscript. intros f. destruct (dict_get k d); [discriminate | now intros [= <-]]. Qed.

Lemma exceptions_only_strptime (s : value) : exceptions_only (strptime_hm s).
Proof.
  intros f. unfold strptime_hm.
  destruct s as [| b | z | str | xs | kvs]; try (now intros [= <-]).
  destruct (match_hm _) as [[[h m] [| c rest]] |]; try discriminate; now intros [= <-].
Qed.

Lemma exceptions_only_create (condition_data : value) :
  exceptions_only (ConditionFactory.create condition_data).
Proof.
  intros f. unfold ConditionFactory.create, DeviceStateCondition.init,
    TimeRangeCondition.init.
  destruct condition_data as [| b | z | str | xs | d]; try (now intros [= <-]).
  cbv zeta. destruct (hashable _); simpl; [| now intros [= <-]].
  destruct (default VNone (dict_get "type" d)) as [| b | z | tag | xs | kvs];
    try (now intros [= <-]).
  destruct (ConditionFactory.registered tag); [| now intros [= <-]].
  destruct (String.eqb tag "device_state").
  - pose proof (exceptions_only_subscript d "device_id") as H1.
    destruct (subscript d "device_id") as [device_id | f1]; [| intros [= <-]; now apply H1].
    pose proof (exceptions_only_subscript d "condition") as H2.
    destruct (subscript d "condition") as [condition | f2]; [| intros [= <-]; now apply H2].
    destruct condition; try discriminate; now intros [= <-].
  - destruct (String.eqb tag "time_range"); [| now intros [= <-]].
    pose proof (exceptions_only_subscript d "start") as H1.
    destruct (subscript d "start") as [start | f1]; [| intros [= <-]; now apply H1].
    pose proof (exceptions_only_subscript d "end") as H2.
    destruct (subscript d "end") as [end_ | f2]; [| intros [= <-]; now apply H2].
    pose proof (exceptions_only_strptime start) as H3.
    destruct (strptime_hm start) as [s | f3]; [| intros [= <-]; now apply H3].
    pose proof (exceptions_only_strptime end_) as H4.
    destruct (strptime_hm end_) as [e | f4]; [discriminate | intros [= <-]; now apply H4].
Qed.

Lemma exceptions_only_compare (actual expected operator : value) :
  exceptions_only (DeviceStateCondition._compare actual expected operator).
Proof.
  intros f. unfold DeviceStateCondition._compare.
  repeat (match goal with |- context [if ?c then _ else _] => destruct c end);
    try discriminate; intros H; apply py_order_raises in H; now rewrite H.
Qed.

Lemma exceptions_only_evaluate_now (c : DeviceStateCondition.t)
      (context : EvaluationContext) :
  exceptions_only (DeviceStateCondition.evaluate_now c context).
Proof.
  intros f. unfold DeviceStateCondition.evaluate_now, states_get,
    DeviceStateCondition.actual_value, py_get.
  destruct (DeviceStateCondition.device_id c) as [| b | z | s | xs | kvs];
    try discriminate; try (now intros [= <-]).
  destruct (device_states context !! s) as [st |]; [| discriminate].
  destruct (py_eq (DeviceStateCondition.attribute c) (VStr "state")).
  - apply exceptions_only_compare.
  - destruct (DeviceStateCondition.attribute c) as [| b | z | a | xs | kvs];
      try discriminate; try (now intros [= <-]).
    destruct (default VNone (dict_get a (attributes st))); try discriminate;
      apply exceptions_only_compare.
Qed.

Lemma raises_exceptions_condition (c : Condition) (context : EvaluationContext) :
  raises_exceptions (Condition_evaluate c context).
Proof.
  destruct c as [c | c]; simpl.
  - apply raises_exceptions_lift, exceptions_only_evaluate_now.
  - apply raises_exceptions_bind; [apply raises_exceptions_datetime_now |].
    intros now. apply raises_exceptions_ret.
Qed.

Lemma raises_exceptions_child (context : EvaluationContext) (cond_data : value) :
  raises_exceptions (ConditionGroup.evaluate_child context cond_data).
Proof.
  apply raises_exceptions_bind.
  - apply raises_exceptions_lift, exceptions_only_create.
  - intros c. apply raises_exceptions_condition.
Qed.

(** The evaluation of the conditions has no point of suspension. *)
Lemma raises_exceptions_evaluator (condition_data : option dict)
      (context : EvaluationContext) :
  raises_exceptions (ConditionEvaluator.evaluate condition_data context).
Proof.
  unfold ConditionEvaluator.evaluate.
  destruct condition_data as [[| kv d] |]; try apply raises_exceptions_ret.
  destruct (dict_has "operator" (kv :: d) && dict_has "items" (kv :: d)).
  - apply raises_exceptions_bind;
      [apply raises_exceptions_lift, exceptions_only_subscript | intros operator].
    apply raises_exceptions_bind;
      [apply raises_exceptions_lift, exceptions_only_subscript | intros items].
    apply raises_exceptions_bind.
    { apply raises_exceptions_lift. intros f. unfold ConditionGroup.init.
      destruct operator; try discriminate; now intros [= <-]. }
    intros group. unfold ConditionGroup.evaluate.
    apply raises_exceptions_bind.
    { apply raises_exceptions_lift. intros f. unfold py_iter.
      destruct (ConditionGroup.conditions group); try discriminate; now intros [= <-]. }
    intros its. apply raises_exceptions_bind; [| intros rs; apply raises_exceptions_ret].
    apply raises_exceptions_for_each, raises_exceptions_child.
  - apply raises_exceptions_bind.
    + apply raises_exceptions_lift, exceptions_only_create.
    + intros c. apply raises_exceptions_condition.
Qed.

Lemma exceptions_only_collect_ids (tag : string) (items : list dict) (ids : list value) :
  exceptions_only (SceneExecutor.collect_ids tag items ids).
Proof.
  revert ids. induction items as [| item r IH]; intros ids f; simpl; [discriminate |].
  destruct (py_eq _ (VStr tag)); [| apply IH].
  pose proof (exceptions_only_subscript item "device_id") as H1.
  destruct (subscript item "device_id") as [device_id | f1]; [| intros [= <-]; now apply H1].
  unfold SceneExecutor.set_add.
  destruct (hashable device_id); [apply IH | now intros [= <-]].
Qed.

(** Nor has the building of the context. *)
Lemma raises_exceptions_prepare_context (sc : scene.Scene) :
  raises_exceptions (SceneExecutor._prepare_context sc).
Proof.
  unfold SceneExecutor._prepare_context.
  apply raises_exceptions_bind.
  - apply raises_exceptions_lift. intros f. unfold SceneExecutor._extract_device_ids.
    cbv zeta.
    pose proof (exceptions_only_collect_ids "device_state"
                  (scene.triggers (scene.definition sc)) []) as H1.
    destruct (SceneExecutor.collect_ids "device_state" _ []) as [ids1 | f1];
      [| intros [= <-]; now apply H1].
    destruct (scene.conditions (scene.definition sc)) as [g |].
    + pose proof (exceptions_only_collect_ids "device_state" (scene.items g) ids1) as H2.
      destruct (SceneExecutor.collect_ids "device_state" (scene.items g) ids1)
        as [ids2 | f2]; [| intros [= <-]; now apply H2].
      apply exceptions_only_collect_ids.
    + apply exceptions_only_collect_ids.
  - intros ids. apply raises_exceptions_bind.
    + clear. generalize (∅ : gmap string DeviceState) as acc.
      induction ids as [| device_id r IH]; intros acc; simpl;
        [apply raises_exceptions_ret |].
      apply raises_exceptions_bind; [apply raises_exceptions_get_state | intros st; apply IH].
    + intros states. apply raises_exceptions_bind;
        [apply raises_exceptions_datetime_now | intros now; apply raises_exceptions_ret].
Qed.

Lemma uncancelled_extends (w w' : world) : extends w w' -> uncancelled w -> uncancelled w'.
Proof.
  intros (_ & Hh & _ & Hc & _) [H1 H2]. split.
  - intros history. rewrite Hc. apply H1.
  - intros history device_id command e. rewrite Hh. apply H2.
Qed.

(** In a world without cancellation an action raises an [Exception] or
    nothing. *)
Lemma action_raises_exception (action : dict) (w w' : world) (f : fault) :
  uncancelled w ->
  SceneExecutor._execute_action action w = (Raise f, w') ->
  is_Exception (exc_class f) = true.
Proof.
  intros [Hc Hh]. unfold SceneExecutor._execute_action.
  destruct (py_eq _ (VStr "device_control")).
  - unfold SceneExecutor._execute_device_control, bind, lift.
    pose proof (exceptions_only_subscript action "device_id") as H1.
    destruct (subscript action "device_id") as [device_id | f1];
      [| intros [= <- _]; now apply H1].
    pose proof (exceptions_only_subscript action "command") as H2.
    destruct (subscript action "command") as [command | f2];
      [| intros [= <- _]; now apply H2].
    unfold try_except, control_device, ret, raise.
    destruct (w_hal w (w_trace w) device_id command) as [ok | e] eqn:E; [discriminate |].
    rewrite (Hh _ _ _ _ E). now intros [= <- _].
  - destruct (py_eq _ (VStr "delay")); [| now intros [= <- _]].
    unfold SceneExecutor._execute_delay, asyncio_sleep, raise.
    destruct (num _) as [z |]; [| now intros [= <- _]].
    destruct (Z.leb float_overflow z); [now intros [= <- _] |].
    rewrite Hc. discriminate.
Qed.

Lemma actions_raise_exceptions (actions : list dict) (w w' : world) (f : fault) :
  uncancelled w ->
  for_each SceneExecutor._execute_action actions w = (Raise f, w') ->
  is_Exception (exc_class f) = true.
Proof.
  revert w. induction actions as [| action r IH]; intros w Hw; [discriminate |].
  cbn [for_each]. unfold bind at 1.
  pose proof (adds_effects_action action w) as He.
  destruct (SceneExecutor._execute_action action w) as [[u | f1] w1] eqn:Ea.
  - unfold bind at 1.
    destruct (for_each SceneExecutor._execute_action r w1) as [[us | f2] w2] eqn:Er;
      [discriminate |].
    intros [= <- <-]. apply (IH w1); [| exact Er].
    eapply uncancelled_extends; [exact He | exact Hw].
  - intros [= <- _]. eapply action_raises_exception; eauto.
Qed.

(** The three places the body of [execute_scene] can raise from. *)
Lemma run_scene_raises (sc : scene.Scene) (w w' : world) (f : fault) :
  SceneExecutor.run_scene sc w = (Raise f, w') ->
  SceneExecutor._prepare_context sc w = (Raise f, w') \/
  (exists context w1,
      SceneExecutor._prepare_context sc w = (Ok context, w1) /\
      ConditionEvaluator.evaluate
        (option_map scene.model_dump (scene.conditions (scene.definition sc)))
        context w1 = (Raise f, w')) \/
  (exists context w1 w2,
      SceneExecutor._prepare_context sc w = (Ok context, w1) /\
      ConditionEvaluator.evaluate
        (option_map scene.model_dump (scene.conditions (scene.definition sc)))
        context w1 = (Ok true, w2) /\
      for_each SceneExecutor._execute_action (scene.actions (scene.definition sc)) w2
      = (Raise f, w')).
Proof.
  unfold SceneExecutor.run_scene. unfold bind at 1.
  destruct (SceneExecutor._prepare_context sc w) as [[context | f1] w1] eqn:Ep;
    [| intros [= <- <-]; left; reflexivity].
  unfold bind at 1.
  destruct (ConditionEvaluator.evaluate _ context w1) as [[met | f2] w2] eqn:Ev;
    [| intros [= <- <-]; right; left; exists context, w1; split; [reflexivity | exact Ev]].
  destruct met; cbn [negb]; [| discriminate].
  unfold bind at 1.
  destruct (for_each SceneExecutor._execute_action _ w2) as [[done | f3] w3] eqn:Ea;
    [discriminate |].
  intros [= <- <-]. right. right. exists context, w1, w2.
  split; [reflexivity |]. split; [exact Ev | exact Ea].
Qed.

(** C8. When the conditions of a scene evaluate to not met against the
    context built for it, [execute_scene] returns the result [skipped] with
    the message ["Conditions not met"]; no command is sent to the HAL and
    no delay is taken (the effects are those before the call), and the
    state store is the one before the call. *)
Theorem unmet_conditions_skip (sc : scene.Scene) (triggered_by : string)
        (w w1 w2 : world) (context : EvaluationContext) :
  SceneExecutor._prepare_context sc w = (Ok context, w1) ->
  ConditionEvaluator.evaluate
    (option_map scene.model_dump (scene.conditions (scene.definition sc)))
    context w1 = (Ok false, w2) ->
  exists r w',
    SceneExecutor.execute_scene sc triggered_by w = (Ok r, w') /\
    ExecutionResult.status r = "skipped" /\
    ExecutionResult.message r = Some "Conditions not met" /\
    w_trace w' = w_trace w /\
    w_states w' = w_states w /\
    w_hal w' = w_hal w.
Proof.
  intros Hctx Hcond.
  pose proof (reads_clock_prepare_context sc w) as F1. rewrite Hctx in F1.
  pose proof (reads_clock_evaluator
                (option_map scene.model_dump (scene.conditions (scene.definition sc)))
                context w1) as F2. rewrite Hcond in F2.
  destruct (result_init "skipped" (scene.id sc) (Some "Conditions not met") w2)
    as (r & w' & Hr & Hs & _ & Hm & F3).
  exists r, w'. split.
  - unfold SceneExecutor.execute_scene, try_except, SceneExecutor.run_scene.
    unfold bind at 1. rewrite Hctx. unfold bind at 1. rewrite Hcond.
    cbv beta iota. cbn [negb]. now rewrite Hr.
  - split; [exact Hs |]. split; [exact Hm |].
    destruct (only_clock_read_trans _ _ _ (only_clock_read_trans _ _ _ F1 F2) F3)
      as (? & ? & ? & _).
    auto.
Qed.

(** The scenario of the design: the scene asks for [d1] to be open, the
    cached state of [d1] is closed. *)
Lemma unmet_conditions_skip_witness :
  exists r w',
    SceneExecutor.execute_scene door_scene "auto" (door_world "closed") = (Ok r, w') /\
    ExecutionResult.status r = "skipped" /\
    ExecutionResult.message r = Some "Conditions not met" /\
    w_trace w' = w_trace (door_world "closed") /\
    w_states w' = w_states (door_world "closed") /\
    w_hal w' = w_hal (door_world "closed").
Proof.
  eapply (unmet_conditions_skip door_scene "auto" (door_world "closed")).
  - vm_compute. reflexivity.
  - vm_compute. reflexivity.
Defined.

(** What the failing call of the HAL makes of a [device_control] action:
    an [Exception] is wrapped, anything else passes. *)
Lemma device_control_raises (action : dict) (device_id command : value)
      (e : fault) (w : world) :
  dict_get "type" action = Some (VStr "device_control") ->
  dict_get "device_id" action = Some device_id ->
  dict_get "command" action = Some command ->
  w_hal w (w_trace w) device_id command = Raise e ->
  SceneExecutor._execute_action action w =
  (Raise (if is_Exception (exc_class e)
          then scene_execution_error "device_control"
                 ("Failed to control device " +:+ py_str device_id +:+ ": " +:+ exc_msg e)
          else e),
   World (w_states w) (w_clock w) (w_tick w) (w_hal w)
         (w_trace w ++ [EControl device_id command]) (w_cancel w)).
Proof.
  intros Ht Hd Hc He.
  unfold SceneExecutor._execute_action. rewrite Ht. simpl.
  unfold SceneExecutor._execute_device_control, subscript.
  rewrite Hd, Hc. unfold bind, lift, try_except, control_device, raise.
  rewrite He. now destruct (is_Exception (exc_class e)).
Qed.

(** C7. Let the conditions of a scene be met and let an action of its
    sequence fail, that is raise an [Exception], after the actions before
    it have run.  Then [execute_scene] returns the result [failed] whose
    message is that of the fault; no action after the failing one runs (the
    effects are those present when the failing action raised), and the
    effects of the actions before it stay.  For a [device_control] action
    whose HAL call raises, the message holds the device id and the message
    of the HAL's fault, and the command was sent once. *)
Theorem failed_action_aborts (sc : scene.Scene) (triggered_by : string)
        (w w1 w2 w3 w4 : world) (context : EvaluationContext)
        (before after : list dict) (action : dict) (done : list unit) (f : fault) :
  SceneExecutor._prepare_context sc w = (Ok context, w1) ->
  ConditionEvaluator.evaluate
    (option_map scene.model_dump (scene.conditions (scene.definition sc)))
    context w1 = (Ok true, w2) ->
  scene.actions (scene.definition sc) = (before ++ action :: after)%list ->
  for_each SceneExecutor._execute_action before w2 = (Ok done, w3) ->
  SceneExecutor._execute_action action w3 = (Raise f, w4) ->
  is_Exception (exc_class f) = true ->
  (exists r w',
      SceneExecutor.execute_scene sc triggered_by w = (Ok r, w') /\
      ExecutionResult.status r = "failed" /\
      ExecutionResult.message r = Some (exc_msg f) /\
      w_trace w' = w_trace w4 /\
      (exists sent : list effect, w_trace w3 = (w_trace w ++ sent)%list) /\
      (exists attempt : list effect, w_trace w' = (w_trace w3 ++ attempt)%list) /\
      w_states w' = w_states w) /\
  (forall (device_id command : value) (e : fault),
      dict_get "type" action = Some (VStr "device_control") ->
      dict_get "device_id" action = Some device_id ->
      dict_get "command" action = Some command ->
      w_hal w3 (w_trace w3) device_id command = Raise e ->
      exc_msg f = "Scene execution failed: device_control, reason: "
                  +:+ ("Failed to control device " +:+ py_str device_id
                       +:+ ": " +:+ exc_msg e) /\
      w_trace w4 = (w_trace w3 ++ [EControl device_id command])%list).
Proof.
  intros Hctx Hcond Hacts Hbefore Hfail Hexc.
  assert (Hrun : SceneExecutor.run_scene sc w = (Raise f, w4)).
  { unfold SceneExecutor.run_scene.
    unfold bind at 1. rewrite Hctx. unfold bind at 1. rewrite Hcond.
    cbv beta iota. cbn [negb]. unfold bind at 1.
    rewrite Hacts, for_each_app, Hbefore. cbn [for_each].
    unfold bind at 1. now rewrite Hfail. }
  split.
  - destruct (execute_scene_caught sc triggered_by w w4 f Hrun Hexc)
      as (r & w' & Hr & Hs & _ & Hm & F).
    exists r, w'. split; [exact Hr |]. split; [exact Hs |]. split; [exact Hm |].
    pose proof (reads_clock_prepare_context sc w) as F1. rewrite Hctx in F1.
    pose proof (reads_clock_evaluator
                  (option_map scene.model_dump (scene.conditions (scene.definition sc)))
                  context w1) as F2. rewrite Hcond in F2.
    pose proof (adds_effects_for_each SceneExecutor._execute_action before
                  adds_effects_action w2) as F3. rewrite Hbefore in F3.
    pose proof (adds_effects_action action w3) as F4. rewrite Hfail in F4.
    simpl in F1, F2, F3, F4.
    pose proof (only_clock_read_trans _ _ _ F1 F2) as (S12 & T12 & _ & _).
    destruct F3 as (S3 & _ & _ & _ & sent & T3).
    destruct F4 as (S4 & _ & _ & _ & attempt & T4).
    destruct F as (S5 & T5 & _ & _).
    split; [exact T5 |].
    split; [exists sent; now rewrite T3, T12 |].
    split; [exists attempt; now rewrite T5, T4 |].
    congruence.
  - intros device_id command e Ht Hd Hc He.
    rewrite (device_control_raises action device_id command e w3 Ht Hd Hc He) in Hfail.
    injection Hfail as <- <-.
    destruct (is_Exception (exc_class e)) eqn:Ee; [split; reflexivity | congruence].
Qed.

(** The scenario of the design: the HAL cannot reach the second of three
    lights. *)
Lemma failed_action_aborts_witness :
  exists r w',
    SceneExecutor.execute_scene door_scene "auto" (door_world "open") = (Ok r, w') /\
    ExecutionResult.status r = "failed" /\
    ExecutionResult.message r =
      Some "Scene execution failed: device_control, reason: Failed to control device light_02: Failed to connect to HAL: timed out" /\
    w_trace w' = [EControl (VStr "light_01") (VDict [("state", VStr "on")]);
                  EControl (VStr "light_02") (VDict [("state", VStr "on")])].
Proof.
  destruct (failed_action_aborts door_scene "auto" (door_world "open")
              (ticked (door_world "open")) (ticked (door_world "open"))
              (snd (SceneExecutor._execute_action (light_on "light_01")
                      (ticked (door_world "open"))))
              (snd (SceneExecutor._execute_action (light_on "light_02")
                      (snd (SceneExecutor._execute_action (light_on "light_01")
                              (ticked (door_world "open"))))))
              {| device_states := w_states (door_world "open");
                 scene_id := "scene_001"; current_time := Time 12 0 0 0 |}
              [light_on "light_01"] [light_on "light_03"] (light_on "light_02") [tt]
              (scene_execution_error "device_control"
                 "Failed to control device light_02: Failed to connect to HAL: timed out"))
    as [(r & w' & Hr & Hs & Hm & Ht & _) Hdevice];
    try (vm_compute; reflexivity).
  destruct (Hdevice (VStr "light_02") (VDict [("state", VStr "on")])
              (Fault HALCommunicationError "Failed to connect to HAL: timed out")
              eq_refl eq_refl eq_refl eq_refl) as [_ Hsent].
  exists r, w'. split; [exact Hr |]. split; [exact Hs |]. split; [exact Hm |].
  rewrite Ht, Hsent. vm_compute. reflexivity.
Defined.

(** C10, as the code has it.  Whatever raises an [Exception] inside
    [execute_scene], while the context is built, while the conditions are
    evaluated or while the actions run, comes back as the result [failed]
    with the message of the fault; building the context and evaluating the
    conditions raise nothing else, so their faults never reach the caller.
    When the body returns, the status is [success] or [skipped].  What
    [except Exception] does not catch reaches the caller: a fault that does
    not derive from [Exception], which only an action can raise, when the
    task is cancelled during a delay or a HAL call.  In a world without
    cancellation [execute_scene] returns a result, and its status is
    [success], [skipped] or [failed]. *)
Theorem execute_scene_total (sc : scene.Scene) (triggered_by : string) (w : world) :
  (forall (f : fault) (w1 : world),
      SceneExecutor._prepare_context sc w = (Raise f, w1) ->
      exists r w',
        SceneExecutor.execute_scene sc triggered_by w = (Ok r, w') /\
        ExecutionResult.status r = "failed" /\
        ExecutionResult.message r = Some (exc_msg f)) /\
  (forall (context : EvaluationContext) (f : fault) (w1 w2 : world),
      SceneExecutor._prepare_context sc w = (Ok context, w1) ->
      ConditionEvaluator.evaluate
        (option_map scene.model_dump (scene.conditions (scene.definition sc)))
        context w1 = (Raise f, w2) ->
      exists r w',
        SceneExecutor.execute_scene sc triggered_by w = (Ok r, w') /\
        ExecutionResult.status r = "failed" /\
        ExecutionResult.message r = Some (exc_msg f)) /\
  (forall (f : fault) (w1 : world),
      SceneExecutor.run_scene sc w = (Raise f, w1) ->
      is_Exception (exc_class f) = true ->
      exists r w',
        SceneExecutor.execute_scene sc triggered_by w = (Ok r, w') /\
        ExecutionResult.status r = "failed" /\
        ExecutionResult.message r = Some (exc_msg f)) /\
  (forall (f : fault) (w1 : world),
      SceneExecutor.run_scene sc w = (Raise f, w1) ->
      is_Exception (exc_class f) = false ->
      SceneExecutor.execute_scene sc triggered_by w = (Raise f, w1) /\
      exists context w2 w3,
        SceneExecutor._prepare_context sc w = (Ok context, w2) /\
        ConditionEvaluator.evaluate
          (option_map scene.model_dump (scene.conditions (scene.definition sc)))
          context w2 = (Ok true, w3) /\
        for_each SceneExecutor._execute_action (scene.actions (scene.definition sc)) w3
        = (Raise f, w1)) /\
  (forall (r : ExecutionResult.t) (w1 : world),
      SceneExecutor.run_scene sc w = (Ok r, w1) ->
      SceneExecutor.execute_scene sc triggered_by w = (Ok r, w1) /\
      In (ExecutionResult.status r) ["success"; "skipped"]) /\
  (uncancelled w ->
   exists r w',
     SceneExecutor.execute_scene sc triggered_by w = (Ok r, w') /\
     In (ExecutionResult.status r) ["success"; "skipped"; "failed"]).
Proof.
  assert (Hcaught : forall f w1,
             SceneExecutor.run_scene sc w = (Raise f, w1) ->
             is_Exception (exc_class f) = true ->
             exists r w',
               SceneExecutor.execute_scene sc triggered_by w = (Ok r, w') /\
               ExecutionResult.status r = "failed" /\
               ExecutionResult.message r = Some (exc_msg f)).
  { intros f w1 H Hf.
    destruct (execute_scene_caught sc triggered_by w w1 f H Hf)
      as (r & w' & ? & ? & _ & ? & _).
    eauto. }
  assert (Hprep : forall f w1,
             SceneExecutor._prepare_context sc w = (Raise f, w1) ->
             SceneExecutor.run_scene sc w = (Raise f, w1)).
  { intros f w1 H. unfold SceneExecutor.run_scene. unfold bind at 1. now rewrite H. }
  assert (Hcond : forall context f w1 w2,
             SceneExecutor._prepare_context sc w = (Ok context, w1) ->
             ConditionEvaluator.evaluate
               (option_map scene.model_dump (scene.conditions (scene.definition sc)))
               context w1 = (Raise f, w2) ->
             SceneExecutor.run_scene sc w = (Raise f, w2)).
  { intros context f w1 w2 H1 H2. unfold SceneExecutor.run_scene.
    unfold bind at 1. rewrite H1. unfold bind at 1. now rewrite H2. }
  assert (Hok : forall r w1,
             SceneExecutor.run_scene sc w = (Ok r, w1) ->
             In (ExecutionResult.status r) ["success"; "skipped"]).
  { intros r w1. unfold SceneExecutor.run_scene. unfold bind at 1.
    destruct (SceneExecutor._prepare_context sc w) as [[context | f] w2]; [| discriminate].
    unfold bind at 1.
    destruct (ConditionEvaluator.evaluate _ context w2) as [[met | f] w3]; [| discriminate].
    destruct met; cbn [negb].
    - unfold bind at 1.
      destruct (for_each SceneExecutor._execute_action _ w3) as [[done | f] w4];
        [| discriminate].
      destruct (result_init "success" (scene.id sc)
                  (Some ("Executed "
                         +:+ pretty (length (scene.actions (scene.definition sc)))
                         +:+ " actions")) w4) as (r' & w' & -> & Hs & _).
      intros [= <- _]. rewrite Hs. simpl. tauto.
    - destruct (result_init "skipped" (scene.id sc) (Some "Conditions not met") w3)
        as (r' & w' & -> & Hs & _).
      intros [= <- _]. rewrite Hs. simpl. tauto. }
  split; [| split; [| split; [| split; [| split]]]].
  - intros f w1 H. apply (Hcaught f w1 (Hprep f w1 H)).
    apply (raises_exceptions_prepare_context sc w f w1 H).
  - intros context f w1 w2 H1 H2. apply (Hcaught f w2 (Hcond _ _ _ _ H1 H2)).
    apply (raises_exceptions_evaluator _ context w1 f w2 H2).
  - exact Hcaught.
  - intros f w1 Hrun Hf. split.
    + unfold SceneExecutor.execute_scene, try_except. now rewrite Hrun, Hf.
    + destruct (run_scene_raises sc w w1 f Hrun)
        as [H | [(context & w2 & H1 & H2) | (context & w2 & w3 & H)]].
      * apply raises_exceptions_prepare_context in H. congruence.
      * apply raises_exceptions_evaluator in H2. congruence.
      * eauto.
  - intros r w1 Hrun. split; [| now apply (Hok r w1)].
    unfold SceneExecutor.execute_scene, try_except. now rewrite Hrun.
  - intros Hw. destruct (SceneExecutor.run_scene sc w) as [[r | f] w1] eqn:Erun.
    + exists r, w1. split.
      * unfold SceneExecutor.execute_scene, try_except. now rewrite Erun.
      * pose proof (Hok r w1 eq_refl) as H. simpl in *. tauto.
    + assert (Hf : is_Exception (exc_class f) = true).
      { destruct (run_scene_raises sc w w1 f Erun)
          as [H | [(context & w2 & H1 & H2) | (context & w2 & w3 & H1 & H2 & H3)]].
        - now apply raises_exceptions_prepare_context in H.
        - now apply raises_exceptions_evaluator in H2.
        - apply (actions_raise_exceptions (scene.actions (scene.definition sc)) w3 w1 f);
            [| exact H3].
          pose proof (reads_clock_prepare_context sc w) as F1. rewrite H1 in F1.
          pose proof (reads_clock_evaluator
                        (option_map scene.model_dump
                           (scene.conditions (scene.definition sc))) context w2) as F2.
          rewrite H2 in F2. simpl in F1, F2.
          eapply uncancelled_extends; [| exact Hw].
          apply only_clock_read_extends. eapply only_clock_read_trans; eauto. }
      destruct (Hcaught f w1 eq_refl Hf) as (r & w' & Hr & Hs & _).
      exists r, w'. split; [exact Hr |]. rewrite Hs. simpl. tauto.
Qed.

(** Two faults of the evaluation: a condition with an unknown type tag, and
    a comparison of a string with a number. *)
Lemma execute_scene_total_witness :
  (exists r w',
      SceneExecutor.execute_scene (scene_with_condition unknown_condition) "auto"
        (door_world "open") = (Ok r, w') /\
      ExecutionResult.status r = "failed" /\
      ExecutionResult.message r = Some "Unknown condition type: weather") /\
  (exists r w',
      SceneExecutor.execute_scene (scene_with_condition incomparable_condition) "auto"
        (door_world "open") = (Ok r, w') /\
      ExecutionResult.status r = "failed" /\
      ExecutionResult.message r =
        Some "'<' not supported between instances of 'str' and 'int'").
Proof.
  split.
  - destruct (execute_scene_total (scene_with_condition unknown_condition) "auto"
                (door_world "open")) as (_ & Hcond & _).
    eapply (Hcond _ (Fault ValueError "Unknown condition type: weather"));
      vm_compute; reflexivity.
  - destruct (execute_scene_total (scene_with_condition incomparable_condition) "auto"
                (door_world "open")) as (_ & Hcond & _).
    eapply (Hcond _ (Fault TypeError
                       "'<' not supported between instances of 'str' and 'int'"));
      vm_compute; reflexivity.
Defined.

(** C10, as stated, fails when the task is cancelled: the scheduler shuts
    down while the scene sleeps between two commands.  The command before
    the delay was sent, the [CancelledError] passes [except Exception] and
    reaches the caller, and no result is returned. *)
Lemma execute_scene_cancelled :
  SceneExecutor.execute_scene evening_scene "auto" shutdown_world
  = (Raise (Fault CancelledError ""),
     World (w_states shutdown_world) (w_clock shutdown_world) 1 (w_hal shutdown_world)
           [EControl (VStr "light_01") (VDict [("state", VStr "on")]); ESleep 5]
           (w_cancel shutdown_world)).
Proof. vm_compute. reflexivity. Qed.

(** ** The scheduler *)

(** C2 at a scene with two time triggers.  Both cron expressions are valid,
    yet after [register_scene] one schedule is active, that of the second
    trigger: every job of a scene gets the id ["scene_" + scene.id], and
    [add_job] replaces the job of the first trigger by that of the second.
    This holds whether the scene is registered on the running scheduler or
    before [start]. *)
Theorem register_scene_keeps_last_trigger :
  let running :=
    SceneScheduler.register_scene any_fields two_alarm_scene "trigger_callback"
      (SceneScheduler.start new_scheduler) in
  let queued :=
    SceneScheduler.start
      (SceneScheduler.register_scene any_fields two_alarm_scene "trigger_callback"
         new_scheduler) in
  length (SceneScheduler.valid_time_triggers any_fields two_alarm_scene) = 2 /\
  size (SceneScheduler.active_jobs running) = 1 /\
  (SceneScheduler.cron_hour ∘ SceneScheduler.job_trigger)
    <$> (SceneScheduler.active_jobs running !! "scene_scene_003") = Some "18" /\
  SceneScheduler.active_jobs queued = SceneScheduler.active_jobs running.
Proof.
  cbv zeta. repeat split; vm_compute; reflexivity.
Qed.

Section scheduler_facts.

Context {Callback : Type}.
Variable cron_fields_ok : list string -> bool.

#[local] Abbreviation sched := (SceneScheduler.t (Callback := Callback)).
#[local] Abbreviation job := (SceneScheduler.Job (Callback := Callback)).

Lemma job_of_id sc (callback : Callback) trigger j :
  job_of cron_fields_ok sc callback trigger = Some j ->
  SceneScheduler.job_id j = "scene_" +:+ scene.id sc.
Proof.
  unfold job_of. repeat case_match; try discriminate. now intros [= <-].
Qed.

Lemma register_trigger_running sc (callback : Callback) trigger (s : sched) :
  SceneScheduler.running s = true ->
  SceneScheduler.register_trigger cron_fields_ok sc callback s trigger =
  match job_of cron_fields_ok sc callback trigger with
  | Some j => put (scene.id sc) j s
  | None => s
  end.
Proof.
  intros Hrun. unfold SceneScheduler.register_trigger, job_of.
  destruct (py_eq _ (VStr "time")); [| reflexivity].
  destruct (default VNone (dict_get "cron" trigger)) as [| b | z | expr | xs | kvs] eqn:Ec;
    simpl; try (repeat case_match; reflexivity).
  destruct (String.eqb expr "") eqn:Ee; simpl.
  - apply String.eqb_eq in Ee. subst expr. reflexivity.
  - destruct (split expr) as [| f1 [| f2 [| f3 [| f4 [| f5 [| f6 r]]]]]]; try reflexivity.
    destruct (cron_fields_ok _); [| reflexivity].
    unfold SceneScheduler.add_job, put. rewrite Hrun. reflexivity.
Qed.

Lemma put_put scene_id (j j' : job) (s : sched) :
  SceneScheduler.job_id j = SceneScheduler.job_id j' ->
  put scene_id j' (put scene_id j s) = put scene_id j' s.
Proof.
  intros H. unfold put; simpl. rewrite H, !insert_insert_eq. reflexivity.
Qed.

Lemma last_job_from_id sc (callback : Callback) triggers j0 :
  SceneScheduler.job_id j0 = "scene_" +:+ scene.id sc ->
  SceneScheduler.job_id (last_job_from cron_fields_ok sc callback j0 triggers)
  = "scene_" +:+ scene.id sc.
Proof.
  revert j0. induction triggers as [| trigger r IH]; intros j0 H0; simpl; [exact H0 |].
  apply IH. destruct (job_of cron_fields_ok sc callback trigger) eqn:E; simpl; [| exact H0].
  eapply job_of_id, E.
Qed.

Lemma last_job_id sc (callback : Callback) triggers j :
  last_job cron_fields_ok sc callback triggers = Some j ->
  SceneScheduler.job_id j = "scene_" +:+ scene.id sc.
Proof.
  induction triggers as [| trigger r IH]; simpl; [discriminate |].
  destruct (job_of cron_fields_ok sc callback trigger) eqn:E; [| exact IH].
  intros [= <-]. apply last_job_from_id. eapply job_of_id, E.
Qed.

Lemma register_loop_put sc (callback : Callback) triggers (j : job) (s : sched) :
  SceneScheduler.job_id j = "scene_" +:+ scene.id sc ->
  foldl (SceneScheduler.register_trigger cron_fields_ok sc callback)
        (put (scene.id sc) j s) triggers =
  put (scene.id sc) (last_job_from cron_fields_ok sc callback j triggers) s.
Proof.
  revert j. induction triggers as [| trigger r IH]; intros j Hj; simpl; [reflexivity |].
  rewrite register_trigger_running by reflexivity.
  destruct (job_of cron_fields_ok sc callback trigger) as [j' |] eqn:E; simpl.
  - rewrite put_put by (rewrite Hj; symmetry; eapply job_of_id, E).
    apply IH. eapply job_of_id, E.
  - now apply IH.
Qed.

Lemma register_loop sc (callback : Callback) triggers (s : sched) :
  SceneScheduler.running s = true ->
  foldl (SceneScheduler.register_trigger cron_fields_ok sc callback) s triggers =
  match last_job cron_fields_ok sc callback triggers with
  | Some j => put (scene.id sc) j s
  | None => s
  end.
Proof.
  intros Hrun. revert s Hrun.
  induction triggers as [| trigger r IH]; intros s Hrun; simpl; [reflexivity |].
  rewrite register_trigger_running by assumption.
  destruct (job_of cron_fields_ok sc callback trigger) as [j |] eqn:E.
  - apply register_loop_put. eapply job_of_id, E.
  - now apply IH.
Qed.

Lemma unregister_running scene_id (s : sched) :
  SceneScheduler.running s = true ->
  SceneScheduler.running (SceneScheduler.unregister_scene scene_id s) = true.
Proof.
  intros Hrun. unfold SceneScheduler.unregister_scene.
  destruct (SceneScheduler._job_map s !! scene_id) as [id |]; [| exact Hrun].
  destruct (String.eqb id ""); [exact Hrun |].
  unfold SceneScheduler.remove_job. rewrite Hrun.
  destruct (SceneScheduler.jobstore s !! id); [reflexivity | exact Hrun].
Qed.

Lemma unregister_dom scene_id (s : sched) :
  SceneScheduler.running s = true ->
  dom (SceneScheduler.jobstore (SceneScheduler.unregister_scene scene_id s))
  ⊆ dom (SceneScheduler.jobstore s).
Proof.
  intros Hrun. unfold SceneScheduler.unregister_scene.
  destruct (SceneScheduler._job_map s !! scene_id) as [id |]; [| reflexivity].
  destruct (String.eqb id ""); [reflexivity |].
  unfold SceneScheduler.remove_job. rewrite Hrun.
  destruct (SceneScheduler.jobstore s !! id); [| reflexivity].
  simpl. apply subseteq_dom, delete_subseteq.
Qed.

(** X24. However many valid time triggers a scene has, [register_scene]
    on a running scheduler leaves no job beyond those it found, except
    the one of id ["scene_" + scene.id]. *)
Lemma register_scene_single_job sc (callback : Callback) (s : sched) :
  SceneScheduler.running s = true ->
  dom (SceneScheduler.jobstore (SceneScheduler.register_scene cron_fields_ok sc callback s))
  ⊆ dom (SceneScheduler.jobstore s) ∪ {["scene_" +:+ scene.id sc]}.
Proof.
  intros Hrun. unfold SceneScheduler.register_scene.
  rewrite register_loop by now apply unregister_running.
  pose proof (unregister_dom (scene.id sc) s Hrun) as Hu.
  destruct (last_job cron_fields_ok sc callback _) as [j |] eqn:El.
  - apply last_job_id in El. simpl. rewrite dom_insert, El.
    apply union_least; [apply union_subseteq_r |].
    etrans; [exact Hu | apply union_subseteq_l].
  - etrans; [exact Hu | apply union_subseteq_l].
Qed.

Lemma unregister_put sc (j : job) (s : sched) :
  SceneScheduler.job_id j = "scene_" +:+ scene.id sc ->
  SceneScheduler.unregister_scene (scene.id sc) (put (scene.id sc) j s) =
  {| SceneScheduler.running := true;
     SceneScheduler._pending_jobs := SceneScheduler._pending_jobs s;
     SceneScheduler.jobstore := delete (SceneScheduler.job_id j) (SceneScheduler.jobstore s);
     SceneScheduler._job_map := delete (scene.id sc) (SceneScheduler._job_map s) |}.
Proof.
  intros Hj. unfold SceneScheduler.unregister_scene, put; simpl.
  rewrite lookup_insert_eq. rewrite Hj at 1. simpl.
  unfold SceneScheduler.remove_job; simpl. rewrite lookup_insert_eq. simpl.
  now rewrite !delete_insert_eq.
Qed.

Lemma unregister_twice scene_id (s : sched) :
  SceneScheduler.running s = true ->
  SceneScheduler.unregister_scene scene_id (SceneScheduler.unregister_scene scene_id s)
  = SceneScheduler.unregister_scene scene_id s.
Proof.
  intros Hrun. unfold SceneScheduler.unregister_scene at 2.
  destruct (SceneScheduler._job_map s !! scene_id) as [id |] eqn:Em.
  - destruct (String.eqb id "") eqn:Ee.
    + unfold SceneScheduler.unregister_scene. now rewrite Em, Ee.
    + unfold SceneScheduler.remove_job. rewrite Hrun.
      destruct (SceneScheduler.jobstore s !! id) eqn:Ej.
      * unfold SceneScheduler.unregister_scene; simpl. rewrite lookup_delete_eq.
        unfold SceneScheduler.remove_job. now rewrite Em, Ee, Hrun, Ej.
      * unfold SceneScheduler.unregister_scene, SceneScheduler.remove_job.
        now rewrite Em, Ee, Hrun, Ej.
  - unfold SceneScheduler.unregister_scene. now rewrite Em.
Qed.

(** X23. Registering a scene twice on a running scheduler is registering
    it once: the second [register_scene] leaves the jobs, the job map and
    the queue as the first left them. *)
Lemma register_scene_idempotent sc (callback : Callback) (s : sched) :
  SceneScheduler.running s = true ->
  SceneScheduler.register_scene cron_fields_ok sc callback
    (SceneScheduler.register_scene cron_fields_ok sc callback s)
  = SceneScheduler.register_scene cron_fields_ok sc callback s.
Proof.
  intros Hrun. unfold SceneScheduler.register_scene.
  pose proof (unregister_running (scene.id sc) s Hrun) as Hu.
  rewrite (register_loop sc callback _ (SceneScheduler.unregister_scene (scene.id sc) s))
    by assumption.
  destruct (last_job cron_fields_ok sc callback _) as [j |] eqn:El.
  - pose proof El as Hj. apply last_job_id in Hj.
    rewrite unregister_put by assumption.
    rewrite register_loop by reflexivity. rewrite El.
    unfold put; simpl. now rewrite !insert_delete_eq.
  - rewrite unregister_twice by assumption.
    rewrite register_loop by assumption. now rewrite El.
Qed.

End scheduler_facts.

Section bus_facts.

Context {Handler : Type}.
Variable iscoroutinefunction : Handler -> bool.

#[local] Abbreviation loop := (EventBus.event_loop (Handler := Handler)).





End bus_facts.

(** ** The state store *)

Lemma dict_get_set (k k' : string) (v : value) (d : dict) :
  dict_get k (dict_set k' v d) = if String.eqb k k' then Some v else dict_get k d.
Proof.
  induction d as [| [k0 v0] r IH]; simpl.
  - destruct (String.eqb k k'); reflexivity.
  - destruct (String.eqb k' k0) eqn:E0; simpl.
    + apply String.eqb_eq in E0. subst k0.
      destruct (String.eqb k k'); reflexivity.
    + destruct (String.eqb k k0) eqn:E1; [| exact IH].
      apply String.eqb_eq in E1. subst k0.
      rewrite String.eqb_sym, E0. reflexivity.
Qed.

Lemma dict_get_update (k : string) (d other : dict) :
  dict_get k (dict_update d other) =
  match dict_get k (reverse other) with
  | Some v => Some v
  | None => dict_get k d
  end.
Proof.
  unfold dict_update. revert d.
  induction other as [| [k' v'] r IH] using rev_ind; intros d; [reflexivity |].
  rewrite foldl_app, reverse_snoc. simpl. rewrite dict_get_set.
  destruct (String.eqb k k'); [reflexivity | apply IH].
Qed.

Lemma dict_get_In (k : string) (v : value) (d : dict) :
  dict_get k d = Some v -> In (k, v) d.
Proof.
  induction d as [| [k' v'] r IH]; simpl; [discriminate |].
  destruct (String.eqb k k') eqn:E.
  - apply String.eqb_eq in E. intros [= ->]. left. congruence.
  - intros H. right. auto.
Qed.

Lemma dict_get_None (k : string) (d : dict) :
  dict_get k d = None -> ~ In k (map fst d).
Proof.
  induction d as [| [k' v'] r IH]; simpl; [tauto |].
  destruct (String.eqb k k') eqn:E; [discriminate |].
  apply String.eqb_neq in E. intros H [-> | Hin]; [congruence | exact (IH H Hin)].
Qed.

(** In a dict, which holds a key once, the first binding of a key is its
    last. *)
Lemma dict_get_reverse (k : string) (d : dict) :
  List.NoDup (map fst d) -> dict_get k (reverse d) = dict_get k d.
Proof.
  induction d as [| [k' v'] r IH]; [reflexivity |].
  simpl. intros Hnd. apply List.NoDup_cons_iff in Hnd as [Hk Hr].
  rewrite reverse_cons.
  assert (Happ : forall a b, dict_get k (a ++ b)%list =
                             match dict_get k a with Some v => Some v | None => dict_get k b end).
  { intros a b. induction a as [| [k0 v0] a IHa]; simpl; [reflexivity |].
    destruct (String.eqb k k0); [reflexivity | exact IHa]. }
  rewrite Happ, (IH Hr). simpl.
  destruct (String.eqb k k') eqn:E.
  - apply String.eqb_eq in E. subst k'.
    destruct (dict_get k r) as [v |] eqn:Eg; [| reflexivity].
    apply dict_get_In in Eg. exfalso. apply Hk.
    change k with (fst (k, v)). now apply in_map.
  - now destruct (dict_get k r).
Qed.

(** X1. [set_state] caches the object it is given and stamps that object
    itself.  Afterwards [get_state] gives the object, which reads as it
    did but for the time of the call; every other object reads as it did,
    and every other device is cached with the object it had.  So a device
    that was cached with the same object reads the new stamp too, and a
    device cached with another object does not change.  The number of
    devices grows by one exactly when the device was not cached. *)
Theorem set_state_get_state (now : nat) (device_id : string) (o : StateManager.ref)
        (st : DeviceState) (self self' : StateManager.t) (h h' : StateManager.heap) :
  StateManager.read h o = Some st ->
  StateManager.set_state now device_id o self h = (self', h') ->
  StateManager.get_state device_id self' = Some o /\
  StateManager.read h' o
  = Some {| state := state st; attributes := attributes st; last_updated := now |} /\
  (forall o' : StateManager.ref, o' <> o -> StateManager.read h' o' = StateManager.read h o') /\
  (forall other : string,
      other <> device_id ->
      StateManager.get_state other self' = StateManager.get_state other self) /\
  StateManager.get_device_count self'
  = (if StateManager.has_state device_id self
     then StateManager.get_device_count self
     else S (StateManager.get_device_count self)).
Proof.
  unfold StateManager.set_state. intros Hread [= <- <-].
  unfold StateManager.get_state, StateManager.get_device_count, StateManager.has_state,
    StateManager.read in *. simpl.
  split; [apply lookup_insert_eq |]. split; [| split; [| split]].
  - rewrite lookup_alter_eq.
    destruct (StateManager.objects h !! o) as [obj |]; [| discriminate]. simpl.
    destruct (StateManager.dicts h !! StateManager.o_attributes obj) as [d |];
      [| discriminate].
    now injection Hread as <-.
  - intros o' Hne. now rewrite lookup_alter_ne.
  - intros other Hne. now apply lookup_insert_ne.
  - destruct (self !! device_id) as [old |] eqn:E.
    + rewrite bool_decide_eq_true_2 by eauto.
      apply map_size_insert_Some. eauto.
    + rewrite bool_decide_eq_false_2 by (intros [? ?]; congruence).
      now apply map_size_insert_None.
Qed.

(** The object of the light is cached a second time, as [lamp]: the light
    reads the new stamp, the door does not change. *)
Lemma set_state_get_state_witness :
  exists (self' : StateManager.t) (h' : StateManager.heap),
    StateManager.set_state 7 "lamp" 2%positive two_devices two_objects = (self', h') /\
    StateManager.get_state "lamp" self' = Some 2%positive /\
    StateManager.get_state "light_01" self' = Some 2%positive /\
    StateManager.read h' 2%positive
    = Some {| state := "on";
              attributes := [("brightness", VInt 80); ("mode", VStr "auto")];
              last_updated := 7 |} /\
    StateManager.read h' 1%positive = Some closed_door /\
    StateManager.get_device_count self' = 3.
Proof.
  eexists _, _. split; [reflexivity |].
  destruct (set_state_get_state 7 "lamp" 2%positive
              {| state := "on";
                 attributes := [("brightness", VInt 80); ("mode", VStr "auto")];
                 last_updated := 0 |}
              two_devices _ two_objects _ eq_refl eq_refl)
    as (Hget & Hread & Hobj & Hother & Hcount).
  split; [exact Hget |].
  split; [rewrite Hother by discriminate; reflexivity |].
  split; [exact Hread |].
  split; [rewrite Hobj by discriminate; reflexivity |].
  rewrite Hcount. vm_compute. reflexivity.
Defined.

(** X2. [update_state_attributes] on a device that is not cached raises
    [StateManagerError] naming the device, before anything is written.  On
    a cached device it writes into the cached object: the object keeps its
    state field, is stamped with the time of the call, and its dict is
    updated in place, a key of the update taking the value given and every
    other key keeping its value.  Every other object and every other dict
    is as it was; the devices cached stay the same.  So the change shows
    under every device id cached with this object and on every object that
    refers to this dict, and nowhere else. *)
Theorem update_state_attributes_merges (now : nat) (device_id : string)
        (attributes_ : dict) (self : StateManager.t) (h : StateManager.heap) :
  match StateManager.update_state_attributes now device_id attributes_ self h with
  | inl e =>
      StateManager.get_state device_id self = None /\
      e = StateManager.StateManagerError ("Device state not found: " +:+ device_id)
  | inr h' =>
      exists o : StateManager.ref,
        StateManager.get_state device_id self = Some o /\
        (forall old : DeviceState,
            StateManager.read h o = Some old ->
            exists new : DeviceState,
              StateManager.read h' o = Some new /\
              state new = state old /\
              last_updated new = now /\
              attributes new = dict_update (attributes old) attributes_ /\
              (List.NoDup (map fst attributes_) ->
               forall k : string,
                 dict_get k (attributes new) =
                 match dict_get k attributes_ with
                 | Some v => Some v
                 | None => dict_get k (attributes old)
                 end)) /\
        (forall o' : StateManager.ref,
            o' <> o -> StateManager.objects h' !! o' = StateManager.objects h !! o') /\
        (forall (obj : StateManager.object) (a : StateManager.ref),
            StateManager.objects h !! o = Some obj ->
            a <> StateManager.o_attributes obj ->
            StateManager.dicts h' !! a = StateManager.dicts h !! a)
  end.
Proof.
  unfold StateManager.update_state_attributes, StateManager.get_state.
  destruct (self !! device_id) as [o |] eqn:E; [| split; reflexivity].
  exists o. split; [reflexivity |]. unfold StateManager.read. simpl.
  split; [| split].
  - intros old. rewrite lookup_alter_eq.
    destruct (StateManager.objects h !! o) as [obj |]; [| discriminate]. simpl.
    rewrite lookup_alter_eq.
    destruct (StateManager.dicts h !! StateManager.o_attributes obj) as [d |];
      [| discriminate]. simpl.
    intros [= <-]. eexists. split; [reflexivity |]. simpl.
    split; [reflexivity |]. split; [reflexivity |]. split; [reflexivity |].
    intros Hnd k. rewrite dict_get_update. now rewrite dict_get_reverse.
  - intros o' Hne. now rewrite lookup_alter_ne.
  - intros obj a -> Hne. now rewrite lookup_alter_ne.
Qed.

(** The light is cached as [light_01] and as [lamp]: an update of [lamp]
    shows on [light_01], the door does not change, and an update of a
    device that is not cached raises. *)
Lemma update_state_attributes_merges_witness :
  (exists (h' : StateManager.heap) (new : DeviceState),
      StateManager.update_state_attributes 9 "lamp"
        [("brightness", VInt 30); ("color", VStr "warm")] light_cached_twice two_objects
      = inr h' /\
      StateManager.get_state "light_01" light_cached_twice = Some 2%positive /\
      StateManager.read h' 2%positive = Some new /\
      state new = "on" /\
      last_updated new = 9 /\
      dict_get "brightness" (attributes new) = Some (VInt 30) /\
      dict_get "color" (attributes new) = Some (VStr "warm") /\
      dict_get "mode" (attributes new) = Some (VStr "auto") /\
      StateManager.read h' 1%positive = Some closed_door) /\
  StateManager.update_state_attributes 9 "light_09" [("brightness", VInt 30)]
    two_devices two_objects
  = inl (StateManager.StateManagerError "Device state not found: light_09").
Proof.
  split.
  - pose proof (update_state_attributes_merges 9 "lamp"
                  [("brightness", VInt 30); ("color", VStr "warm")]
                  light_cached_twice two_objects) as H.
    destruct (StateManager.update_state_attributes 9 "lamp" _ light_cached_twice two_objects)
      as [e | h'] eqn:E; [vm_compute in E; discriminate |].
    destruct H as (o & Ho & Hnew & Hobj & Hdict).
    vm_compute in Ho. injection Ho as <-.
    destruct (Hnew {| state := "on";
                      attributes := [("brightness", VInt 80); ("mode", VStr "auto")];
                      last_updated := 0 |} eq_refl)
      as (new & Hread & Hstate & Hstamp & _ & Hattr).
    assert (Hnd : List.NoDup (map fst [("brightness", VInt 30); ("color", VStr "warm")])).
    { simpl. repeat constructor; simpl; intuition discriminate. }
    specialize (Hattr Hnd).
    exists h', new. split; [reflexivity |]. split; [reflexivity |].
    split; [exact Hread |]. split; [exact Hstate |]. split; [exact Hstamp |].
    split; [exact (Hattr "brightness") |].
    split; [exact (Hattr "color") |].
    split; [exact (Hattr "mode") |].
    unfold StateManager.read.
    rewrite (Hobj 1%positive) by discriminate.
    change (StateManager.objects two_objects !! 1%positive)
      with (Some {| StateManager.o_state := "closed";
                    StateManager.o_attributes := 3%positive;
                    StateManager.o_last_updated := 0 |}).
    cbn [StateManager.o_attributes].
    rewrite (Hdict _ 3%positive eq_refl) by discriminate. reflexivity.
  - pose proof (update_state_attributes_merges 9 "light_09"
                  [("brightness", VInt 30)] two_devices two_objects) as H.
    destruct (StateManager.update_state_attributes 9 "light_09" _ two_devices two_objects)
      as [e | h'] eqn:E; [| vm_compute in E; discriminate].
    destruct H as [_ ->]. reflexivity.
Defined.

(** X3. After [remove_state] the device is not cached: [get_state] gives
    [None], [has_state] is false and [update_state_attributes] raises.
    The other devices stay, removing twice is removing once, and the
    number of devices drops by one exactly when the device was cached. *)
Theorem remove_state_forgets (device_id : string) (self : StateManager.t) :
  let self' := StateManager.remove_state device_id self in
  StateManager.get_state device_id self' = None /\
  StateManager.has_state device_id self' = false /\
  (forall (now : nat) (attributes_ : dict) (h : StateManager.heap),
      StateManager.update_state_attributes now device_id attributes_ self' h
      = inl (StateManager.StateManagerError ("Device state not found: " +:+ device_id))) /\
  (forall other : string,
      other <> device_id ->
      StateManager.get_state other self' = StateManager.get_state other self) /\
  StateManager.remove_state device_id self' = self' /\
  StateManager.get_device_count self'
  = (if StateManager.has_state device_id self
     then Nat.pred (StateManager.get_device_count self)
     else StateManager.get_device_count self).
Proof.
  cbv zeta.
  assert (Hrm : StateManager.remove_state device_id self = delete device_id self).
  { unfold StateManager.remove_state.
    destruct (self !! device_id) eqn:E; [reflexivity |]. symmetry. now apply delete_id. }
  assert (Hnone : StateManager.remove_state device_id self !! device_id = None).
  { rewrite Hrm. apply lookup_delete_eq. }
  unfold StateManager.get_state, StateManager.has_state,
    StateManager.update_state_attributes, StateManager.get_device_count.
  rewrite Hnone.
  split; [reflexivity |].
  split; [apply bool_decide_eq_false_2; intros [? ?]; discriminate |].
  split; [reflexivity |]. split; [| split].
  - intros other Hne. rewrite Hrm. now apply lookup_delete_ne.
  - unfold StateManager.remove_state at 1. now rewrite Hnone.
  - rewrite Hrm. destruct (self !! device_id) as [old |] eqn:E.
    + rewrite bool_decide_eq_true_2 by eauto. apply map_size_delete_Some. eauto.
    + rewrite bool_decide_eq_false_2 by (intros [? ?]; congruence).
      now apply map_size_delete_None.
Qed.

Lemma remove_state_forgets_witness :
  StateManager.get_state "d1" (StateManager.remove_state "d1" two_devices) = None /\
  StateManager.get_state "light_01" (StateManager.remove_state "d1" two_devices)
  = StateManager.get_state "light_01" two_devices /\
  StateManager.get_device_count (StateManager.remove_state "d1" two_devices) = 1.
Proof.
  destruct (remove_state_forgets "d1" two_devices) as (Hget & _ & _ & Hother & _ & Hcount).
  split; [exact Hget |]. split; [apply Hother; discriminate |].
  rewrite Hcount. vm_compute. reflexivity.
Defined.

(** ** The event bus: subscriptions *)

Section subscriptions.

Context {Handler : Type} `{EqDecision Handler}.

#[local] Abbreviation bus := (EventBus.t (Handler := Handler)).

Lemma list_remove_first (h : Handler) (before after : list Handler) :
  ~ In h before ->
  EventBus.list_remove h (before ++ h :: after) = (before ++ after)%list.
Proof.
  induction before as [| x r IH]; simpl; intros Hn.
  - now rewrite decide_True.
  - rewrite decide_False by (intros ->; apply Hn; now left).
    f_equal. apply IH. tauto.
Qed.

Lemma list_remove_absent (h : Handler) (hs : list Handler) :
  ~ In h hs -> EventBus.list_remove h hs = hs.
Proof.
  induction hs as [| x r IH]; simpl; intros Hn; [reflexivity |].
  rewrite decide_False by (intros ->; apply Hn; now left).
  f_equal. apply IH. tauto.
Qed.

Lemma get_event_types_In (self : bus) (event_type : string) :
  In event_type (EventBus.get_event_types self) <->
  is_Some (EventBus._handlers self !! event_type).
Proof.
  unfold EventBus.get_event_types. rewrite in_map_iff. split.
  - intros ([e hs] & <- & Hin). apply list_elem_of_In, elem_of_map_to_list in Hin.
    simpl. eauto.
  - intros [hs Hhs]. exists (event_type, hs). split; [reflexivity |].
    now apply list_elem_of_In, elem_of_map_to_list.
Qed.

(** X5. [unsubscribe] removes the earliest subscription of the handler
    to the event type and keeps the others in their order: a handler
    subscribed twice is still called once.  The handlers of the other
    event types stay. *)
Theorem unsubscribe_removes_first (self : bus) (event_type : string)
        (handler : Handler) (before after : list Handler) :
  EventBus._handlers self !! event_type = Some (before ++ handler :: after)%list ->
  ~ In handler before ->
  EventBus._handlers (EventBus.unsubscribe event_type handler self) !! event_type
  = Some (before ++ after)%list /\
  EventBus.get_handler_count (EventBus.unsubscribe event_type handler self) event_type
  = Nat.pred (EventBus.get_handler_count self event_type) /\
  (forall other : string,
      other <> event_type ->
      EventBus._handlers (EventBus.unsubscribe event_type handler self) !! other
      = EventBus._handlers self !! other).
Proof.
  intros Hhs Hn. unfold EventBus.unsubscribe, EventBus.get_handler_count.
  rewrite Hhs. simpl. rewrite lookup_insert_eq, list_remove_first by assumption.
  simpl. split; [reflexivity |]. split.
  - rewrite !length_app. simpl. lia.
  - intros other Hne. now rewrite lookup_insert_ne by congruence.
Qed.

(** X6. [unsubscribe] of a handler that is not subscribed to the event
    type, or of an event type nobody subscribed to, changes nothing. *)
Theorem unsubscribe_unknown (self : bus) (event_type : string) (handler : Handler) :
  ~ In handler (default [] (EventBus._handlers self !! event_type)) ->
  EventBus.unsubscribe event_type handler self = self.
Proof.
  intros Hn. unfold EventBus.unsubscribe.
  destruct (EventBus._handlers self !! event_type) as [hs |] eqn:E; [| reflexivity].
  simpl in Hn. rewrite list_remove_absent by assumption.
  destruct self as [m]. simpl in *. f_equal. now apply insert_id.
Qed.

(** X7. An event type, once subscribed to, stays listed: [unsubscribe]
    never takes an event type out of [get_event_types], so after the
    only handler of a type is unsubscribed the type is still listed,
    with no handler. *)
Theorem unsubscribe_keeps_event_types (self : bus) (event_type : string)
        (handler : Handler) :
  (forall listed : string,
      In listed (EventBus.get_event_types (EventBus.unsubscribe event_type handler self))
      <-> In listed (EventBus.get_event_types self)) /\
  (EventBus._handlers self !! event_type = Some [handler] ->
   In event_type
      (EventBus.get_event_types (EventBus.unsubscribe event_type handler self)) /\
   EventBus.get_handler_count (EventBus.unsubscribe event_type handler self) event_type
   = 0).
Proof.
  split.
  - intros listed. rewrite !get_event_types_In. unfold EventBus.unsubscribe.
    destruct (EventBus._handlers self !! event_type) as [hs |] eqn:E; [| reflexivity].
    simpl. destruct (decide (listed = event_type)) as [-> | Hne].
    + rewrite lookup_insert_eq, E. split; eauto.
    + now rewrite lookup_insert_ne by congruence.
  - intros Hone. rewrite get_event_types_In.
    unfold EventBus.unsubscribe, EventBus.get_handler_count. rewrite Hone. simpl.
    rewrite lookup_insert_eq, decide_True by reflexivity. split; [eauto | reflexivity].
Qed.

End subscriptions.

Section publishing.

Context {Handler : Type}.
Variable iscoroutinefunction : Handler -> bool.

#[local] Abbreviation bus := (EventBus.t (Handler := Handler)).

(** The handlers [publish] reads for an event type. *)
Lemma publish_tasks (self : bus) event_type data lp :
  EventBus.publish iscoroutinefunction self event_type data lp =
  {| EventBus.scheduled :=
       (EventBus.scheduled lp
        ++ map (EventBus.task_for iscoroutinefunction data)
               (default [] (EventBus._handlers self !! event_type)))%list;
     EventBus.begun := EventBus.begun lp |}.
Proof.
  unfold EventBus.publish.
  generalize (default [] (EventBus._handlers self !! event_type)). intros hs.
  revert lp. induction hs as [| h hs IH]; intros lp; simpl.
  - rewrite app_nil_r. now destruct lp.
  - rewrite IH. simpl. now rewrite <- app_assoc.
Qed.

(** X4. A handler that subscribes to an event type is called last: a
    [publish] of that type creates the tasks it created before, then the
    task of the new handler.  The handler count of the type grows by
    one, also when the handler was subscribed already; the other event
    types are published as before. *)
Theorem subscribe_appends (self : bus) (event_type : string) (handler : Handler)
        (data : value) (lp : EventBus.event_loop) :
  EventBus.publish iscoroutinefunction
    (EventBus.subscribe event_type handler self) event_type data lp
  = EventBus.create_task (EventBus.task_for iscoroutinefunction data handler)
      (EventBus.publish iscoroutinefunction self event_type data lp) /\
  EventBus.get_handler_count (EventBus.subscribe event_type handler self) event_type
  = S (EventBus.get_handler_count self event_type) /\
  (forall other : string,
      other <> event_type ->
      EventBus.publish iscoroutinefunction
        (EventBus.subscribe event_type handler self) other data lp
      = EventBus.publish iscoroutinefunction self other data lp).
Proof.
  rewrite !publish_tasks. unfold EventBus.get_handler_count, EventBus.subscribe,
    EventBus.create_task. simpl.
  rewrite lookup_insert_eq. simpl. split; [| split].
  - now rewrite map_app, app_assoc.
  - rewrite length_app. simpl. lia.
  - intros other Hne. rewrite !publish_tasks. simpl.
    now rewrite lookup_insert_ne by congruence.
Qed.

End publishing.

Lemma subscribe_appends_witness :
  EventBus.publish is_coroutine (EventBus.subscribe "scene_triggered" "log_event" sample_bus)
    "scene_triggered" VNone idle_loop
  = {| EventBus.scheduled := [EventBus.ToThread "log_event" VNone;
                              EventBus.Coroutine "push_to_clients" VNone;
                              EventBus.ToThread "log_event" VNone];
       EventBus.begun := [] |} /\
  EventBus.publish is_coroutine (EventBus.subscribe "scene_triggered" "log_event" sample_bus)
    "scene_failed" VNone idle_loop
  = idle_loop.
Proof.
  destruct (subscribe_appends is_coroutine sample_bus "scene_triggered" "log_event"
              VNone idle_loop) as (Hlast & _ & Hother).
  split.
  - rewrite Hlast. vm_compute. reflexivity.
  - rewrite Hother by discriminate. vm_compute. reflexivity.
Defined.

Lemma unsubscribe_removes_first_witness :
  EventBus._handlers
    (EventBus.unsubscribe "scene_triggered" "log_event"
       (EventBus.subscribe "scene_triggered" "log_event" sample_bus))
  !! "scene_triggered"
  = Some ["push_to_clients"; "log_event"].
Proof.
  refine (proj1 (unsubscribe_removes_first
                   (EventBus.subscribe "scene_triggered" "log_event" sample_bus)
                   "scene_triggered" "log_event" [] ["push_to_clients"; "log_event"] _ _)).
  - vm_compute. reflexivity.
  - simpl. tauto.
Defined.

Lemma unsubscribe_unknown_witness :
  EventBus.unsubscribe "scene_triggered" "send_mail" sample_bus = sample_bus /\
  EventBus.unsubscribe "scene_failed" "log_event" sample_bus = sample_bus.
Proof.
  split; apply unsubscribe_unknown; vm_compute; intuition discriminate.
Defined.

Lemma unsubscribe_keeps_event_types_witness :
  In "device_added"
     (EventBus.get_event_types
        (EventBus.unsubscribe "device_added" "log_event"
           (EventBus.subscribe "device_added" "log_event" EventBus.init))) /\
  EventBus.get_handler_count
    (EventBus.unsubscribe "device_added" "log_event"
       (EventBus.subscribe "device_added" "log_event" EventBus.init)) "device_added" = 0.
Proof.
  apply (proj2 (unsubscribe_keeps_event_types
                  (EventBus.subscribe "device_added" "log_event" EventBus.init)
                  "device_added" "log_event")).
  vm_compute. reflexivity.
Defined.

(** ** The scheduler: what a registration leaves *)

Lemma scene_job_inj (a b : string) : "scene_" +:+ a = "scene_" +:+ b -> a = b.
Proof. simpl. intros H. now injection H. Qed.

Lemma scene_job_nonempty (a : string) : String.eqb ("scene_" +:+ a) "" = false.
Proof. reflexivity. Qed.

Lemma in_step_started {Callback : Type} :
  in_step (SceneScheduler.start (SceneScheduler.init (Callback := Callback))).
Proof.
  split; [reflexivity |]. simpl. split; [| split].
  - intros x id Hx. now rewrite lookup_empty in Hx.
  - intros x. rewrite !lookup_empty. split; intros [? Hx]; discriminate.
  - intros id [j Hj]. now rewrite lookup_empty in Hj.
Qed.

Section registrations.

Context {Callback : Type}.
Variable cron_fields_ok : list string -> bool.

#[local] Abbreviation sched := (SceneScheduler.t (Callback := Callback)).
#[local] Abbreviation job := (SceneScheduler.Job (Callback := Callback)).

(** The triggers [valid_time_triggers] keeps are those the loop of
    [register_scene] schedules a job for. *)
Lemma job_of_valid sc (callback : Callback) (trigger : dict) :
  is_Some (job_of cron_fields_ok sc callback trigger) <->
  py_eq (default VNone (dict_get "type" trigger)) (VStr "time") = true /\
  SceneScheduler.valid_cron cron_fields_ok (default VNone (dict_get "cron" trigger)) = true.
Proof.
  unfold job_of, SceneScheduler.valid_cron.
  assert (Hno : forall P : Prop, is_Some (@None job) <-> P /\ false = true).
  { intros P. split; [intros [? H]; discriminate | intros [_ H]; discriminate]. }
  destruct (py_eq _ (VStr "time"));
    [| split; [intros [? H]; discriminate | intros [H _]; discriminate]].
  destruct (default VNone (dict_get "cron" trigger)) as [| b | z | expr | xs | kvs];
    try apply Hno.
  destruct (split expr) as [| f1 [| f2 [| f3 [| f4 [| f5 [| f6 r]]]]]]; simpl;
    try apply Hno.
  destruct (cron_fields_ok [f1; f2; f3; f4; f5]); [| apply Hno].
  split; eauto.
Qed.

Lemma last_job_from_default sc (callback : Callback) (j0 : job) (triggers : list dict) :
  last_job_from cron_fields_ok sc callback j0 triggers
  = default j0 (last_job cron_fields_ok sc callback triggers).
Proof.
  revert j0. induction triggers as [| trigger r IH]; intros j0; simpl; [reflexivity |].
  unfold last_job_from in *. simpl. rewrite IH.
  destruct (job_of cron_fields_ok sc callback trigger) as [j |]; simpl; [| reflexivity].
  now rewrite IH.
Qed.

(** The job the loop leaves is that of the last valid time trigger. *)
Lemma last_job_last_valid sc (callback : Callback) (triggers : list dict) :
  last_job cron_fields_ok sc callback triggers =
  last (filter (fun trigger : dict =>
                  py_eq (default VNone (dict_get "type" trigger)) (VStr "time") = true /\
                  SceneScheduler.valid_cron cron_fields_ok
                    (default VNone (dict_get "cron" trigger)) = true) triggers)
  ≫= job_of cron_fields_ok sc callback.
Proof.
  induction triggers as [| trigger r IH]; [reflexivity |].
  cbn [last_job]. rewrite filter_cons.
  pose proof (job_of_valid sc callback trigger) as Hv.
  destruct (job_of cron_fields_ok sc callback trigger) as [j |] eqn:Hj.
  - rewrite last_job_from_default, IH.
    rewrite decide_True by (apply Hv; eauto). rewrite last_cons.
    destruct (last (filter _ r)) as [t |] eqn:Elast; simpl; [| now rewrite Hj].
    assert (Ht : is_Some (job_of cron_fields_ok sc callback t)).
    { apply job_of_valid.
      apply last_Some in Elast as [l' Hl'].
      assert (Hin : t ∈ filter
                      (fun trigger : dict =>
                         py_eq (default VNone (dict_get "type" trigger)) (VStr "time")
                         = true /\
                         SceneScheduler.valid_cron cron_fields_ok
                           (default VNone (dict_get "cron" trigger)) = true) r).
      { rewrite Hl'. apply elem_of_app. right. now left. }
      now apply list_elem_of_filter in Hin as [Hin _]. }
    destruct Ht as [jt Hjt]. now rewrite Hjt.
  - rewrite decide_False by (intros Hp; apply Hv in Hp as [? ?]; discriminate).
    exact IH.
Qed.

(** On a scheduler in step, [unregister_scene] takes the job and the
    listing of the scene away, whether or not it was registered. *)
Lemma unregister_in_step scene_id (s : sched) :
  in_step s ->
  SceneScheduler.unregister_scene scene_id s =
  {| SceneScheduler.running := true;
     SceneScheduler._pending_jobs := SceneScheduler._pending_jobs s;
     SceneScheduler.jobstore := delete ("scene_" +:+ scene_id) (SceneScheduler.jobstore s);
     SceneScheduler._job_map := delete scene_id (SceneScheduler._job_map s) |}.
Proof.
  intros (Hrun & Hid & Hsync & _). unfold SceneScheduler.unregister_scene.
  destruct (SceneScheduler._job_map s !! scene_id) as [id |] eqn:Em.
  - pose proof (Hid _ _ Em) as ->. rewrite scene_job_nonempty.
    unfold SceneScheduler.remove_job. rewrite Hrun.
    destruct (proj1 (Hsync scene_id) (ex_intro _ _ Em)) as [j Hj]. rewrite Hj.
    reflexivity.
  - assert (Hj : SceneScheduler.jobstore s !! ("scene_" +:+ scene_id) = None).
    { destruct (SceneScheduler.jobstore s !! ("scene_" +:+ scene_id)) eqn:E; [| reflexivity].
      destruct (proj2 (Hsync scene_id) (ex_intro _ _ E)) as [? ?]. congruence. }
    rewrite !delete_id by assumption. destruct s. simpl in *. now subst.
Qed.

Lemma in_step_unregister scene_id (s : sched) :
  in_step s -> in_step (SceneScheduler.unregister_scene scene_id s).
Proof.
  intros Hs. rewrite unregister_in_step by assumption.
  destruct Hs as (Hrun & Hid & Hsync & Hform).
  split; [reflexivity |]. simpl. split; [| split].
  - intros x id Hx. apply lookup_delete_Some in Hx as [_ Hx]. eauto.
  - intros x. destruct (decide (x = scene_id)) as [-> | Hne].
    + rewrite !lookup_delete_eq. split; intros [? [=]].
    + rewrite !lookup_delete_ne; [apply Hsync | | congruence].
      intros Heq. apply scene_job_inj in Heq. congruence.
  - intros id [j Hj]. apply lookup_delete_Some in Hj as [_ Hj]. eauto.
Qed.

Lemma in_step_put sc (j : job) (s : sched) :
  SceneScheduler.job_id j = "scene_" +:+ scene.id sc ->
  in_step s -> in_step (put (scene.id sc) j s).
Proof.
  intros Hj (Hrun & Hid & Hsync & Hform).
  split; [reflexivity |]. unfold put; simpl. rewrite Hj. split; [| split].
  - intros x id Hx. apply lookup_insert_Some in Hx as [[<- <-] | [_ Hx]]; eauto.
  - intros x. destruct (decide (x = scene.id sc)) as [-> | Hne].
    + rewrite !lookup_insert_eq. split; eauto.
    + rewrite !lookup_insert_ne; [apply Hsync | | congruence].
      intros Heq. apply scene_job_inj in Heq. congruence.
  - intros id [j' Hj']. apply lookup_insert_Some in Hj' as [[<- _] | [_ Hj']]; eauto.
Qed.

(** What [register_scene] does on a scheduler in step. *)
Lemma register_in_step sc (callback : Callback) (s : sched) :
  in_step s ->
  SceneScheduler.register_scene cron_fields_ok sc callback s =
  match last_job cron_fields_ok sc callback (scene.triggers (scene.definition sc)) with
  | Some j => put (scene.id sc) j (SceneScheduler.unregister_scene (scene.id sc) s)
  | None => SceneScheduler.unregister_scene (scene.id sc) s
  end.
Proof.
  intros Hs. unfold SceneScheduler.register_scene.
  apply register_loop, unregister_running, Hs.
Qed.

Lemma in_step_register sc (callback : Callback) (s : sched) :
  in_step s -> in_step (SceneScheduler.register_scene cron_fields_ok sc callback s).
Proof.
  intros Hs. rewrite register_in_step by assumption.
  pose proof (in_step_unregister (scene.id sc) s Hs) as Hu.
  destruct (last_job cron_fields_ok sc callback _) as [j |] eqn:El; [| exact Hu].
  apply in_step_put; [| exact Hu]. eapply last_job_id, El.
Qed.

(** X8. The job map and the job store of a running scheduler stay in
    step.  On the scheduler as started, and from then on after every
    [register_scene] and [unregister_scene]: a listed scene maps to the
    job id ["scene_" + id], the scenes [get_scheduled_scenes] lists are
    exactly those with a job in the store, and the store holds no other
    job. *)
Theorem scheduler_in_step :
  in_step (SceneScheduler.start (SceneScheduler.init (Callback := Callback))) /\
  (forall (s : sched) (sc : scene.Scene) (callback : Callback),
      in_step s -> in_step (SceneScheduler.register_scene cron_fields_ok sc callback s)) /\
  (forall (s : sched) (scene_id : string),
      in_step s -> in_step (SceneScheduler.unregister_scene scene_id s)) /\
  (forall (s : sched) (scene_id : string),
      in_step s ->
      (In scene_id (SceneScheduler.get_scheduled_scenes s) <->
       is_Some (SceneScheduler.active_jobs s !! ("scene_" +:+ scene_id)))).
Proof.
  split; [| split; [| split]].
  - apply in_step_started.
  - intros s sc callback. apply in_step_register.
  - intros s scene_id. apply in_step_unregister.
  - intros s scene_id (Hrun & _ & Hsync & _).
    unfold SceneScheduler.active_jobs, SceneScheduler.start. rewrite Hrun.
    rewrite <- Hsync. unfold SceneScheduler.get_scheduled_scenes.
    rewrite in_map_iff. split.
    + intros ([x id] & <- & Hin). apply list_elem_of_In, elem_of_map_to_list in Hin.
      simpl. eauto.
    + intros [id Hid]. exists (scene_id, id). split; [reflexivity |].
      now apply list_elem_of_In, elem_of_map_to_list.
Qed.

(** X9. After [register_scene] on a scheduler in step the scene has the
    job of its last valid time trigger: the five fields of that cron
    expression, the callback, the scene as argument, under the id
    ["scene_" + id].  A scene with no valid time trigger is left
    unregistered, with no job. *)
Theorem register_scene_last_valid_trigger (s : sched) (sc : scene.Scene)
        (callback : Callback) :
  in_step s ->
  let s' := SceneScheduler.register_scene cron_fields_ok sc callback s in
  match last (SceneScheduler.valid_time_triggers cron_fields_ok sc) with
  | Some trigger =>
      exists (expr minute hour day month day_of_week : string),
        dict_get "cron" trigger = Some (VStr expr) /\
        split expr = [minute; hour; day; month; day_of_week] /\
        SceneScheduler.active_jobs s' !! ("scene_" +:+ scene.id sc)
        = Some {| SceneScheduler.job_id := "scene_" +:+ scene.id sc;
                  SceneScheduler.job_func := callback;
                  SceneScheduler.job_trigger :=
                    {| SceneScheduler.cron_minute := minute;
                       SceneScheduler.cron_hour := hour;
                       SceneScheduler.cron_day := day;
                       SceneScheduler.cron_month := month;
                       SceneScheduler.cron_day_of_week := day_of_week |};
                  SceneScheduler.job_args := sc |} /\
        In (scene.id sc) (SceneScheduler.get_scheduled_scenes s')
  | None =>
      SceneScheduler.active_jobs s' !! ("scene_" +:+ scene.id sc) = None /\
      ~ In (scene.id sc) (SceneScheduler.get_scheduled_scenes s')
  end.
Proof.
  intros Hs. cbv zeta.
  assert (Hlisted : forall s0 : sched,
             In (scene.id sc) (SceneScheduler.get_scheduled_scenes s0) <->
             is_Some (SceneScheduler._job_map s0 !! scene.id sc)).
  { intros s0. unfold SceneScheduler.get_scheduled_scenes. rewrite in_map_iff. split.
    - intros ([x id] & <- & Hin). apply list_elem_of_In, elem_of_map_to_list in Hin.
      simpl. eauto.
    - intros [id Hid]. exists (scene.id sc, id). split; [reflexivity |].
      now apply list_elem_of_In, elem_of_map_to_list. }
  pose proof (register_in_step sc callback s Hs) as Hreg.
  rewrite last_job_last_valid, unregister_in_step in Hreg by assumption.
  unfold SceneScheduler.valid_time_triggers.
  destruct (last (filter _ _)) as [trigger |] eqn:Elast; simpl in Hreg.
  - assert (Hin : trigger ∈ filter
                    (fun trigger : dict =>
                       py_eq (default VNone (dict_get "type" trigger)) (VStr "time") = true /\
                       SceneScheduler.valid_cron cron_fields_ok
                         (default VNone (dict_get "cron" trigger)) = true)
                    (scene.triggers (scene.definition sc))).
    { apply last_Some in Elast as [l' ->]. apply elem_of_app. right. now left. }
    apply list_elem_of_filter in Hin as [[Htime Hvalid] _].
    unfold job_of in Hreg. rewrite Htime in Hreg.
    unfold SceneScheduler.valid_cron in Hvalid.
    destruct (dict_get "cron" trigger) as [cron |] eqn:Ec; simpl in *; [| discriminate].
    destruct cron as [| b | z | expr | xs | kvs]; try discriminate.
    destruct (split expr) as [| f1 [| f2 [| f3 [| f4 [| f5 [| f6 r]]]]]] eqn:Es;
      simpl in Hvalid; try discriminate.
    rewrite Hvalid in Hreg.
    exists expr, f1, f2, f3, f4, f5. split; [reflexivity |]. split; [exact Es |].
    rewrite Hlisted, Hreg.
    unfold SceneScheduler.active_jobs, SceneScheduler.start, put. simpl.
    rewrite !lookup_insert_eq. split; eauto.
  - rewrite Hlisted, Hreg.
    unfold SceneScheduler.active_jobs, SceneScheduler.start. simpl.
    rewrite !lookup_delete_eq. split; [reflexivity | intros [? Hx]; discriminate].
Qed.

(** X10. Scenes do not touch each other in the scheduler: on a scheduler
    in step, registering or unregistering one scene leaves the job and
    the listing of every other scene as they were. *)
Theorem scenes_independent (s : sched) (sc : scene.Scene) (callback : Callback)
        (other : string) :
  in_step s ->
  other <> scene.id sc ->
  let registered := SceneScheduler.register_scene cron_fields_ok sc callback s in
  let unregistered := SceneScheduler.unregister_scene (scene.id sc) s in
  SceneScheduler.active_jobs registered !! ("scene_" +:+ other)
  = SceneScheduler.active_jobs s !! ("scene_" +:+ other) /\
  SceneScheduler._job_map registered !! other = SceneScheduler._job_map s !! other /\
  SceneScheduler.active_jobs unregistered !! ("scene_" +:+ other)
  = SceneScheduler.active_jobs s !! ("scene_" +:+ other) /\
  SceneScheduler._job_map unregistered !! other = SceneScheduler._job_map s !! other.
Proof.
  intros Hs Hne. cbv zeta.
  assert (Hj : "scene_" +:+ scene.id sc <> "scene_" +:+ other).
  { intros Heq. apply scene_job_inj in Heq. congruence. }
  rewrite register_in_step, unregister_in_step by assumption.
  destruct Hs as (Hrun & _).
  unfold SceneScheduler.active_jobs, SceneScheduler.start. rewrite Hrun.
  destruct (last_job cron_fields_ok sc callback _) as [j |] eqn:El; simpl.
  - apply last_job_id in El. rewrite El.
    rewrite !lookup_insert_ne, !lookup_delete_ne by congruence. auto.
  - rewrite !lookup_delete_ne by congruence. auto.
Qed.

(** X11. [unregister_scene] on a scheduler in step takes the scene out:
    its job is gone from the store, the scene is no longer listed, and
    unregistering again changes nothing.  Registering the scene and
    unregistering it leaves the scheduler as unregistering alone does. *)
Theorem unregister_scene_removes (s : sched) (sc : scene.Scene) (callback : Callback) :
  in_step s ->
  let s' := SceneScheduler.unregister_scene (scene.id sc) s in
  SceneScheduler.active_jobs s' !! ("scene_" +:+ scene.id sc) = None /\
  ~ In (scene.id sc) (SceneScheduler.get_scheduled_scenes s') /\
  SceneScheduler.unregister_scene (scene.id sc) s' = s' /\
  SceneScheduler.unregister_scene (scene.id sc)
    (SceneScheduler.register_scene cron_fields_ok sc callback s) = s'.
Proof.
  intros Hs. cbv zeta.
  pose proof (in_step_unregister (scene.id sc) s Hs) as Hu.
  split; [| split; [| split]].
  - rewrite unregister_in_step by assumption.
    unfold SceneScheduler.active_jobs, SceneScheduler.start. simpl.
    apply lookup_delete_eq.
  - rewrite unregister_in_step by assumption.
    unfold SceneScheduler.get_scheduled_scenes. simpl. rewrite in_map_iff.
    intros ([x id] & Hx & Hin). simpl in Hx. subst x.
    apply list_elem_of_In, elem_of_map_to_list in Hin.
    now rewrite lookup_delete_eq in Hin.
  - apply unregister_twice, Hs.
  - rewrite register_in_step by assumption.
    destruct (last_job cron_fields_ok sc callback _) as [j |] eqn:El.
    + apply last_job_id in El. rewrite unregister_put by assumption.
      rewrite (unregister_in_step (scene.id sc) s) by assumption. simpl.
      now rewrite El, !delete_delete_eq.
    + apply unregister_twice, Hs.
Qed.

End registrations.

Lemma scheduler_in_step_witness :
  in_step (SceneScheduler.register_scene any_fields two_alarm_scene "trigger_callback"
             (SceneScheduler.start new_scheduler)) /\
  in_step (SceneScheduler.unregister_scene "scene_003"
             (SceneScheduler.register_scene any_fields two_alarm_scene "trigger_callback"
                (SceneScheduler.start new_scheduler))).
Proof.
  destruct (scheduler_in_step (Callback := string) any_fields)
    as (Hstart & Hregister & Hunregister & _).
  split.
  - apply Hregister, Hstart.
  - apply Hunregister, Hregister, Hstart.
Defined.

Lemma register_scene_last_valid_trigger_witness :
  SceneScheduler.active_jobs
    (SceneScheduler.register_scene any_fields two_alarm_scene "trigger_callback"
       (SceneScheduler.start new_scheduler))
  !! "scene_scene_003"
  = Some {| SceneScheduler.job_id := "scene_scene_003";
            SceneScheduler.job_func := "trigger_callback";
            SceneScheduler.job_trigger :=
              {| SceneScheduler.cron_minute := "0";
                 SceneScheduler.cron_hour := "18";
                 SceneScheduler.cron_day := "*";
                 SceneScheduler.cron_month := "*";
                 SceneScheduler.cron_day_of_week := "*" |};
            SceneScheduler.job_args := two_alarm_scene |}.
Proof.
  pose proof (register_scene_last_valid_trigger any_fields
                (SceneScheduler.start new_scheduler) two_alarm_scene "trigger_callback"
                in_step_started) as H.
  cbv zeta in H.
  change (last (SceneScheduler.valid_time_triggers any_fields two_alarm_scene))
    with (Some (time_trigger "0 18 * * *")) in H.
  destruct H as (expr & minute & hour & day & month & day_of_week & Hc & Hs & Hjob & _).
  injection Hc as <-. vm_compute in Hs.
  injection Hs as <- <- <- <- <-. exact Hjob.
Defined.

Lemma scenes_independent_witness :
  SceneScheduler.active_jobs
    (SceneScheduler.register_scene any_fields (scene_with_condition unknown_condition)
       "trigger_callback"
       (SceneScheduler.register_scene any_fields two_alarm_scene "trigger_callback"
          (SceneScheduler.start new_scheduler)))
  !! "scene_scene_003"
  = SceneScheduler.active_jobs
      (SceneScheduler.register_scene any_fields two_alarm_scene "trigger_callback"
         (SceneScheduler.start new_scheduler))
    !! "scene_scene_003".
Proof.
  refine (proj1 (scenes_independent any_fields
                   (SceneScheduler.register_scene any_fields two_alarm_scene
                      "trigger_callback" (SceneScheduler.start new_scheduler))
                   (scene_with_condition unknown_condition) "trigger_callback"
                   "scene_003" _ _)).
  - apply in_step_register, in_step_started.
  - discriminate.
Defined.

Lemma unregister_scene_removes_witness :
  SceneScheduler.active_jobs
    (SceneScheduler.unregister_scene "scene_003"
       (SceneScheduler.register_scene any_fields two_alarm_scene "trigger_callback"
          (SceneScheduler.start new_scheduler)))
  !! "scene_scene_003" = None /\
  SceneScheduler.unregister_scene "scene_003"
    (SceneScheduler.register_scene any_fields two_alarm_scene "trigger_callback"
       (SceneScheduler.start new_scheduler))
  = SceneScheduler.unregister_scene "scene_003" (SceneScheduler.start new_scheduler).
Proof.
  split.
  - exact (proj1 (unregister_scene_removes any_fields
                    (SceneScheduler.register_scene any_fields two_alarm_scene
                       "trigger_callback" (SceneScheduler.start new_scheduler))
                    two_alarm_scene "trigger_callback"
                    (in_step_register any_fields _ _ _ in_step_started))).
  - exact (proj2 (proj2 (proj2 (unregister_scene_removes any_fields
                                  (SceneScheduler.start new_scheduler)
                                  two_alarm_scene "trigger_callback" in_step_started)))).
Defined.

Lemma register_scene_idempotent_witness :
  SceneScheduler.register_scene any_fields two_alarm_scene "trigger_callback"
    (SceneScheduler.register_scene any_fields two_alarm_scene "trigger_callback"
       (SceneScheduler.start new_scheduler))
  = SceneScheduler.register_scene any_fields two_alarm_scene "trigger_callback"
      (SceneScheduler.start new_scheduler).
Proof.
  apply (register_scene_idempotent any_fields two_alarm_scene "trigger_callback"). reflexivity.
Defined.

Lemma register_scene_single_job_witness :
  dom (SceneScheduler.jobstore
         (SceneScheduler.register_scene any_fields two_alarm_scene "trigger_callback"
            (SceneScheduler.start new_scheduler)))
  ⊆ dom (SceneScheduler.jobstore (SceneScheduler.start new_scheduler))
    ∪ {["scene_scene_003"]}.
Proof.
  apply (register_scene_single_job any_fields two_alarm_scene "trigger_callback"). reflexivity.
Defined.

(** ** The scheduler: registering before [start] *)

Section startup.

Context {Callback : Type}.
Variable cron_fields_ok : list string -> bool.

#[local] Abbreviation sched := (SceneScheduler.t (Callback := Callback)).
#[local] Abbreviation job := (SceneScheduler.Job (Callback := Callback)).

(** On a scheduler that is not running the loop of [register_scene]
    queues the job of a trigger. *)
Lemma register_trigger_stopped sc (callback : Callback) trigger (s : sched) :
  SceneScheduler.running s = false ->
  SceneScheduler.register_trigger cron_fields_ok sc callback s trigger =
  match job_of cron_fields_ok sc callback trigger with
  | Some j =>
      {| SceneScheduler.running := false;
         SceneScheduler._pending_jobs := (SceneScheduler._pending_jobs s ++ [j])%list;
         SceneScheduler.jobstore := SceneScheduler.jobstore s;
         SceneScheduler._job_map :=
           <[scene.id sc := SceneScheduler.job_id j]> (SceneScheduler._job_map s) |}
  | None => s
  end.
Proof.
  intros Hrun. unfold SceneScheduler.register_trigger, job_of.
  destruct (py_eq _ (VStr "time")); [| reflexivity].
  destruct (default VNone (dict_get "cron" trigger)) as [| b | z | expr | xs | kvs] eqn:Ec;
    simpl; try (repeat case_match; reflexivity).
  destruct (String.eqb expr "") eqn:Ee; simpl.
  - apply String.eqb_eq in Ee. subst expr. reflexivity.
  - destruct (split expr) as [| f1 [| f2 [| f3 [| f4 [| f5 [| f6 r]]]]]]; try reflexivity.
    destruct (cron_fields_ok _); [| reflexivity].
    unfold SceneScheduler.add_job. rewrite Hrun. reflexivity.
Qed.

Lemma register_loop_stopped sc (callback : Callback) triggers (s : sched) :
  SceneScheduler.running s = false ->
  foldl (SceneScheduler.register_trigger cron_fields_ok sc callback) s triggers =
  {| SceneScheduler.running := false;
     SceneScheduler._pending_jobs :=
       (SceneScheduler._pending_jobs s
        ++ omap (job_of cron_fields_ok sc callback) triggers)%list;
     SceneScheduler.jobstore := SceneScheduler.jobstore s;
     SceneScheduler._job_map :=
       match last_job cron_fields_ok sc callback triggers with
       | Some j => <[scene.id sc := "scene_" +:+ scene.id sc]> (SceneScheduler._job_map s)
       | None => SceneScheduler._job_map s
       end |}.
Proof.
  revert s. induction triggers as [| trigger r IH]; intros s Hrun.
  - simpl. rewrite app_nil_r. destruct s. simpl in *. now subst.
  - cbn [foldl last_job]. rewrite register_trigger_stopped by assumption.
    destruct (job_of cron_fields_ok sc callback trigger) as [j |] eqn:Hj.
    + rewrite IH by reflexivity. simpl. rewrite Hj, <- app_assoc. simpl.
      rewrite (job_of_id _ _ _ _ _ Hj). f_equal.
      destruct (last_job cron_fields_ok sc callback r); [apply insert_insert_eq | reflexivity].
    + rewrite IH by assumption. simpl. now rewrite Hj.
Qed.

Lemma install_all (store : gmap string job) (js : list job) (id : string) :
  Forall (fun j => SceneScheduler.job_id j = id) js ->
  foldl SceneScheduler.install store js =
  match last js with
  | Some j => <[id := j]> store
  | None => store
  end.
Proof.
  intros Hall. revert store. induction Hall as [| j r Hj Hr IH]; intros store.
  - reflexivity.
  - simpl. rewrite IH, last_cons. unfold SceneScheduler.install. rewrite Hj.
    destruct (last r); [apply insert_insert_eq | reflexivity].
Qed.

Lemma last_omap_job_of sc (callback : Callback) triggers :
  last (omap (job_of cron_fields_ok sc callback) triggers)
  = last_job cron_fields_ok sc callback triggers.
Proof.
  induction triggers as [| trigger r IH]; [reflexivity |].
  cbn [last_job].
  change (omap (job_of cron_fields_ok sc callback) (trigger :: r))
    with (match job_of cron_fields_ok sc callback trigger with
          | Some j => j :: omap (job_of cron_fields_ok sc callback) r
          | None => omap (job_of cron_fields_ok sc callback) r
          end).
  destruct (job_of cron_fields_ok sc callback trigger) as [j |]; [| exact IH].
  rewrite last_job_from_default, last_cons, IH.
  now destruct (last_job cron_fields_ok sc callback r).
Qed.

Lemma omap_job_of_ids sc (callback : Callback) triggers :
  Forall (fun j => SceneScheduler.job_id j = "scene_" +:+ scene.id sc)
         (omap (job_of cron_fields_ok sc callback) triggers).
Proof.
  induction triggers as [| trigger r IH]; simpl; [constructor |].
  destruct (job_of cron_fields_ok sc callback trigger) as [j |] eqn:Hj; [| exact IH].
  constructor; [eapply job_of_id, Hj | exact IH].
Qed.

(** X21. Registering a scene before the scheduler is started, as the
    service does at start-up, comes to the same as registering it on the
    started scheduler: for a scene that is not registered yet, [start]
    after [register_scene] leaves the scheduler [register_scene] after
    [start] leaves, the same jobs and the same job map. *)
Theorem register_before_start (sc : scene.Scene) (callback : Callback) (s : sched) :
  SceneScheduler.running s = false ->
  SceneScheduler._job_map s !! scene.id sc = None ->
  SceneScheduler.start (SceneScheduler.register_scene cron_fields_ok sc callback s)
  = SceneScheduler.register_scene cron_fields_ok sc callback (SceneScheduler.start s).
Proof.
  intros Hrun Hmap. unfold SceneScheduler.register_scene.
  assert (Hu : SceneScheduler.unregister_scene (scene.id sc) s = s).
  { unfold SceneScheduler.unregister_scene. now rewrite Hmap. }
  assert (Hu' : SceneScheduler.unregister_scene (scene.id sc) (SceneScheduler.start s)
                = SceneScheduler.start s).
  { unfold SceneScheduler.unregister_scene, SceneScheduler.start.
    rewrite Hrun. simpl. now rewrite Hmap. }
  rewrite Hu, Hu', register_loop_stopped by assumption.
  rewrite register_loop by (unfold SceneScheduler.start; now rewrite Hrun).
  unfold SceneScheduler.start at 1. simpl.
  rewrite foldl_app, (install_all _ _ _ (omap_job_of_ids sc callback _)), last_omap_job_of.
  unfold SceneScheduler.start. rewrite Hrun.
  destruct (last_job cron_fields_ok sc callback _) as [j |] eqn:El; [| reflexivity].
  unfold put. simpl. now rewrite (last_job_id _ _ _ _ _ El).
Qed.

End startup.

Lemma register_before_start_witness :
  SceneScheduler.start
    (SceneScheduler.register_scene any_fields two_alarm_scene "trigger_callback"
       new_scheduler)
  = SceneScheduler.register_scene any_fields two_alarm_scene "trigger_callback"
      (SceneScheduler.start new_scheduler).
Proof.
  apply (register_before_start any_fields two_alarm_scene "trigger_callback" new_scheduler);
    reflexivity.
Defined.

(** ** The executor: effects and context *)

(** An action adds its effect to the trace, whether it returns or raises,
    and touches nothing else. *)
Lemma action_adds_its_effect (action : dict) (w : world) :
  let w' := snd (SceneExecutor._execute_action action w) in
  w_trace w' = (w_trace w ++ option_list (action_effect action))%list /\
  w_states w' = w_states w /\ w_hal w' = w_hal w /\
  w_clock w' = w_clock w /\ w_tick w' = w_tick w /\ w_cancel w' = w_cancel w.
Proof.
  cbv zeta. unfold SceneExecutor._execute_action, action_effect.
  destruct (py_eq _ (VStr "device_control")).
  - unfold SceneExecutor._execute_device_control, subscript, bind, lift.
    destruct (dict_get "device_id" action) as [device_id |]; simpl;
      [| rewrite app_nil_r; tauto].
    destruct (dict_get "command" action) as [command |]; simpl;
      [| rewrite app_nil_r; tauto].
    unfold try_except, control_device, ret, raise.
    destruct (w_hal w (w_trace w) device_id command) as [ok | e]; simpl; [tauto |].
    destruct (is_Exception (exc_class e)); simpl; tauto.
  - destruct (py_eq _ (VStr "delay")).
    + unfold SceneExecutor._execute_delay, asyncio_sleep.
      destruct (num _) as [z |]; [| simpl; rewrite app_nil_r; tauto].
      destruct (Z.leb float_overflow z); simpl; [rewrite app_nil_r |]; tauto.
    + simpl. rewrite app_nil_r. tauto.
Qed.

Lemma omap_cons_effect (action : dict) (actions : list dict) :
  omap action_effect (action :: actions)
  = (option_list (action_effect action) ++ omap action_effect actions)%list.
Proof. simpl. destruct (action_effect action); reflexivity. Qed.

(** The loop over the actions adds the effects of the actions it ran, in
    order: of all of them when it returns, of those up to the one that
    raised otherwise. *)
Lemma actions_add_their_effects (actions : list dict) (w : world) :
  exists n : nat,
    match for_each SceneExecutor._execute_action actions w with
    | (res, w') =>
        w_trace w' = (w_trace w ++ omap action_effect (take n actions))%list /\
        w_states w' = w_states w /\ w_hal w' = w_hal w /\
        w_clock w' = w_clock w /\ w_tick w' = w_tick w /\
        (is_ok res = true -> n = length actions) /\
        (is_ok res = false -> 0 < n <= length actions)
    end.
Proof.
  revert w. induction actions as [| action r IH]; intros w.
  - exists 0. simpl. rewrite app_nil_r. repeat split; try reflexivity; discriminate.
  - pose proof (action_adds_its_effect action w) as Ha. cbv zeta in Ha.
    cbn [for_each]. unfold bind.
    destruct (SceneExecutor._execute_action action w) as [[u | f] w1];
      cbn [snd] in Ha; destruct Ha as (Ht & Hs & Hh & Hc & Hk & _).
    + destruct (IH w1) as (n & Hn). exists (S n).
      change (take (S n) (action :: r)) with (action :: take n r).
      rewrite omap_cons_effect.
      destruct (for_each SceneExecutor._execute_action r w1) as [[us | f] w2];
        destruct Hn as (Ht' & Hs' & Hh' & Hc' & Hk' & Hok & Hraise);
        unfold ret; rewrite Ht', Ht, <- app_assoc.
      * repeat split; try congruence; try discriminate.
        intros _. cbn [length]. f_equal. now apply Hok.
      * repeat split; try congruence; try discriminate; try lia.
        cbn [length]. specialize (Hraise eq_refl). lia.
    + exists 1.
      change (take 1 (action :: r)) with [action].
      rewrite omap_cons_effect. change (omap action_effect []) with (@nil effect).
      rewrite app_nil_r. cbn [length].
      repeat split; try congruence; try discriminate; lia.
Qed.

(** X12. Whether [execute_scene] returns a result or a cancellation passes
    through it, it writes nothing to the state store itself (the one method
    of the store it calls is [get_state]), leaves the HAL as it is, and
    adds to the effects exactly those of the first [n] actions of
    the scene, in order: the command of each [device_control] action that
    reached the HAL and the suspension of each [delay].  With the result
    [success] these are the effects of all the actions and the message
    counts the actions; with [skipped] there is none.  What reaches the
    caller instead of a result does not derive from [Exception], and an
    action was running. *)
Theorem execute_scene_effects (sc : scene.Scene) (triggered_by : string) (w : world) :
  exists (res : result ExecutionResult.t) (w' : world) (n : nat),
    SceneExecutor.execute_scene sc triggered_by w = (res, w') /\
    w_states w' = w_states w /\
    w_hal w' = w_hal w /\
    w_trace w' =
      (w_trace w ++ omap action_effect (take n (scene.actions (scene.definition sc))))%list /\
    match res with
    | Ok r =>
        (ExecutionResult.status r = "success" ->
         n = length (scene.actions (scene.definition sc)) /\
         ExecutionResult.message r =
           Some ("Executed " +:+ pretty (length (scene.actions (scene.definition sc)))
                 +:+ " actions")) /\
        (ExecutionResult.status r = "skipped" -> n = 0)
    | Raise f =>
        is_Exception (exc_class f) = false /\
        0 < n <= length (scene.actions (scene.definition sc))
    end.
Proof.
  pose proof (reads_clock_prepare_context sc w) as F1.
  pose proof (raises_exceptions_prepare_context sc w) as X1.
  unfold SceneExecutor.execute_scene, try_except, SceneExecutor.run_scene.
  unfold bind at 1.
  destruct (SceneExecutor._prepare_context sc w) as [[context | f] w1]; simpl in F1.
  - pose proof (reads_clock_evaluator
                  (option_map scene.model_dump (scene.conditions (scene.definition sc)))
                  context w1) as F2.
    pose proof (raises_exceptions_evaluator
                  (option_map scene.model_dump (scene.conditions (scene.definition sc)))
                  context w1) as X2.
    unfold bind at 1.
    destruct (ConditionEvaluator.evaluate _ context w1) as [[met | f] w2]; simpl in F2.
    + pose proof (only_clock_read_trans _ _ _ F1 F2) as (S2 & T2 & H2 & _).
      destruct met; cbn [negb].
      * destruct (actions_add_their_effects (scene.actions (scene.definition sc)) w2)
          as (n & Hn). unfold bind at 1.
        destruct (for_each SceneExecutor._execute_action _ w2) as [[done | f] w3];
          destruct Hn as (T3 & S3 & H3 & _ & _ & Hok & Hraise).
        -- destruct (result_init "success" (scene.id sc)
                       (Some ("Executed "
                              +:+ pretty (length (scene.actions (scene.definition sc)))
                              +:+ " actions")) w3)
             as (r & w' & Hr & Hs & _ & Hm & (S4 & T4 & H4 & _)).
           exists (Ok r), w', n. rewrite Hr. split; [reflexivity |].
           split; [congruence |]. split; [congruence |].
           split; [rewrite T4, T3, T2; reflexivity |].
           split; [intros _; split; [now apply Hok | exact Hm] |].
           rewrite Hs. discriminate.
        -- destruct (is_Exception (exc_class f)) eqn:Ef.
           ++ destruct (result_init "failed" (scene.id sc) (Some (exc_msg f)) w3)
                as (r & w' & Hr & Hs & _ & _ & (S4 & T4 & H4 & _)).
              exists (Ok r), w', n. rewrite Hr. split; [reflexivity |].
              split; [congruence |]. split; [congruence |].
              split; [rewrite T4, T3, T2; reflexivity |].
              rewrite Hs. split; discriminate.
           ++ exists (Raise f), w3, n. split; [reflexivity |].
              split; [congruence |]. split; [congruence |].
              split; [rewrite T3, T2; reflexivity |].
              split; [exact Ef | now apply Hraise].
      * destruct (result_init "skipped" (scene.id sc) (Some "Conditions not met") w2)
          as (r & w' & Hr & Hs & _ & _ & (S4 & T4 & H4 & _)).
        exists (Ok r), w', 0. rewrite Hr. split; [reflexivity |].
        split; [congruence |]. split; [congruence |].
        split; [simpl; rewrite app_nil_r; congruence |].
        rewrite Hs. split; [discriminate | reflexivity].
    + pose proof (only_clock_read_trans _ _ _ F1 F2) as (S2 & T2 & H2 & _).
      rewrite (X2 f w2 eq_refl).
      destruct (result_init "failed" (scene.id sc) (Some (exc_msg f)) w2)
        as (r & w' & Hr & Hs & _ & _ & (S4 & T4 & H4 & _)).
      exists (Ok r), w', 0. rewrite Hr. split; [reflexivity |].
      split; [congruence |]. split; [congruence |].
      split; [simpl; rewrite app_nil_r; congruence |].
      rewrite Hs. split; discriminate.
  - destruct F1 as (S1 & T1 & H1 & _).
    rewrite (X1 f w1 eq_refl).
    destruct (result_init "failed" (scene.id sc) (Some (exc_msg f)) w1)
      as (r & w' & Hr & Hs & _ & _ & (S4 & T4 & H4 & _)).
    exists (Ok r), w', 0. rewrite Hr. split; [reflexivity |].
    split; [congruence |]. split; [congruence |].
    split; [simpl; rewrite app_nil_r; congruence |].
    rewrite Hs. split; discriminate.
Qed.

(** The evening scene: run to the end, and cancelled in its delay. *)
Lemma execute_scene_effects_witness :
  (exists (r : ExecutionResult.t) (w' : world),
      SceneExecutor.execute_scene evening_scene "manual" (door_world "open") = (Ok r, w') /\
      ExecutionResult.status r = "success" /\
      ExecutionResult.message r = Some "Executed 3 actions" /\
      w_trace w' = [EControl (VStr "light_01") (VDict [("state", VStr "on")]);
                    ESleep 5;
                    EControl (VStr "light_03") (VDict [("state", VStr "on")])]) /\
  (exists (f : fault) (w' : world),
      SceneExecutor.execute_scene evening_scene "manual" shutdown_world = (Raise f, w') /\
      is_Exception (exc_class f) = false /\
      w_states w' = w_states shutdown_world).
Proof.
  split.
  - destruct (execute_scene_effects evening_scene "manual" (door_world "open"))
      as (res & w' & n & Hr & _ & _ & Ht & Hres).
    destruct res as [r | f]; [| vm_compute in Hr; discriminate].
    exists r, w'. split; [exact Hr |].
    assert (Hs : ExecutionResult.status r = "success").
    { vm_compute in Hr. now injection Hr as <- _. }
    destruct Hres as [Hsuccess _].
    destruct (Hsuccess Hs) as [-> Hm].
    split; [exact Hs |]. split; [exact Hm |]. exact Ht.
  - destruct (execute_scene_effects evening_scene "manual" shutdown_world)
      as (res & w' & n & Hr & Hs & _ & _ & Hres).
    destruct res as [r | f]; [vm_compute in Hr; discriminate |].
    exists f, w'. split; [exact Hr |]. split; [exact (proj1 Hres) | exact Hs].
Defined.

(** *** The device ids of a scene *)

Lemma py_eq_VStr_l (s : string) (v : value) : py_eq (VStr s) v = true -> v = VStr s.
Proof.
  destruct v; simpl; try discriminate. intros H. apply String.eqb_eq in H. congruence.
Qed.

Lemma set_add_In (v : value) (ids : list value) :
  hashable v = true ->
  exists ids',
    SceneExecutor.set_add v ids = Ok ids' /\
    forall d : string, In (VStr d) ids' <-> In (VStr d) ids \/ v = VStr d.
Proof.
  intros Hh. unfold SceneExecutor.set_add. rewrite Hh.
  destruct (existsb (py_eq v) ids) eqn:E; eexists; (split; [reflexivity |]); intros d.
  - split; [tauto |]. intros [H | ->]; [exact H |].
    apply existsb_exists in E as (x & Hx & Heq).
    apply py_eq_VStr_l in Heq. now subst x.
  - rewrite in_app_iff. simpl. split; [intros [H | [H | []]] | intros [H | H]]; auto.
Qed.

Lemma collect_ids_ok (tag : string) (items : list dict) (ids : list value) :
  (forall item, In item (List.filter (has_type tag) items) ->
                exists v, dict_get "device_id" item = Some v /\ hashable v = true) ->
  exists ids',
    SceneExecutor.collect_ids tag items ids = Ok ids' /\
    forall d : string,
      In (VStr d) ids' <->
      In (VStr d) ids \/
      exists item, In item (List.filter (has_type tag) items) /\
                   dict_get "device_id" item = Some (VStr d).
Proof.
  revert ids. induction items as [| item r IH]; intros ids Hall.
  - exists ids. split; [reflexivity |]. intros d. split; [tauto |].
    intros [H | (item & [] & _)]. exact H.
  - cbn [SceneExecutor.collect_ids List.filter] in *. unfold has_type in Hall at 1.
    fold (has_type tag item) in *.
    destruct (has_type tag item) eqn:Et.
    + destruct (Hall item (or_introl eq_refl)) as (v & Hv & Hh).
      unfold subscript. rewrite Hv.
      destruct (set_add_In v ids Hh) as (ids1 & -> & H1).
      destruct (IH ids1 (fun it Hit => Hall it (or_intror Hit))) as (ids' & -> & H').
      exists ids'. split; [reflexivity |]. intros d. rewrite H', H1. split.
      * intros [[H | ->] | (it & Hit & Hd)]; eauto.
        -- right. exists item. split; [now left | exact Hv].
        -- right. exists it. split; [now right | exact Hd].
      * intros [H | (it & [<- | Hit] & Hd)]; eauto.
        left. right. congruence.
    + destruct (IH ids Hall) as (ids' & -> & H').
      exists ids'. split; [reflexivity |]. exact H'.
Qed.

Lemma collect_ids_raises (tag : string) (items : list dict) (ids : list value)
      (item : dict) :
  In item items -> has_type tag item = true -> dict_get "device_id" item = None ->
  exists f, SceneExecutor.collect_ids tag items ids = Raise f.
Proof.
  intros Hin Ht Hd. revert ids. induction items as [| item0 r IH]; intros ids; [destruct Hin |].
  cbn [SceneExecutor.collect_ids]. fold (has_type tag item0).
  destruct Hin as [-> | Hin].
  - rewrite Ht. unfold subscript. rewrite Hd. eauto.
  - destruct (has_type tag item0); [| now apply IH].
    destruct (subscript item0 "device_id") as [v | f]; [| eauto].
    destruct (SceneExecutor.set_add v ids) as [ids1 | f]; [now apply IH | eauto].
Qed.

Lemma In_VStr_dec (d : string) (vs : list value) : In (VStr d) vs \/ ~ In (VStr d) vs.
Proof.
  induction vs as [| v r [IH | IH]]; [right; intros [] | left; now right |].
  destruct v as [| b | z | s | xs | kvs];
    try (right; intros [H | H]; [discriminate | contradiction]).
  destruct (String.eqb s d) eqn:E.
  - apply String.eqb_eq in E. subst s. left. now left.
  - apply String.eqb_neq in E. right. intros [H | H]; [congruence | contradiction].
Qed.

Lemma read_states_cached (device_ids : list value) (acc : gmap string DeviceState)
      (w : world) :
  exists m,
    SceneExecutor.read_states device_ids acc w = (Ok m, w) /\
    forall d : string,
      (In (VStr d) device_ids ->
       m !! d = match w_states w !! d with Some st => Some st | None => acc !! d end) /\
      (~ In (VStr d) device_ids -> m !! d = acc !! d).
Proof.
  revert acc. induction device_ids as [| device_id r IH]; intros acc.
  - exists acc. split; [reflexivity |]. intros d. split; [intros [] | reflexivity].
  - cbn [SceneExecutor.read_states]. unfold bind, get_state.
    destruct (IH (match device_id with
                  | VStr s => match w_states w !! s with
                              | Some st => <[s := st]> acc
                              | None => acc
                              end
                  | _ => acc
                  end)) as (m & Hm & Hd).
    exists m. split.
    + rewrite <- Hm. now destruct device_id.
    + intros d. destruct (Hd d) as [Hin Hout]. clear Hd Hm. split.
      * intros [-> | H].
        -- destruct (In_VStr_dec d r) as [Hr | Hr].
           ++ rewrite (Hin Hr). now destruct (w_states w !! d).
           ++ rewrite (Hout Hr).
              destruct (w_states w !! d) as [st |]; [apply lookup_insert_eq | reflexivity].
        -- rewrite (Hin H).
           destruct (w_states w !! d) as [st |] eqn:Es; [reflexivity |].
           destruct device_id as [| b | z | s | xs | kvs]; try reflexivity.
           destruct (w_states w !! s) as [st |] eqn:Es'; [| reflexivity].
           apply lookup_insert_ne. congruence.
      * intros Hn. rewrite Hout by (intros H; apply Hn; now right).
        destruct device_id as [| b | z | s | xs | kvs]; try reflexivity.
        destruct (w_states w !! s) as [st |]; [| reflexivity].
        apply lookup_insert_ne. intros ->. apply Hn. now left.
Qed.

(** The device ids [_extract_device_ids] finds, among the string ids. *)
Lemma extract_device_ids_ok (sc : scene.Scene) :
  (forall item, In item (device_items sc) ->
                exists v, dict_get "device_id" item = Some v /\ hashable v = true) ->
  exists ids,
    SceneExecutor._extract_device_ids sc = Ok ids /\
    forall d : string,
      In (VStr d) ids <->
      exists item, In item (device_items sc) /\ dict_get "device_id" item = Some (VStr d).
Proof.
  unfold device_items, SceneExecutor._extract_device_ids. cbv zeta. intros Hall.
  destruct (collect_ids_ok "device_state" (scene.triggers (scene.definition sc)) [])
    as (ids1 & E1 & H1).
  { intros item Hin. apply Hall. rewrite !in_app_iff. auto. }
  rewrite E1.
  destruct (collect_ids_ok "device_state"
              (match scene.conditions (scene.definition sc) with
               | Some g => scene.items g
               | None => []
               end) ids1) as (ids2 & E2 & H2).
  { intros item Hin. apply Hall. rewrite !in_app_iff. auto. }
  assert (E2' : match scene.conditions (scene.definition sc) with
                | Some g => SceneExecutor.collect_ids "device_state" (scene.items g) ids1
                | None => Ok ids1
                end = Ok ids2).
  { rewrite <- E2. destruct (scene.conditions (scene.definition sc)); reflexivity. }
  rewrite E2'.
  destruct (collect_ids_ok "device_control" (scene.actions (scene.definition sc)) ids2)
    as (ids3 & E3 & H3).
  { intros item Hin. apply Hall. rewrite !in_app_iff. auto. }
  exists ids3. split; [exact E3 |]. intros d. rewrite H3, H2, H1. split.
  - intros [[[[] | (item & Hin & Hd)] | (item & Hin & Hd)] | (item & Hin & Hd)];
      exists item; rewrite !in_app_iff; auto.
  - intros (item & Hin & Hd). rewrite !in_app_iff in Hin.
    destruct Hin as [Hin | [Hin | Hin]]; eauto 7.
Qed.

(** X13. When every device item of a scene (a [device_state] trigger, a
    top-level [device_state] condition, a [device_control] action) has a
    hashable [device_id], [_prepare_context] returns, and the device
    states of the context are the cached states of the devices those items
    name: a device the scene names is in the context exactly when it is
    cached, with its cached state, and no other device is. *)
Theorem prepare_context_cached (sc : scene.Scene) (w : world) :
  (forall item, In item (device_items sc) ->
                exists v, dict_get "device_id" item = Some v /\ hashable v = true) ->
  exists (context : EvaluationContext) (w' : world),
    SceneExecutor._prepare_context sc w = (Ok context, w') /\
    scene_id context = scene.id sc /\
    forall d : string,
      ((exists item, In item (device_items sc) /\
                     dict_get "device_id" item = Some (VStr d)) ->
       device_states context !! d = w_states w !! d) /\
      (~ (exists item, In item (device_items sc) /\
                       dict_get "device_id" item = Some (VStr d)) ->
       device_states context !! d = None).
Proof.
  intros Hall. destruct (extract_device_ids_ok sc Hall) as (ids & Hex & Hiff).
  destruct (read_states_cached ids ∅ w) as (m & Hm & Hd).
  eexists _, _. split.
  { unfold SceneExecutor._prepare_context, bind, lift. rewrite Hex, Hm.
    unfold datetime_now, ret. reflexivity. }
  simpl. split; [reflexivity |]. intros d. destruct (Hd d) as [Hin Hout]. split.
  - intros Hitem. rewrite (Hin (proj2 (Hiff d) Hitem)), lookup_empty.
    now destruct (w_states w !! d).
  - intros Hn. rewrite Hout; [apply lookup_empty |]. intros H. apply Hn, Hiff, H.
Qed.

Lemma prepare_context_cached_witness :
  exists (context : EvaluationContext) (w' : world),
    SceneExecutor._prepare_context door_scene (door_world "open") = (Ok context, w') /\
    device_states context !! "d1"
    = Some {| state := "open"; attributes := []; last_updated := 0 |} /\
    device_states context !! "light_01" = None /\
    device_states context !! "thermostat" = None.
Proof.
  destruct (prepare_context_cached door_scene (door_world "open"))
    as (context & w' & Hctx & _ & Hd).
  { intros item Hin. vm_compute in Hin.
    destruct Hin as [<- | [<- | [<- | [<- | []]]]]; eexists; split; reflexivity. }
  exists context, w'. split; [exact Hctx |]. split; [| split].
  - rewrite (proj1 (Hd "d1")); [reflexivity |].
    eexists. split; [left; reflexivity | reflexivity].
  - rewrite (proj1 (Hd "light_01")); [reflexivity |].
    eexists. split; [right; left; reflexivity | reflexivity].
  - apply (proj2 (Hd "thermostat")). intros (item & Hin & Hid).
    vm_compute in Hin.
    destruct Hin as [<- | [<- | [<- | [<- | []]]]]; discriminate.
Defined.

(** X14. A device item without a [device_id] fails the whole scene before
    anything happens: [_extract_device_ids] raises while the context is
    built, so [execute_scene] returns [failed] with no effect, also when
    the item is a trigger or the last action of the scene. *)
Theorem item_without_device_id_fails (sc : scene.Scene) (triggered_by : string)
        (w : world) (item : dict) :
  In item (device_items sc) ->
  dict_get "device_id" item = None ->
  exists (r : ExecutionResult.t) (w' : world),
    SceneExecutor.execute_scene sc triggered_by w = (Ok r, w') /\
    ExecutionResult.status r = "failed" /\
    w_trace w' = w_trace w /\
    w_states w' = w_states w.
Proof.
  intros Hin Hd.
  assert (Hex : exists f, SceneExecutor._extract_device_ids sc = Raise f).
  { unfold device_items in Hin. rewrite !in_app_iff, !filter_In in Hin.
    unfold SceneExecutor._extract_device_ids. cbv zeta.
    destruct (SceneExecutor.collect_ids "device_state"
                (scene.triggers (scene.definition sc)) []) as [ids1 | f1] eqn:E1.
    - destruct Hin as [[Hin Ht] | Hin].
      { destruct (collect_ids_raises "device_state" _ [] item Hin Ht Hd) as [f Hf].
        congruence. }
      destruct (scene.conditions (scene.definition sc)) as [g |].
      + destruct (SceneExecutor.collect_ids "device_state" (scene.items g) ids1)
          as [ids2 | f2] eqn:E2; [| eauto].
        destruct Hin as [[Hin Ht] | [Hin Ht]].
        * destruct (collect_ids_raises "device_state" _ ids1 item Hin Ht Hd) as [f Hf].
          congruence.
        * apply (collect_ids_raises "device_control" _ ids2 item Hin Ht Hd).
      + destruct Hin as [[[] _] | [Hin Ht]].
        apply (collect_ids_raises "device_control" _ ids1 item Hin Ht Hd).
    - eauto. }
  destruct Hex as [f Hf].
  assert (Hprep : SceneExecutor._prepare_context sc w = (Raise f, w)).
  { unfold SceneExecutor._prepare_context, bind, lift. now rewrite Hf. }
  assert (Hrun : SceneExecutor.run_scene sc w = (Raise f, w)).
  { unfold SceneExecutor.run_scene. unfold bind at 1. now rewrite Hprep. }
  destruct (execute_scene_caught sc triggered_by w w f Hrun
              (raises_exceptions_prepare_context sc w f w Hprep))
    as (r & w' & Hr & Hs & _ & _ & (Hst & Htr & _)).
  exists r, w'. auto.
Qed.

Lemma item_without_device_id_fails_witness :
  exists (r : ExecutionResult.t) (w' : world),
    SceneExecutor.execute_scene unnamed_light_scene "auto" (door_world "open")
    = (Ok r, w') /\
    ExecutionResult.status r = "failed" /\
    w_trace w' = [].
Proof.
  destruct (item_without_device_id_fails unnamed_light_scene "auto" (door_world "open")
              [("type", VStr "device_control"); ("command", VDict [("state", VStr "on")])])
    as (r & w' & Hr & Hs & Ht & _).
  - vm_compute. right. left. reflexivity.
  - reflexivity.
  - exists r, w'. auto.
Defined.

(** X15. An action [validate_action] accepts raises at execution only for
    what the check cannot show.  For a [device_control] action the HAL
    call raised: an [Exception] comes back as [SceneExecutionError] naming
    the device, anything else (a cancellation) as it is.  For a [delay]
    the [seconds] are no number ([TypeError]), or an [int] too large for a
    [float] ([OverflowError]), or the task is cancelled while it sleeps.
    It never raises for a missing key or an unknown type.  The actions are
    those of the embedding, whose numbers are integers. *)
Theorem validated_action_failures (action : dict) (w : world) :
  SceneParser.validate_action action = true ->
  match fst (SceneExecutor._execute_action action w) with
  | Ok _ => True
  | Raise f =>
      (exists (device_id command : value) (e : fault),
          dict_get "device_id" action = Some device_id /\
          dict_get "command" action = Some command /\
          w_hal w (w_trace w) device_id command = Raise e /\
          f = if is_Exception (exc_class e)
              then scene_execution_error "device_control"
                     ("Failed to control device " +:+ py_str device_id
                      +:+ ": " +:+ exc_msg e)
              else e) \/
      (exists seconds : value,
          dict_get "seconds" action = Some seconds /\
          (num seconds = None /\ exc_class f = TypeError \/
           (exists z : Z,
               num seconds = Some z /\ (float_overflow <= z)%Z /\
               exc_class f = OverflowError) \/
           (exists (z : Z) (msg : string),
               num seconds = Some z /\
               w_cancel w (w_trace w ++ [ESleep z])%list = Some msg /\
               f = Fault CancelledError msg)))
  end.
Proof.
  unfold SceneParser.validate_action, SceneExecutor._execute_action.
  destruct (dict_get "type" action) as [action_type |]; [| discriminate]. simpl.
  destruct (py_eq action_type (VStr "device_control")).
  - unfold dict_has. intros Hv. apply andb_true_iff in Hv as [Hd Hc].
    unfold SceneExecutor._execute_device_control, subscript, bind, lift.
    destruct (dict_get "device_id" action) as [device_id |]; [| discriminate].
    destruct (dict_get "command" action) as [command |]; [| discriminate].
    unfold try_except, control_device, ret, raise.
    destruct (w_hal w (w_trace w) device_id command) as [ok | e] eqn:E; simpl; [exact I |].
    assert (Hf : fst (if is_Exception (exc_class e)
                      then (Raise (scene_execution_error "device_control"
                                     ("Failed to control device " +:+ py_str device_id
                                      +:+ ": " +:+ exc_msg e)) : result unit,
                            World (w_states w) (w_clock w) (w_tick w) (w_hal w)
                                  (w_trace w ++ [EControl device_id command])
                                  (w_cancel w))
                      else (Raise e,
                            World (w_states w) (w_clock w) (w_tick w) (w_hal w)
                                  (w_trace w ++ [EControl device_id command])
                                  (w_cancel w)))
                 = Raise (if is_Exception (exc_class e)
                          then scene_execution_error "device_control"
                                 ("Failed to control device " +:+ py_str device_id
                                  +:+ ": " +:+ exc_msg e)
                          else e)).
    { now destruct (is_Exception (exc_class e)). }
    rewrite Hf. left. exists device_id, command, e. auto.
  - destruct (py_eq action_type (VStr "delay")); [| discriminate].
    unfold dict_has. intros Hv.
    unfold SceneExecutor._execute_delay, asyncio_sleep.
    destruct (dict_get "seconds" action) as [seconds |]; [| discriminate].
    change (default (VInt 0) (Some seconds)) with seconds.
    destruct (num seconds) as [z |] eqn:En; [| right; exists seconds; auto].
    destruct (Z.leb float_overflow z) eqn:Ez.
    + right. exists seconds. split; [reflexivity |]. right. left.
      exists z. apply Z.leb_le in Ez. auto.
    + cbn [fst]. destruct (w_cancel w (w_trace w ++ [ESleep z])%list) as [msg |] eqn:Ec;
        [| exact I].
      right. exists seconds. split; [reflexivity |]. right. right.
      exists z, msg. auto.
Qed.

(** A light the HAL reaches, one it does not, and a delay no [float] can
    hold. *)
Lemma validated_action_failures_witness :
  fst (SceneExecutor._execute_action (light_on "light_01") (door_world "open")) = Ok tt /\
  fst (SceneExecutor._execute_action (light_on "light_02") (door_world "open"))
  = Raise (scene_execution_error "device_control"
             "Failed to control device light_02: Failed to connect to HAL: timed out") /\
  exists f : fault,
    fst (SceneExecutor._execute_action
           [("type", VStr "delay"); ("seconds", VInt (10 ^ 400))] (door_world "open"))
    = Raise f /\
    exc_class f = OverflowError.
Proof.
  split; [| split].
  - pose proof (validated_action_failures (light_on "light_01") (door_world "open")
                  eq_refl) as H.
    destruct (fst (SceneExecutor._execute_action (light_on "light_01") (door_world "open")))
      as [[] | f] eqn:E; [reflexivity | vm_compute in E; discriminate].
  - pose proof (validated_action_failures (light_on "light_02") (door_world "open")
                  eq_refl) as H.
    destruct (fst (SceneExecutor._execute_action (light_on "light_02") (door_world "open")))
      as [[] | f] eqn:E; [vm_compute in E; discriminate |].
    destruct H as [(device_id & command & e & Hd & Hc & He & ->) | (seconds & Hs & _)];
      [| discriminate].
    injection Hd as <-. injection Hc as <-. vm_compute in He. injection He as <-.
    reflexivity.
  - pose proof (validated_action_failures
                  [("type", VStr "delay"); ("seconds", VInt (10 ^ 400))]
                  (door_world "open") eq_refl) as H.
    destruct (fst (SceneExecutor._execute_action
                     [("type", VStr "delay"); ("seconds", VInt (10 ^ 400))]
                     (door_world "open")))
      as [[] | f] eqn:E; [vm_compute in E; discriminate |].
    exists f. split; [reflexivity |].
    destruct H as [(device_id & command & e & Hd & _) | (seconds & Hs & Hcase)];
      [discriminate |].
    injection Hs as <-.
    destruct Hcase as [[Hn _] | [(z & _ & _ & Hf) | (z & msg & _ & Hc & _)]].
    + discriminate.
    + exact Hf.
    + discriminate.
Defined.

(** ** Conditions *)

(** X16. Evaluating the conditions of a scene has no effect: whether the
    evaluation returns or raises, it sends no command, takes no delay and
    leaves the state store, the HAL and the clock as they are; it only
    reads the clock. *)
Theorem evaluation_has_no_effect (condition_data : option dict)
        (context : EvaluationContext) (w : world) :
  let w' := snd (ConditionEvaluator.evaluate condition_data context w) in
  w_states w' = w_states w /\ w_trace w' = w_trace w /\
  w_hal w' = w_hal w /\ w_clock w' = w_clock w.
Proof.
  destruct (reads_clock_evaluator condition_data context w) as (Hs & Ht & Hh & Hc & _).
  cbv zeta. auto.
Qed.

(** X17. A [device_state] condition whose [condition] dict names neither
    operator nor attribute compares the state field for equality: on a
    device of the context it holds exactly when the state equals the
    [value] given, and [None] when none is given. *)
Theorem device_state_defaults (d : string) (condition : dict)
        (context : EvaluationContext) (st : DeviceState) (w : world) :
  dict_get "operator" condition = None ->
  dict_get "attribute" condition = None ->
  device_states context !! d = Some st ->
  exists leaf : Condition,
    ConditionFactory.create
      (VDict [("type", VStr "device_state"); ("device_id", VStr d);
              ("condition", VDict condition)]) = Ok leaf /\
    Condition_evaluate leaf context w
    = (Ok (py_eq (VStr (state st)) (default VNone (dict_get "value" condition))), w).
Proof.
  intros Ho Ha Hst. eexists. split; [reflexivity |].
  simpl. unfold DeviceStateCondition.evaluate, lift, DeviceStateCondition.evaluate_now.
  simpl. rewrite Hst, Ho, Ha. reflexivity.
Qed.

Lemma device_state_defaults_witness :
  exists leaf : Condition,
    ConditionFactory.create
      (VDict [("type", VStr "device_state"); ("device_id", VStr "d1");
              ("condition", VDict [("value", VStr "closed")])]) = Ok leaf /\
    Condition_evaluate leaf closed_door_context (world_at (Time 12 0 0 0))
    = (Ok true, world_at (Time 12 0 0 0)).
Proof.
  exact (device_state_defaults "d1" [("value", VStr "closed")] closed_door_context
           closed_door (world_at (Time 12 0 0 0)) eq_refl eq_refl eq_refl).
Defined.

(** X18. A group does not stop early: it builds and evaluates every child
    before it combines the results, so a child that raises makes the group
    raise whatever the operator and whatever the children before it gave,
    also an [or] group one of whose children was already true. *)
Theorem group_raises_with_child (operator : string) (context : EvaluationContext)
        (w w1 w2 : world) (before after : list value) (child : value)
        (results : list bool) (f : fault) :
  for_each (ConditionGroup.evaluate_child context) before w = (Ok results, w1) ->
  ConditionGroup.evaluate_child context child w1 = (Raise f, w2) ->
  ConditionGroup.evaluate
    {| ConditionGroup.operator := operator;
       ConditionGroup.conditions := VList (before ++ child :: after) |} context w
  = (Raise f, w2).
Proof.
  intros Hb Hc.
  unfold ConditionGroup.evaluate, bind at 1, lift; simpl.
  unfold bind at 1. rewrite for_each_app, Hb. simpl.
  unfold bind at 1. now rewrite Hc.
Qed.

Lemma group_raises_with_child_witness :
  ConditionGroup.evaluate
    {| ConditionGroup.operator := "or";
       ConditionGroup.conditions :=
         VList [VDict [("type", VStr "time_range"); ("start", VStr "22:00");
                       ("end", VStr "06:00")];
                VDict [("type", VStr "time_range"); ("start", VStr "25:00");
                       ("end", VStr "06:00")]] |}
    sample_context (world_at (Time 23 30 0 0))
  = (Raise (Fault ValueError "time data '25:00' does not match format '%H:%M'"),
     ticked (world_at (Time 23 30 0 0))).
Proof.
  apply (group_raises_with_child "or" sample_context (world_at (Time 23 30 0 0))
           (ticked (world_at (Time 23 30 0 0))) (ticked (world_at (Time 23 30 0 0)))
           [VDict [("type", VStr "time_range"); ("start", VStr "22:00");
                   ("end", VStr "06:00")]] []
           (VDict [("type", VStr "time_range"); ("start", VStr "25:00");
                   ("end", VStr "06:00")]) [true]);
    vm_compute; reflexivity.
Defined.

(** ** The parser: dumps and unknown keys *)

Lemma validate_items_dicts (at_ : list value) (i : nat) (ds : list dict) :
  scene.validate_items at_ i (map VDict ds) = inr ds.
Proof.
  revert i. induction ds as [| d r IH]; intros i; [reflexivity |].
  simpl. now rewrite IH.
Qed.

Lemma validate_conditions_dump (at_ : list value) (conditions : option scene.ConditionGroup) :
  scene.validate_conditions at_
    (Some (match conditions with
           | Some g => VDict (scene.model_dump g)
           | None => VNone
           end)) = inr conditions.
Proof.
  destruct conditions as [[o its] |]; [| reflexivity].
  unfold scene.validate_conditions, scene.model_dump, scene.validate_group,
    scene.required, scene.both. simpl.
  rewrite validate_items_dicts. destruct o; reflexivity.
Qed.

(** X19. A scene definition survives its dump: [parse] of
    [model_dump()] of a [SceneDefinition] returns that definition, so a
    definition that was parsed once parses again to itself. *)
Theorem parse_model_dump (validation_text : list scene.ErrorDetails -> string)
        (def : scene.SceneDefinition) :
  SceneParser.parse validation_text (VDict (SceneDefinition_model_dump def)) = Ok def.
Proof.
  unfold SceneParser.parse, SceneParser.construct, scene.SceneDefinition_validate,
    SceneDefinition_model_dump, scene.required, scene.validate_dict_list.
  cbn [dict_get String.eqb Ascii.eqb Bool.eqb].
  simpl dict_get.
  rewrite !validate_items_dicts, validate_conditions_dump. simpl.
  now destruct def.
Qed.

Lemma dict_get_skip (x k : string) (v : value) (d1 d2 : dict) :
  x <> k -> dict_get x (d1 ++ (k, v) :: d2)%list = dict_get x (d1 ++ d2)%list.
Proof.
  intros Hne. induction d1 as [| [k' v'] r IH]; simpl.
  - now rewrite (proj2 (String.eqb_neq x k) Hne).
  - now rewrite IH.
Qed.

(** X20. [parse] ignores the keys [SceneDefinition] does not declare: a
    key other than [triggers], [conditions] and [actions] changes neither
    whether the definition is accepted nor the definition parsed, wherever
    the key stands.  So a definition that misspells [conditions] parses as
    one without conditions.  A definition that is rejected is rejected
    with the key too, by a [SceneDefinitionError]; its text may differ,
    since the report prints the input. *)
Theorem parse_ignores_unknown_keys (validation_text : list scene.ErrorDetails -> string)
        (k : string) (v : value) (before after : dict) :
  k <> "triggers" -> k <> "conditions" -> k <> "actions" ->
  match SceneParser.parse validation_text (VDict (before ++ after)),
        SceneParser.parse validation_text (VDict (before ++ (k, v) :: after)) with
  | Ok def, Ok def' => def' = def
  | Raise e, Raise e' =>
      exc_class e = SceneDefinitionError /\ exc_class e' = SceneDefinitionError
  | _, _ => False
  end.
Proof.
  intros Ht Hc Ha.
  unfold SceneParser.parse, SceneParser.construct, scene.SceneDefinition_validate.
  rewrite !dict_get_skip by congruence.
  unfold scene.required, scene.both.
  destruct (match dict_get "triggers" (before ++ after) with
            | Some t => scene.validate_dict_list [VStr "triggers"] t
            | None => inr []
            end) as [et | ts];
    destruct (scene.validate_conditions [VStr "conditions"]
                (dict_get "conditions" (before ++ after))) as [ec | c];
    destruct (dict_get "actions" (before ++ after)) as [a |];
    try destruct (scene.validate_dict_list [VStr "actions"] a) as [ea | acts];
    simpl; auto.
Qed.

Lemma parse_ignores_unknown_keys_witness :
  SceneParser.parse (fun _ => "")
    (VDict [("condition",
             VDict [("operator", VStr "and");
                    ("items", VList [VDict [("type", VStr "device_state");
                                            ("device_id", VStr "d1");
                                            ("condition", VDict [("value", VStr "open")])]])]);
            ("actions", VList [VDict (light_on "light_01")])])
  = Ok {| scene.triggers := []; scene.conditions := None;
          scene.actions := [light_on "light_01"] |}.
Proof.
  pose proof (parse_ignores_unknown_keys (fun _ => "") "condition"
                (VDict [("operator", VStr "and");
                        ("items", VList [VDict [("type", VStr "device_state");
                                                ("device_id", VStr "d1");
                                                ("condition",
                                                 VDict [("value", VStr "open")])]])])
                [] [("actions", VList [VDict (light_on "light_01")])]
                ltac:(discriminate) ltac:(discriminate) ltac:(discriminate)) as H.
  change (SceneParser.parse (fun _ => "")
            (VDict ([] ++ [("actions", VList [VDict (light_on "light_01")])])))
    with (@Ok scene.SceneDefinition
            {| scene.triggers := []; scene.conditions := None;
               scene.actions := [light_on "light_01"] |}) in H.
  cbn [app] in H.
  destruct (SceneParser.parse _ _) as [def' | e']; [now subst def' | destruct H].
Defined.

(** ** Comparisons *)


